(** * Open Payments downloader: paginated fetch, repair, merge and validation

    A shallow embedding of
    [scripts/openpayments_general_payments_download_2023.py].

    Conventions of the embedding:
    - Python [int] is [Z]; list indices and loop fuel are [nat].
    - [bytes] objects and file contents are lists of byte values ([Z] in
      [0..255]); a text line yielded by [Response.iter_lines] is represented
      by the bytes its UTF-8 encoding writes to the file, so [line + "\n"]
      is the line followed by byte 10.
    - Decoded text (the validator's [str]) is a list of code points ([Z]).
    - Message strings (outcome details, exception texts) are [string].
    - Stateful code runs in a state-and-exception monad over a [world]:
      the files on disk, the log of mutating file operations, and the log
      of [session.get] calls.  [try/except Exception] is [try_except].
    - The remote endpoint is an oracle [server offset attempt] giving the
      outcome of the [attempt]-th [session.get] issued for [offset].
    - [time.sleep] and [logging] calls have no effect on the modelled state
      and are left out.  Directory creation and removal ([ensure_dir],
      [rmdir]) are not modelled: the namespace is flat and a [Dir] node only
      marks a path that cannot be opened as a file.  The one [ensure_dir]
      call that sits outside every [try], in [download_big_parallel_pages],
      is put back as a parameter in [download_big_parallel_pages_mkdir]. *)

From Stdlib Require Import ZArith Lia String Ascii List DecimalString DecimalNat.
From stdpp Require Import gmap strings list fin_maps.

Open Scope Z_scope.

(** ** Configuration constants *)

Definition YEAR : Z := 2023.
Definition PAGE_LIMIT : Z := 5000.
Definition MANUAL_ATTEMPTS : nat := 5.
Definition EXPECTED_MIN_COLS : Z := 80.
Definition MAX_VALIDATION_BYTES : Z := 512 * 1024.

(** Byte and code-point constants. *)
Definition NL : Z := 10.
Definition CR : Z := 13.
Definition COMMA : Z := 44.
Definition DQUOTE : Z := 34.
Definition BOM : list Z := [239; 187; 191].

(** [f"{n}"] for an integer. *)
Definition str_of_Z (n : Z) : string := NilZero.string_of_int (Z.to_int n).

(** ** Exceptions and results *)

Inductive exn_class :=
| RequestException   (* requests.exceptions.RequestException and subclasses *)
| OSError            (* FileNotFoundError, IsADirectoryError, ... *)
| RuntimeError
| ValueError
| CsvError           (* _csv.Error *)
| OtherException.

(** [str(e)] is [exn_msg e]. *)
Record exn := mkExn { exn_cls : exn_class; exn_msg : string }.

Inductive res (A : Type) :=
| Val (a : A)        (* normal return *)
| Exc (e : exn)      (* an exception propagates to the caller *)
| Diverge.           (* loop fuel exhausted *)
Arguments Val {A} a.
Arguments Exc {A} e.
Arguments Diverge {A}.

(** ** The world: files, file-operation log, network log *)

Inductive node :=
| File (data : list Z)
| Dir (st_size : Z).

Inductive fs_event :=
| EvOpenW (p : string)               (* open(..., "w"/"wb"): create or truncate *)
| EvOpenA (p : string)               (* open(..., "a") *)
| EvWrite (p : string) (n : nat)     (* n bytes appended through the handle *)
| EvTruncate (p : string) (n : Z)
| EvUnlink (p : string)
| EvReplace (src dst : string).

Record world := mkWorld {
  files : gmap string node;
  fs_log : list fs_event;            (* oldest first *)
  net_log : list (Z * nat)           (* (offset, attempt) of session.get calls *)
}.

Definition M (A : Type) : Type := world -> res A * world.

Definition ret {A} (a : A) : M A := fun w => (Val a, w).
Definition raise {A} (e : exn) : M A := fun w => (Exc e, w).
Definition diverge {A} : M A := fun w => (Diverge, w).

Definition bind {A B} (m : M A) (k : A -> M B) : M B :=
  fun w => match m w with
           | (Val a, w') => k a w'
           | (Exc e, w') => (Exc e, w')
           | (Diverge, w') => (Diverge, w')
           end.

(** [try: m except Exception as e: h e]. *)
Definition try_except {A} (m : M A) (h : exn -> M A) : M A :=
  fun w => match m w with
           | (Exc e, w') => h e w'
           | r => r
           end.

Declare Scope io_scope.
Delimit Scope io_scope with io.
Notation "x <- c1 ;; c2" := (bind c1 (fun x => c2))
  (at level 100, c1 at next level, right associativity) : io_scope.
Notation "c1 ;;; c2" := (bind c1 (fun _ => c2))
  (at level 100, right associativity) : io_scope.
Open Scope io_scope.

Definition set_files (f : gmap string node -> gmap string node) (ev : fs_event) : M unit :=
  fun w => (Val tt, mkWorld (f (files w)) (fs_log w ++ [ev]) (net_log w)).

Definition os_error (what p : string) : exn := mkExn OSError (what +:+ ": " +:+ p).

(** *** pathlib / file-object primitives *)

Definition path_exists (p : string) : M bool :=
  fun w => (Val (bool_decide (is_Some (files w !! p))), w).

Definition stat_size (p : string) : M Z :=
  fun w => match files w !! p with
           | Some (File d) => (Val (Z.of_nat (length d)), w)
           | Some (Dir sz) => (Val sz, w)
           | None => (Exc (os_error "No such file or directory" p), w)
           end.

Definition unlink (p : string) : M unit :=
  fun w => match files w !! p with
           | Some (File _) => set_files (delete p) (EvUnlink p) w
           | Some (Dir _) => (Exc (os_error "Is a directory" p), w)
           | None => (Exc (os_error "No such file or directory" p), w)
           end.

(** [path.read_bytes()] and the read side of [path.open("rb")] / ["rb+"]. *)
Definition read_bytes (p : string) : M (list Z) :=
  fun w => match files w !! p with
           | Some (File d) => (Val d, w)
           | Some (Dir _) => (Exc (os_error "Is a directory" p), w)
           | None => (Exc (os_error "No such file or directory" p), w)
           end.

(** [path.open("w")] / [path.open("wb")]: create or truncate. *)
Definition open_w (p : string) : M unit :=
  fun w => match files w !! p with
           | Some (Dir _) => (Exc (os_error "Is a directory" p), w)
           | _ => set_files (insert p (File [])) (EvOpenW p) w
           end.

(** [path.open("a")]: create if missing, keep the content. *)
Definition open_a (p : string) : M unit :=
  fun w => match files w !! p with
           | Some (Dir _) => (Exc (os_error "Is a directory" p), w)
           | Some (File d) => set_files (fun m => m) (EvOpenA p) w
           | None => set_files (insert p (File [])) (EvOpenA p) w
           end.

(** Bytes written through an open handle reach the end of the file. *)
Definition write_bytes (p : string) (bs : list Z) : M unit :=
  fun w => match files w !! p with
           | Some (File d) => set_files (insert p (File (d ++ bs))) (EvWrite p (length bs)) w
           | _ => (Exc (os_error "Bad file descriptor" p), w)
           end.

(** [fh.truncate(n)] for [0 <= n <= size]. *)
Definition truncate (p : string) (n : Z) : M unit :=
  fun w => match files w !! p with
           | Some (File d) => set_files (insert p (File (take (Z.to_nat n) d))) (EvTruncate p n) w
           | _ => (Exc (os_error "Bad file descriptor" p), w)
           end.

(** [src.replace(dst)]: rename, overwriting an existing file. *)
Definition replace (src dst : string) : M unit :=
  fun w => match files w !! src with
           | None => (Exc (os_error "No such file or directory" src), w)
           | Some n =>
               match files w !! dst, n with
               | Some (Dir _), _ => (Exc (os_error "Is a directory" dst), w)
               | Some (File _), Dir _ => (Exc (os_error "Not a directory" dst), w)
               | _, _ => set_files (fun m => <[dst := n]> (delete src m)) (EvReplace src dst) w
               end
           end.

(** ** Trailing-record repair *)

(** [buffer.rfind(b"\n")]: index of the last occurrence, or [-1]. *)
Fixpoint rfind (buffer : list Z) (c : Z) : Z :=
  match buffer with
  | [] => -1
  | x :: rest =>
      let r := rfind rest c in
      if 0 <=? r then 1 + r
      else if x =? c then 0 else -1
  end.

(** [fh.seek(a); fh.read(b - a)] on a file holding [data]. *)
Definition read_range (data : list Z) (a b : Z) : list Z :=
  take (Z.to_nat (b - a)) (drop (Z.to_nat a) data).

(** The [while pos > 0] loop of [truncate_trailing_partial_row]; returns
    [last_nl], or [None] when the fuel runs out. *)
Fixpoint scan_back (block : Z) (fuel : nat) (data : list Z) (pos : Z) (buffer : list Z)
  : option Z :=
  if pos >? 0 then
    match fuel with
    | O => None
    | S fuel' =>
        let readpos := Z.max 0 (pos - block) in
        let chunk := read_range data readpos pos in
        let buffer := chunk ++ buffer in
        let idx := rfind buffer NL in
        if negb (idx =? -1) then Some (readpos + idx)
        else scan_back block fuel' data readpos buffer
    end
  else Some (-1).

Definition TRUNCATE_BLOCK : Z := 131072.

Definition truncate_body (block : Z) (path : string) : M unit :=
  ex <- path_exists path ;;
  if negb ex then ret tt else
  sz <- stat_size path ;;
  if sz =? 0 then ret tt else
  data <- read_bytes path ;;                      (* path.open("rb+") *)
  (* fh.seek(-1, os.SEEK_END); fh.read(1) *)
  if bool_decide (read_range data (sz - 1) sz = [NL]) then ret tt else
  let pos := sz in                                (* fh.tell() *)
  match scan_back block (length data) data pos [] with
  | None => diverge
  | Some last_nl =>
      if last_nl =? -1 then truncate path 0
      else truncate path (last_nl + 1)
  end.

Definition truncate_trailing_partial_row_with (block : Z) (path : string) : M unit :=
  try_except (truncate_body block path) (fun _ => ret tt).

Definition truncate_trailing_partial_row (path : string) : M unit :=
  truncate_trailing_partial_row_with TRUNCATE_BLOCK path.

(** ** The environment outside the script *)

(** A streamed HTTP response: the lines [iter_lines(decode_unicode=True)]
    yields, and the exception (if any) the stream raises after them. *)
Record response := mkResponse {
  status_code : Z;
  body : list (list Z);
  stream_err : option exn
}.

Inductive get_result :=
| GetExc (e : exn)
| GetResp (r : response).

Inductive encoding := Utf8Sig | Utf8 | Cp1252.

(** What the script does not define itself: the remote endpoint, the codecs
    ([bytes.decode(enc, errors="replace")], which never raises), and [repr]
    of the list of failed pages. *)
Record environment := mkEnv {
  server : string -> Z -> nat -> get_result;  (* company_id, offset, attempt (from 1) *)
  decode : encoding -> list Z -> list Z;
  repr_fails : list (nat * string) -> string
}.

(** ** Validator *)

(** Line boundaries of [str.splitlines]. *)
Definition is_linebreak (c : Z) : bool :=
  bool_decide (c ∈ [10; 11; 12; 13; 28; 29; 30; 133; 8232; 8233]).

(** Whitespace removed by [str.strip()]. *)
Definition is_space (c : Z) : bool :=
  ((9 <=? c) && (c <=? 13)) || ((28 <=? c) && (c <=? 32))
  || bool_decide (c ∈ [133; 160; 5760; 8232; 8233; 8239; 8287; 12288])
  || ((8192 <=? c) && (c <=? 8202)).

Fixpoint splitlines_from (cur : list Z) (s : list Z) : list (list Z) :=
  match s with
  | [] => match cur with [] => [] | _ => [cur] end
  | c :: rest =>
      if is_linebreak c then
        if c =? CR then
          match rest with
          | d :: rest' => if d =? NL then cur :: splitlines_from [] rest'
                          else cur :: splitlines_from [] rest
          | [] => cur :: splitlines_from [] rest
          end
        else cur :: splitlines_from [] rest
      else splitlines_from (cur ++ [c]) rest
  end.

Definition splitlines (s : list Z) : list (list Z) := splitlines_from [] s.

(** [bool(line.strip())]. *)
Definition nonblank (line : list Z) : bool := existsb (fun c => negb (is_space c)) line.

(** The inner [for line in text.splitlines()] loop. *)
Definition first_nonblank_line (text : list Z) : option (list Z) :=
  List.find nonblank (splitlines text).

(** The outer [for enc in (...)] loop. *)
Fixpoint find_header (E : environment) (encs : list encoding) (sample : list Z)
  : option (list Z) :=
  match encs with
  | [] => None
  | enc :: encs' =>
      match first_nonblank_line (decode E enc sample) with
      | Some line => Some line
      | None => find_header E encs' sample
      end
  end.

(** *** [csv.reader] with the default (excel, non-strict) dialect *)

Inductive csv_state :=
| START_RECORD | START_FIELD | IN_FIELD
| IN_QUOTED_FIELD | QUOTE_IN_QUOTED_FIELD | EAT_CRNL.

Record csv_reader := mkReader {
  rd_state : csv_state;
  rd_fields : list (list Z);
  rd_field : list Z
}.

Definition FIELD_LIMIT : Z := 131072.

Definition csv_error (msg : string) : exn := mkExn CsvError msg.

Definition parse_add_char (r : csv_reader) (c : Z) : exn + csv_reader :=
  if Z.of_nat (length (rd_field r)) >=? FIELD_LIMIT then
    inl (csv_error ("field larger than field limit (" +:+ str_of_Z FIELD_LIMIT +:+ ")"))
  else inr (mkReader (rd_state r) (rd_fields r) (rd_field r ++ [c])).

Definition parse_save_field (r : csv_reader) : csv_reader :=
  mkReader (rd_state r) (rd_fields r ++ [rd_field r]) [].

Definition set_state (s : csv_state) (r : csv_reader) : csv_reader :=
  mkReader s (rd_fields r) (rd_field r).

Definition is_crnl (c : Z) : bool := (c =? NL) || (c =? CR).

(** One step of the reader; [None] is the end-of-line marker. *)
Definition parse_process_char (r : csv_reader) (c : option Z) : exn + csv_reader :=
  let start_field (r : csv_reader) :=
    match c with
    | None => inr (set_state START_RECORD (parse_save_field r))
    | Some ch =>
        if is_crnl ch then inr (set_state EAT_CRNL (parse_save_field r))
        else if ch =? DQUOTE then inr (set_state IN_QUOTED_FIELD r)
        else if ch =? COMMA then inr (parse_save_field r)
        else match parse_add_char r ch with
             | inl e => inl e
             | inr r' => inr (set_state IN_FIELD r')
             end
    end in
  match rd_state r with
  | START_RECORD =>
      match c with
      | None => inr r
      | Some ch =>
          if is_crnl ch then inr (set_state EAT_CRNL r)
          else start_field (set_state START_FIELD r)
      end
  | START_FIELD => start_field r
  | IN_FIELD =>
      match c with
      | None => inr (set_state START_RECORD (parse_save_field r))
      | Some ch =>
          if is_crnl ch then inr (set_state EAT_CRNL (parse_save_field r))
          else if ch =? COMMA then inr (set_state START_FIELD (parse_save_field r))
          else parse_add_char r ch
      end
  | IN_QUOTED_FIELD =>
      match c with
      | None => inr r
      | Some ch =>
          if ch =? DQUOTE then inr (set_state QUOTE_IN_QUOTED_FIELD r)
          else parse_add_char r ch
      end
  | QUOTE_IN_QUOTED_FIELD =>
      match c with
      | None => inr (set_state START_RECORD (parse_save_field r))
      | Some ch =>
          if ch =? DQUOTE then
            match parse_add_char r ch with
            | inl e => inl e
            | inr r' => inr (set_state IN_QUOTED_FIELD r')
            end
          else if ch =? COMMA then inr (set_state START_FIELD (parse_save_field r))
          else if is_crnl ch then inr (set_state EAT_CRNL (parse_save_field r))
          else match parse_add_char r ch with
               | inl e => inl e
               | inr r' => inr (set_state IN_FIELD r')
               end
      end
  | EAT_CRNL =>
      match c with
      | None => inr (set_state START_RECORD r)
      | Some ch =>
          if is_crnl ch then inr r
          else inl (csv_error "new-line character seen in unquoted field - do you need to open the file with newline=''?")
      end
  end.

Fixpoint parse_chars (r : csv_reader) (line : list Z) : exn + csv_reader :=
  match line with
  | [] => inr r
  | ch :: rest =>
      match parse_process_char r (Some ch) with
      | inl e => inl e
      | inr r' => parse_chars r' rest
      end
  end.

(** [Reader.__next__]: consume input lines until a record is complete. *)
Fixpoint reader_next_from (r : csv_reader) (lines : list (list Z)) : exn + list (list Z) :=
  match lines with
  | [] =>
      if negb (bool_decide (rd_field r = []))
         || match rd_state r with IN_QUOTED_FIELD => true | _ => false end
      then inr (rd_fields (parse_save_field r))
      else inl (mkExn OtherException "StopIteration")
  | line :: rest =>
      match parse_chars r line with
      | inl e => inl e
      | inr r1 =>
          match parse_process_char r1 None with
          | inl e => inl e
          | inr r2 =>
              match rd_state r2 with
              | START_RECORD => inr (rd_fields r2)
              | _ => reader_next_from r2 rest
              end
          end
      end
  end.

(** [next(csv.reader(lines))]. *)
Definition csv_next (lines : list (list Z)) : exn + list (list Z) :=
  reader_next_from (mkReader START_RECORD [] []) lines.

Definition lift_sum {A} (x : exn + A) : M A :=
  match x with inl e => raise e | inr a => ret a end.

Definition validate_body (E : environment) (path : string) (expected_min_cols : Z)
  : M (bool * string) :=
  data <- read_bytes path ;;
  let sample := take (Z.to_nat MAX_VALIDATION_BYTES) data in
  match find_header E [Utf8Sig; Utf8; Cp1252] sample with
  | None => ret (false, "empty_or_binary_file"%string)
  | Some header_line =>
      cols <- lift_sum (csv_next [header_line]) ;;
      let n := Z.of_nat (length cols) in
      if n <? expected_min_cols then
        ret (false, "too_few_columns(" +:+ str_of_Z n +:+ "<" +:+ str_of_Z expected_min_cols +:+ ")")
      else ret (true, ""%string)
  end.

Definition validate_header_min_cols (E : environment) (path : string) (expected_min_cols : Z)
  : M (bool * string) :=
  try_except (validate_body E path expected_min_cols)
             (fun e => ret (false, "validation_error:" +:+ exn_msg e)).

(** [count_lines_quick]: iterate the binary file's lines, stop at [max_lines]. *)
Fixpoint bytes_lines_from (cur : list Z) (data : list Z) : list (list Z) :=
  match data with
  | [] => match cur with [] => [] | _ => [cur] end
  | c :: rest =>
      if c =? NL then (cur ++ [c]) :: bytes_lines_from [] rest
      else bytes_lines_from (cur ++ [c]) rest
  end.

Fixpoint count_loop (n : Z) (max_lines : Z) (lines : list (list Z)) : Z :=
  match lines with
  | [] => n
  | _ :: rest =>
      let n := n + 1 in
      if n >=? max_lines then n else count_loop n max_lines rest
  end.

Definition count_lines_quick (path : string) (max_lines : Z) : M Z :=
  try_except
    (data <- read_bytes path ;;
     ret (count_loop 0 max_lines (bytes_lines_from [] data)))
    (fun _ => ret 0).

(** ** Requests with manual backoff *)

(** [try: m except <class> as e: ...] as a value: [inl e] when an exception
    selected by [pred] was caught. *)
Definition catching {A} (pred : exn -> bool) (m : M A) : M (exn + A) :=
  fun w => match m w with
           | (Val a, w') => (Val (inr a), w')
           | (Exc e, w') => if pred e then (Val (inl e), w') else (Exc e, w')
           | (Diverge, w') => (Diverge, w')
           end.

Definition any_exception (e : exn) : bool := true.

Definition is_request_exception (e : exn) : bool :=
  match exn_cls e with RequestException => true | _ => false end.

(** [session.get(url, params=build_params(company_id, offset), ...)]. *)
Definition session_get (E : environment) (company_id : string) (offset : Z) (attempt : nat)
  : M response :=
  fun w =>
    let w' := mkWorld (files w) (fs_log w) (net_log w ++ [(offset, attempt)]) in
    match server E company_id offset attempt with
    | GetExc e => (Exc e, w')
    | GetResp r => (Val r, w')
    end.

Definition exhausted_error : exn :=
  mkExn RuntimeError "request_with_manual_backoff exhausted without response".

(** The [for attempt in range(1, MANUAL_ATTEMPTS + 1)] loop and what follows it. *)
Fixpoint backoff_loop (E : environment) (company_id : string) (offset : Z)
    (attempts : list nat) (last_exc : option exn) : M response :=
  match attempts with
  | [] =>
      match last_exc with
      | Some e => raise e
      | None => raise exhausted_error
      end
  | attempt :: rest =>
      r <- catching is_request_exception (session_get E company_id offset attempt) ;;
      match r with
      | inl e => backoff_loop E company_id offset rest (Some e)
      | inr resp =>
          if (status_code resp =? 403) || (status_code resp =? 429)
          then backoff_loop E company_id offset rest last_exc
          else ret resp
      end
  end.

Definition request_with_manual_backoff (E : environment) (company_id : string) (offset : Z)
  : M response :=
  backoff_loop E company_id offset (seq 1 MANUAL_ATTEMPTS) None.

(** ** Streaming a page into a file *)

(** State of the [for line in resp.iter_lines(...)] loop, which has the same
    body in [fetch_page_to_partfile] and [download_small_sequential]:
    [first_seen] is [first_nonempty_seen] / [header_seen]; [header_written]
    is [header_lines = 1] / the assignment [wrote_header = True]. *)
Record line_state := mkLineState {
  out : list Z;
  first_seen : bool;
  header_written : bool;
  data_lines : Z
}.

Definition line_step (write_first : bool) (st : line_state) (line : list Z) : line_state :=
  match line with
  | [] => st                                         (* if not line: continue *)
  | _ =>
      if negb (first_seen st) then
        if write_first
        then mkLineState (out st ++ line ++ [NL]) true true (data_lines st)
        else mkLineState (out st) true (header_written st) (data_lines st)
      else mkLineState (out st ++ line ++ [NL]) true (header_written st) (data_lines st + 1)
  end.

Definition stream_lines (write_first : bool) (lines : list (list Z)) : line_state :=
  fold_left (line_step write_first) lines (mkLineState [] false false 0).

(** [with path.open(mode, encoding=enc, newline="") as fh: for line in ...].
    [utf-8-sig] puts the byte-order mark before the first text written. *)
Definition write_lines (path : string) (append sig write_first : bool) (resp : response)
  : M line_state :=
  (if append then open_a path else open_w path) ;;;
  let st := stream_lines write_first (body resp) in
  (match out st with
   | [] => ret tt
   | bs => write_bytes path ((if sig then BOM else []) ++ bs)
   end) ;;;
  match stream_err resp with
  | Some e => raise e
  | None => ret st
  end.

(** [try: path.unlink() except Exception: pass]. *)
Definition try_unlink (p : string) : M unit :=
  try_except (unlink p) (fun _ => ret tt).

Definition page_result : Type := bool * string * Z * Z.

Definition http_error_msg (status offset : Z) : string :=
  "HTTP " +:+ str_of_Z status +:+ " at offset " +:+ str_of_Z offset.

Definition fetch_page_to_partfile (E : environment) (company_id : string) (offset : Z)
    (part_path : string) (is_first_page : bool) : M page_result :=
  r <- catching any_exception (request_with_manual_backoff E company_id offset) ;;
  match r with
  | inl e => ret (false, "request_error:" +:+ exn_msg e, 0, 0)
  | inr resp =>
      if negb (status_code resp =? 200)
      then ret (false, http_error_msg (status_code resp) offset, 0, 0)
      else
        try_except
          (ex <- path_exists part_path ;;
           (if ex then unlink part_path else ret tt) ;;;
           st <- write_lines part_path false is_first_page is_first_page resp ;;
           let header_lines := if header_written st then 1 else 0 in
           truncate_trailing_partial_row part_path ;;;
           if data_lines st =? 0 then
             try_unlink part_path ;;;
             ret (true, "empty_page_no_data_rows"%string, header_lines, data_lines st)
           else ret (true, "ok"%string, header_lines, data_lines st))
          (fun e => ret (false, "write_error:" +:+ exn_msg e, 0, 0))
  end.

(** ** Sequential downloader *)

Definition outcome : Type := string * Z * bool * string.

Definition final_path_of (year_dir company_id : string) : string :=
  year_dir +:+ "/" +:+ "csv_" +:+ company_id +:+ ".csv".

(** [final_path.with_suffix(".csv.part")]. *)
Definition tmp_path_of (year_dir company_id : string) : string :=
  year_dir +:+ "/" +:+ "csv_" +:+ company_id +:+ ".csv.part".

Inductive loop_exit :=
| LoopReturn (o : outcome)                          (* a [return] inside the loop *)
| LoopBreak (total_data_rows : Z) (wrote_header : bool).

(** The [while True] loop of [download_small_sequential]. *)
Fixpoint small_loop (E : environment) (fuel : nat) (company_id tmp_path : string)
    (offset total_data_rows : Z) (wrote_header : bool) : M loop_exit :=
  match fuel with
  | O => diverge
  | S fuel' =>
      r <- catching any_exception (request_with_manual_backoff E company_id offset) ;;
      match r with
      | inl e =>
          try_unlink tmp_path ;;;
          ret (LoopReturn (company_id, YEAR, false, "request_error:" +:+ exn_msg e))
      | inr resp =>
          if negb (status_code resp =? 200) then
            try_unlink tmp_path ;;;
            ret (LoopReturn (company_id, YEAR, false, http_error_msg (status_code resp) offset))
          else
            st <- write_lines tmp_path (negb (offset =? 0)) (offset =? 0) (offset =? 0) resp ;;
            let wrote_header := wrote_header || header_written st in
            truncate_trailing_partial_row tmp_path ;;;
            if data_lines st =? 0 then ret (LoopBreak total_data_rows wrote_header)
            else small_loop E fuel' company_id tmp_path
                            (offset + PAGE_LIMIT) (total_data_rows + data_lines st) wrote_header
      end
  end.

Definition download_small_sequential (E : environment) (fuel : nat)
    (company_id year_dir : string) : M outcome :=
  let final_path := final_path_of year_dir company_id in
  let tmp_path := tmp_path_of year_dir company_id in
  ex <- path_exists tmp_path ;;
  (if ex then try_unlink tmp_path else ret tt) ;;;
  r <- small_loop E fuel company_id tmp_path 0 0 false ;;
  match r with
  | LoopReturn o => ret o
  | LoopBreak total_data_rows wrote_header =>
      if negb wrote_header || (total_data_rows =? 0) then
        try_unlink tmp_path ;;;
        ret (company_id, YEAR, false, "no_results_header_only"%string)
      else
        v <- validate_header_min_cols E tmp_path EXPECTED_MIN_COLS ;;
        let '(ok, reason) := v in
        if negb ok then
          try_unlink tmp_path ;;;
          ret (company_id, YEAR, false, "validation_failed:" +:+ reason)
        else
          replace tmp_path final_path ;;;
          ret (company_id, YEAR, true, "downloaded_small_ok_rows~" +:+ str_of_Z total_data_rows)
  end.

(** ** Parallel downloader *)

(** The [for p in parts] loop of [merge_parts]. *)
Fixpoint merge_write_loop (parts : list string) (final_path : string) : M unit :=
  match parts with
  | [] => ret tt
  | p :: rest =>
      ex <- path_exists p ;;
      (if ex then
         sz <- stat_size p ;;
         if sz >? 0 then data <- read_bytes p ;; write_bytes final_path data
         else ret tt
       else ret tt) ;;;
      merge_write_loop rest final_path
  end.

Definition merge_parts (E : environment) (parts : list string) (final_path : string)
  : M (bool * string) :=
  try_except
    (ex <- path_exists final_path ;;
     (if ex then unlink final_path else ret tt) ;;;
     open_w final_path ;;;
     merge_write_loop parts final_path ;;;
     ex <- path_exists final_path ;;
     sz <- (if ex then stat_size final_path else ret 0) ;;
     if negb ex || (sz =? 0) then ret (false, "merged_empty"%string)
     else
       n <- count_lines_quick final_path 3 ;;
       if n <? 2 then
         try_unlink final_path ;;;
         ret (false, "no_results_header_only_after_merge"%string)
       else
         v <- validate_header_min_cols E final_path EXPECTED_MIN_COLS ;;
         let '(ok, reason) := v in
         if negb ok then
           try_unlink final_path ;;;
           ret (false, "validation_failed:" +:+ reason)
         else ret (true, "merged_ok"%string))
    (fun e => ret (false, "merge_error:" +:+ exn_msg e)).

(** [math.ceil(a / b)] for [b > 0]. *)
Definition ceil_div (a b : Z) : Z := - ((- a) / b).

Fixpoint zeros (n : nat) : string :=
  match n with O => ""%string | S n' => String "0"%char (zeros n') end.

(** [f"{i:06d}"] for [i >= 0]. *)
Definition pad6 (i : nat) : string :=
  let s := NilZero.string_of_uint (Nat.to_uint i) in
  zeros (6 - String.length s) +:+ s.

Definition parts_root_of (year_dir company_id : string) : string :=
  year_dir +:+ "/" +:+ "_parts" +:+ "/" +:+ company_id.

Definition part_path_of (year_dir company_id : string) (i : nat) : string :=
  parts_root_of year_dir company_id +:+ "/" +:+ "part_" +:+ pad6 i +:+ ".csv".

(** One submitted page task: [(offset, part_path, is_first_page)]. *)
Definition page_job : Type := Z * string * bool.

(** The [ex.submit(...)] loop: one task per page index, in index order. *)
Definition page_jobs (year_dir company_id : string) (pages : nat) : list page_job :=
  map (fun i : nat => (Z.of_nat i * PAGE_LIMIT, part_path_of year_dir company_id i, bool_decide (i = 0%nat)))
      (seq 0 pages).

(** The page tasks run concurrently; each touches only its own part file and
    issues only its own requests, so one execution is described by the order
    [sched] in which the tasks run to completion.  That is also the order in
    which [as_completed] hands them to the collecting loop. *)
Fixpoint collect_pages (E : environment) (company_id : string) (jobs : list page_job)
    (sched : list nat) (results : list (nat * page_result)) (total_data_rows : Z)
  : M (list (nat * page_result) * Z) :=
  match sched with
  | [] => ret (results, total_data_rows)
  | i :: rest =>
      match jobs !! i with
      | None => collect_pages E company_id jobs rest results total_data_rows
      | Some (offset, part_path, is_first) =>
          r <- catching any_exception
                 (fetch_page_to_partfile E company_id offset part_path is_first) ;;
          match r with
          | inr (ok, msg, header_lines, dl) =>
              collect_pages E company_id jobs rest
                            (results ++ [(i, (ok, msg, header_lines, dl))]) (total_data_rows + dl)
          | inl e =>
              collect_pages E company_id jobs rest
                            (results ++ [(i, (false, "executor_error:" +:+ exn_msg e, 0, 0))])
                            total_data_rows
          end
      end
  end.

(** [[(i, r[1]) for i, r in results.items() if not r[0]]]. *)
Definition hard_fails_of (results : list (nat * page_result)) : list (nat * string) :=
  omap (fun ir : nat * page_result =>
          let '(i, (ok, msg, _, _)) := ir in
          if ok then None else Some (i, msg)) results.

(** The best-effort [for p in part_paths: if p.exists(): p.unlink()]. *)
Fixpoint cleanup_loop (parts : list string) : M unit :=
  match parts with
  | [] => ret tt
  | p :: rest =>
      ex <- path_exists p ;;
      (if ex then unlink p else ret tt) ;;;
      cleanup_loop rest
  end.

(** What [download_big_parallel_pages] does once the [with
    ThreadPoolExecutor] block has collected every page result. *)
Definition big_after_pages (E : environment) (company_id : string) (pages : Z)
    (final_path : string) (part_paths : list string)
    (results : list (nat * page_result)) (total_data_rows : Z) : M outcome :=
  let hard_fails := hard_fails_of results in
  match hard_fails with
  | _ :: _ =>
      ret (company_id, YEAR, false, "page_download_failed:" +:+ repr_fails E (take 3 hard_fails))
  | [] =>
      if total_data_rows =? 0
      then ret (company_id, YEAR, false, "no_results_all_pages_empty"%string) else
      mr <- merge_parts E part_paths final_path ;;
      let '(ok, msg) := mr in
      if negb ok then ret (company_id, YEAR, false, msg) else
      try_except (cleanup_loop part_paths) (fun _ => ret tt) ;;;
      ret (company_id, YEAR, true,
           "downloaded_big_ok_pages=" +:+ str_of_Z pages +:+ "_rows~" +:+ str_of_Z total_data_rows)
  end.

(** [download_big_parallel_pages] from the point where
    [ensure_dir(parts_root)] has returned: the parts directory is taken to
    exist, as directories are not part of the world.  The call itself is put
    back in [download_big_parallel_pages_mkdir] below. *)
Definition download_big_parallel_pages (E : environment) (company_id : string)
    (expected_total : Z) (year_dir : string) (page_workers : Z) (sched : list nat)
  : M outcome :=
  let pages := ceil_div expected_total PAGE_LIMIT in
  if pages <=? 0 then ret (company_id, YEAR, false, "bad_expected_total"%string) else
  let final_path := final_path_of year_dir company_id in
  let part_paths := map (part_path_of year_dir company_id) (seq 0 (Z.to_nat pages)) in
  let jobs := page_jobs year_dir company_id (Z.to_nat pages) in
  (* ThreadPoolExecutor(max_workers=page_workers) *)
  if page_workers <=? 0
  then raise (mkExn ValueError "max_workers must be greater than 0") else
  rt <- collect_pages E company_id jobs sched [] 0 ;;
  let '(results, total_data_rows) := rt in
  big_after_pages E company_id pages final_path part_paths results total_data_rows.

(** The whole of [download_big_parallel_pages], [ensure_dir(parts_root)]
    included.  [ensure_dir] stands for [Path.mkdir(parents=True,
    exist_ok=True)], which returns or raises (a regular file in the way, a
    refused permission, a full disk): it is a parameter, any computation on
    the world.  It is called once the page count has been checked, before
    anything else is done, and outside every [try]. *)
Definition download_big_parallel_pages_mkdir (ensure_dir : string -> M unit)
    (E : environment) (company_id : string)
    (expected_total : Z) (year_dir : string) (page_workers : Z) (sched : list nat)
  : M outcome :=
  let pages := ceil_div expected_total PAGE_LIMIT in
  if pages <=? 0 then ret (company_id, YEAR, false, "bad_expected_total"%string) else
  ensure_dir (parts_root_of year_dir company_id) ;;;
  download_big_parallel_pages E company_id expected_total year_dir page_workers sched.

(** ** Orchestrator: session sizing and dispatch *)

Record Session := mkSession {
  pool_connections : Z;
  pool_maxsize : Z
}.

Definition make_session (pool_size : Z) : Session :=
  mkSession pool_size pool_size.

(** [pool_size = max(args.id_workers, args.page_workers) * 3] in [main]. *)
Definition main_pool_size (id_workers page_workers : Z) : Z :=
  Z.max id_workers page_workers * 3.

Definition main_session (id_workers page_workers : Z) : Session :=
  make_session (main_pool_size id_workers page_workers).

(** The dispatch in [main]: [expected_total <= PAGE_LIMIT] goes sequential. *)
Definition run_task (E : environment) (fuel : nat) (year_dir : string) (page_workers : Z)
    (sched : list nat) (task : string * Z) : M outcome :=
  let '(company_id, expected_total) := task in
  if expected_total <=? PAGE_LIMIT
  then download_small_sequential E fuel company_id year_dir
  else download_big_parallel_pages E company_id expected_total year_dir page_workers sched.

(** ** Notions used to state the properties *)

(** An attempt that the manual loop retries: a transport exception, or a
    response with status 403 or 429. *)
Definition retried (g : get_result) : bool :=
  match g with
  | GetExc e => is_request_exception e
  | GetResp r => (status_code r =? 403) || (status_code r =? 429)
  end.

(** The most recent exception among the outcomes [gs], if any. *)
Definition last_exception (gs : list get_result) : option exn :=
  fold_left (fun acc g => match g with GetExc e => Some e | GetResp _ => acc end) gs None.

(** An error [e] carries the outcome [g] it was raised for: it is the
    exception observed, or its text shows the response status observed. *)
Definition carries_observed (e : exn) (g : get_result) : Prop :=
  match g with
  | GetExc e' => e = e'
  | GetResp r => is_Some (String.index 0 (str_of_Z (status_code r)) (exn_msg e))
  end.



(** The text of a [too_few_columns] reason. *)
Definition too_few_columns (actual expected : Z) : string :=
  "too_few_columns(" +:+ str_of_Z actual +:+ "<" +:+ str_of_Z expected +:+ ")".

(** The lines of a body that are not empty, and lines written out each
    followed by a newline. *)
Definition nonempty_lines (lines : list (list Z)) : list (list Z) :=
  filter (fun l => l ≠ []) lines.

Definition terminated (lines : list (list Z)) : list Z :=
  concat (map (fun l => l ++ [NL]) lines).

(** The paths a logged file operation names. *)
Definition event_paths (ev : fs_event) : list string :=
  match ev with
  | EvOpenW p | EvOpenA p | EvUnlink p => [p]
  | EvWrite p _ => [p]
  | EvTruncate p _ => [p]
  | EvReplace src dst => [src; dst]
  end.

(** A computation is confined to the path [p] when it leaves every other
    path and the network log alone, logs operations on [p] only, and its
    result and what it leaves at [p] depend on nothing but what it found
    at [p]. *)
Definition confined (p : string) {A} (m : M A) : Prop :=
  ∀ w,
    (∀ q, q ≠ p → files (snd (m w)) !! q = files w !! q)
    ∧ (∃ evs, fs_log (snd (m w)) = fs_log w ++ evs
              ∧ Forall (fun ev => ∀ q, q ∈ event_paths ev → q = p) evs)
    ∧ net_log (snd (m w)) = net_log w
    ∧ (∀ w2, files w2 !! p = files w !! p →
             fst (m w2) = fst (m w)
             ∧ files (snd (m w2)) !! p = files (snd (m w)) !! p).

(** A computation that never runs out of fuel. *)
Definition total {A} (m : M A) : Prop := ∀ w, fst (m w) ≠ Diverge.

(** The bytes that reach a fresh file for what the line loop wrote: under
    [utf-8-sig] the byte-order mark comes first, unless nothing was written. *)
Definition written (sig : bool) (bs : list Z) : list Z :=
  match bs with
  | [] => []
  | _ => (if sig then BOM else []) ++ bs
  end.

(** Reading a decimal numeral back as a number. *)
Definition read_nat (s : string) : option nat :=
  option_map Nat.of_uint (NilEmpty.uint_of_string s).

(** The attempts a request makes: the first few of [1..MANUAL_ATTEMPTS], at
    least one. *)
Definition attempts_ok (used : list nat) : Prop :=
  used ≠ [] ∧ used `prefix_of` seq 1 MANUAL_ATTEMPTS.

(** The task submitted for page [i] of an entity. *)
Definition page_fetch (E : environment) (company_id year_dir : string) (i : nat)
  : M page_result :=
  fetch_page_to_partfile E company_id (Z.of_nat i * PAGE_LIMIT)
                         (part_path_of year_dir company_id i) (bool_decide (i = 0%nat)).

(** What the task of page [i] returns when it runs in the world [w]. *)
Definition page_result_at (E : environment) (company_id year_dir : string) (i : nat)
    (w : world) : page_result :=
  match fst (page_fetch E company_id year_dir i w) with
  | Val r => r
  | _ => (false, ""%string, 0, 0)
  end.

Definition page_ok (r : page_result) : bool := r.1.1.1.
Definition page_rows (r : page_result) : Z := r.2.

(** The bytes of the regular file at [p], nothing when there is none. *)
Definition file_bytes (m : gmap string node) (p : string) : list Z :=
  match m !! p with
  | Some (File d) => d
  | _ => []
  end.

(** The requests logged for one page: attempts [1, 2, ...] at its offset. *)
Definition page_requests (i : nat) (block : list (Z * nat)) : Prop :=
  ∃ used, attempts_ok used ∧ block = map (fun a : nat => (Z.of_nat i * PAGE_LIMIT, a)) used.

(** The number of lines of a file, as [count_lines_quick] counts them. *)
Definition line_count (data : list Z) : nat := length (bytes_lines_from [] data).

(** Every logged operation that names [p] is a rename onto [p]. *)
Definition only_renamed_into (p : string) (log : list fs_event) : Prop :=
  Forall (fun ev => p ∈ event_paths ev → ∃ src, ev = EvReplace src p) log.

Definition log_gets (offset : Z) (attempts : list nat) (w : world) : world :=
  mkWorld (files w) (fs_log w) (net_log w ++ map (fun a : nat => (offset, a)) attempts).

(** The number of pages the parallel downloader plans for an entity. *)
Definition page_count (expected_total : Z) : nat :=
  Z.to_nat (ceil_div expected_total PAGE_LIMIT).

(** What the request for the page at [offset] comes back with; the server
    and the retry policy decide it, the file system does not. *)
Definition page_response (E : environment) (company_id : string) (offset : Z)
  : res response :=
  fst (request_with_manual_backoff E company_id offset (mkWorld ∅ [] [])).

(** No logged operation names [p]. *)
Definition untouched (p : string) (log : list fs_event) : Prop :=
  Forall (fun ev => p ∉ event_paths ev) log.

(** A computation that leaves every path but [p] alone and logs file
    operations on [p] only; unlike a confined one it may issue requests. *)
Definition keeps_to (p : string) {A} (m : M A) : Prop :=
  ∀ w,
    (∀ q, q ≠ p → files (snd (m w)) !! q = files w !! q)
    ∧ (∃ evs, fs_log (snd (m w)) = fs_log w ++ evs
              ∧ Forall (fun ev => ∀ q, q ∈ event_paths ev → q = p) evs).

(** What the sequential loop makes of the response to its page [j]: the
    lines it keeps, and the bytes that reach the growing file. *)
Definition page_state (j : nat) (resp : response) : line_state :=
  stream_lines (Z.of_nat j * PAGE_LIMIT =? 0) (body resp).

Definition page_bytes (j : nat) (resp : response) : list Z :=
  written (Z.of_nat j * PAGE_LIMIT =? 0) (out (page_state j resp)).

Fixpoint pages_bytes (j : nat) (resps : list response) : list Z :=
  match resps with
  | [] => []
  | r :: rest => page_bytes j r ++ pages_bytes (S j) rest
  end.

Fixpoint pages_rows (j : nat) (resps : list response) : Z :=
  match resps with
  | [] => 0
  | r :: rest => data_lines (page_state j r) + pages_rows (S j) rest
  end.

(** The requests for pages [j], [j+1], ... are answered by [resps], each a
    complete 200 response with at least one data line, and then by [lastr],
    a complete 200 response with no data line. *)
Fixpoint pages_served (E : environment) (company_id : string) (j : nat)
    (resps : list response) (lastr : response) : Prop :=
  match resps with
  | [] =>
      page_response E company_id (Z.of_nat j * PAGE_LIMIT) = Val lastr
      ∧ status_code lastr = 200 ∧ stream_err lastr = None
      ∧ data_lines (page_state j lastr) = 0
  | r :: rest =>
      page_response E company_id (Z.of_nat j * PAGE_LIMIT) = Val r
      ∧ status_code r = 200 ∧ stream_err r = None
      ∧ data_lines (page_state j r) ≠ 0
      ∧ pages_served E company_id (S j) rest lastr
  end.

(** The world [w'] comes from [w] by file operations on [p] alone. *)
Definition differs_at (p : string) (w w' : world) : Prop :=
  (∀ q, q ≠ p → files w' !! q = files w !! q)
  ∧ (∃ evs, fs_log w' = fs_log w ++ evs
            ∧ Forall (fun ev => ∀ q, q ∈ event_paths ev → q = p) evs).

(** The path [p] holds a regular file of complete lines, at least two. *)
Definition holds_table (p : string) (w : world) : Prop :=
  ∃ c, files w !! p = Some (File c) ∧ last c = Some NL ∧ (2 <= line_count c)%nat.

(** [r] is where the last newline of [data] sits, or -1 when there is none. *)
Definition last_newline_split (data : list Z) (r : Z) : Prop :=
  (r = -1 ∧ NL ∉ data)
  ∨ (∃ pre post, data = pre ++ NL :: post ∧ (NL ∉ post) ∧ r = Z.of_nat (length pre)).


(** ** Concrete scenarios

    Inputs on which the definitions above are evaluated in the examples
    below.  [decode_ascii] agrees with the three codecs on ASCII samples
    (with or without a leading byte-order mark), which is all the scenarios
    contain. *)

Definition decode_ascii (enc : encoding) (bs : list Z) : list Z :=
  match enc, bs with
  | Utf8Sig, 239 :: 187 :: 191 :: rest => rest
  | _, _ => bs
  end.

Definition repr_count (l : list (nat * string)) : string :=
  "[" +:+ NilZero.string_of_uint (Nat.to_uint (length l)) +:+ " failed]".

Definition env_of (srv : string -> Z -> nat -> get_result) : environment :=
  mkEnv srv decode_ascii repr_count.

Definition empty_world : world := mkWorld ∅ [] [].

Definition world_of (m : gmap string node) : world := mkWorld m [] [].

(** A header of [n] one-letter columns, [h,h,...,h], and rows of the same shape. *)
Definition header_row (n : nat) : list Z := 104 :: concat (repeat [COMMA; 104] (n - 1)).
Definition data_row (n : nat) : list Z := 49 :: concat (repeat [COMMA; 49] (n - 1)).

(** A 200 response holding the header and [rows] data rows. *)
Definition ok_page (cols rows : nat) : get_result :=
  GetResp (mkResponse 200 (header_row cols :: repeat (data_row cols) rows) None).

Definition status_page (status : Z) : get_result :=
  GetResp (mkResponse status [] None).

(** "ACME": 3000 rows expected; the first page has data, the next is empty. *)
Definition acme_server : string -> Z -> nat -> get_result :=
  fun _ offset _ => if offset =? 0 then ok_page 80 3 else ok_page 80 0.

(** "GIANT": 12000 rows expected, three pages with data. *)
Definition giant_server : string -> Z -> nat -> get_result :=
  fun _ offset _ => if offset <? 10000 then ok_page 80 2 else ok_page 80 1.

(** "GIANT" when the page at offset 5000 answers HTTP 500 every time. *)
Definition giant_failing_server : string -> Z -> nat -> get_result :=
  fun _ offset _ => if offset =? 5000 then status_page 500 else ok_page 80 2.

(** "GIANT" with a three-column table: the merged file fails validation. *)
Definition giant_narrow_server : string -> Z -> nat -> get_result :=
  fun _ _ _ => ok_page 3 2.

(** A table file: a header of [cols] columns and one data row. *)
Definition table_file (cols : nat) : list Z :=
  header_row cols ++ [NL] ++ data_row cols ++ [NL].

(** A file whose last record was cut short: a line ending in a quoted
    [value] and a newline, then the unterminated record [1,2,3]. *)
Definition cut_short_file : list Z :=
  [120; COMMA; DQUOTE; 118; 97; 108; 117; 101; NL; 49; COMMA; 50; COMMA; 51].

(** Every attempt is throttled with the given status. *)
Definition throttled_server (status : Z) : string -> Z -> nat -> get_result :=
  fun _ _ _ => status_page status.

(** Throttled on the first two attempts, then a page with one data row. *)
Definition flaky_server : string -> Z -> nat -> get_result :=
  fun _ _ attempt => if (attempt <? 3)%nat then status_page 429 else ok_page 80 1.

(** A 200 response whose stream breaks after the header and one row. *)
Definition broken_stream : exn := mkExn RequestException "Connection broken".

Definition cut_server : string -> Z -> nat -> get_result :=
  fun _ _ _ => GetResp (mkResponse 200 [header_row 80; data_row 80] (Some broken_stream)).

(** "ACME" when the second page answers HTTP 500. *)
Definition acme_failing_server : string -> Z -> nat -> get_result :=
  fun _ offset _ => if offset =? 0 then ok_page 80 3 else status_page 500.

(** Every page of the entity has a header and no data row. *)
Definition empty_server : string -> Z -> nat -> get_result :=
  fun _ _ _ => ok_page 80 0.

(** The requests for pages [j], [j+1], ... are answered by [resps], each a
    complete 200 response with at least one data line. *)
Fixpoint pages_with_data (E : environment) (company_id : string) (j : nat)
    (resps : list response) : Prop :=
  match resps with
  | [] => True
  | r :: rest =>
      page_response E company_id (Z.of_nat j * PAGE_LIMIT) = Val r
      ∧ status_code r = 200 ∧ stream_err r = None
      ∧ data_lines (page_state j r) ≠ 0
      ∧ pages_with_data E company_id (S j) rest
  end.

(** A directory creation that fails when a regular file already sits at the
    path, and otherwise returns. *)
Definition mkdir_unless_file (p : string) : M unit :=
  fun w => match files w !! p with
           | Some (File _) => (Exc (os_error "File exists" p), w)
           | _ => (Val tt, w)
           end.

(** ** Orchestrator: slicing the task list

    [parse_slice] and the [tasks[sl]] of [main].  Text is a list of code
    points.  The builtin [int] is a parameter: [int text] is the integer
    [int(text)] returns, or [None] when it raises. *)

Definition COLON : Z := 58.

Fixpoint lstrip (s : list Z) : list Z :=
  match s with
  | c :: rest => if is_space c then lstrip rest else s
  | [] => []
  end.

(** [str.strip()]. *)
Definition strip (s : list Z) : list Z := reverse (lstrip (reverse (lstrip s))).

(** [s.split(sep, 1)] for a string that contains [sep]. *)
Fixpoint split_first (sep : Z) (s : list Z) : list Z * list Z :=
  match s with
  | [] => ([], [])
  | c :: rest =>
      if c =? sep then ([], rest)
      else let '(l, r) := split_first sep rest in (c :: l, r)
  end.

(** [slice(start, stop)]. *)
Record py_slice := mkSlice { sl_start : option Z; sl_stop : option Z }.

Inductive slice_error :=
| InvalidSlice (slice_str : list Z)   (* ValueError(f"Invalid --slice '{slice_str}'. ...") *)
| InvalidInt (text : list Z).         (* the ValueError raised by int(text) *)

Definition parse_slice (int : list Z -> option Z) (slice_str : option (list Z))
  : slice_error + option py_slice :=
  match slice_str with
  | None | Some [] => inr None                      (* if not slice_str *)
  | Some slice_str =>
      let s := strip slice_str in
      if negb (bool_decide (COLON ∈ s)) then
        match int s with
        | Some n => inr (Some (mkSlice (Some 0) (Some n)))
        | None => inl (InvalidSlice slice_str)
        end
      else
        let left_right := split_first COLON s in
        let left_ := strip (fst left_right) in
        let right_ := strip (snd left_right) in
        match (match left_ with
               | [] => Some None
               | _ => option_map Some (int left_)
               end) with
        | None => inl (InvalidInt left_)
        | Some start =>
            match right_ with
            | [] => inr (Some (mkSlice start None))
            | _ =>
                match int right_ with
                | None => inl (InvalidInt right_)
                | Some end_int =>
                    inr (Some (mkSlice start (if end_int =? -1 then None else Some end_int)))
                end
            end
        end
  end.

(** A slice bound against a list of length [n]: a negative bound counts
    from the end, and the result is clamped to [0..n]. *)
Definition slice_bound (n : Z) (i : option Z) (default : Z) : Z :=
  match i with
  | None => default
  | Some i => if i <? 0 then Z.max (i + n) 0 else Z.min i n
  end.

(** [l[sl]] for a slice without step. *)
Definition apply_slice {A} (sl : py_slice) (l : list A) : list A :=
  let n := Z.of_nat (length l) in
  let a := slice_bound n (sl_start sl) 0 in
  let b := slice_bound n (sl_stop sl) n in
  take (Z.to_nat (b - a)) (drop (Z.to_nat a) l).

(** [sl = parse_slice(args.slice)] and [if sl is not None: tasks = tasks[sl]]. *)
Definition slice_tasks {A} (int : list Z -> option Z) (slice_str : option (list Z))
    (tasks : list A) : slice_error + list A :=
  match parse_slice int slice_str with
  | inl e => inl e
  | inr None => inr tasks
  | inr (Some sl) => inr (apply_slice sl tasks)
  end.

(** [int] on plain ASCII numerals: an optional sign and decimal digits. *)
Fixpoint digits_value (acc : Z) (s : list Z) : option Z :=
  match s with
  | [] => Some acc
  | c :: rest =>
      if (48 <=? c) && (c <=? 57) then digits_value (10 * acc + (c - 48)) rest else None
  end.

Definition ascii_int (s : list Z) : option Z :=
  match s with
  | [] => None
  | 45 :: ((_ :: _) as d) => option_map Z.opp (digits_value 0 d)
  | 43 :: ((_ :: _) as d) => digits_value 0 d
  | _ => digits_value 0 s
  end.

(** A row of unquoted fields separated by commas, and a field that can be
    written unquoted: no comma, quote or line break inside, and within the
    field size limit. *)
Fixpoint plain_row (fields : list (list Z)) : list Z :=
  match fields with
  | [] => []
  | [f] => f
  | f :: rest => f ++ COMMA :: plain_row rest
  end.

Definition plain_field (s : list Z) : Prop :=
  (COMMA ∉ s) ∧ (DQUOTE ∉ s) ∧ (CR ∉ s) ∧ (NL ∉ s) ∧ Z.of_nat (length s) <= FIELD_LIMIT.

(** A computation whose result and whose effect on the files depend on the
    files only, not on what has been logged so far. *)
Definition files_only {A} (m : M A) : Prop :=
  ∀ w w2, files w = files w2 →
          fst (m w) = fst (m w2) ∧ files (snd (m w)) = files (snd (m w2)).

(** A server that ignores the offset: every page has a header and a row. *)
Definition endless_server : string -> Z -> nat -> get_result :=
  fun _ _ _ => ok_page 80 1.

(** A computation that changes no path outside [P]. *)
Definition changes_within (P : string -> Prop) {A} (m : M A) : Prop :=
  ∀ w q, ¬ P q → files (snd (m w)) !! q = files w !! q.


(* ===================================================================== *)
(** * Properties *)
(* ===================================================================== *)


(** ** Evaluation lemmas for the monad and the file primitives *)

Lemma bind_val {A B} (m : M A) (k : A → M B) (w w' : world) (a : A) :
  m w = (Val a, w') → bind m k w = k a w'.
Proof. intros H. unfold bind. rewrite H. reflexivity. Qed.

Lemma bind_exc {A B} (m : M A) (k : A → M B) (w w' : world) (e : exn) :
  m w = (Exc e, w') → bind m k w = (Exc e, w').
Proof. intros H. unfold bind. rewrite H. reflexivity. Qed.

Lemma bind_diverge {A B} (m : M A) (k : A → M B) (w w' : world) :
  m w = (Diverge, w') → bind m k w = (Diverge, w').
Proof. intros H. unfold bind. rewrite H. reflexivity. Qed.

Lemma try_except_val {A} (m : M A) (h : exn → M A) (w w' : world) (a : A) :
  m w = (Val a, w') → try_except m h w = (Val a, w').
Proof. intros H. unfold try_except. rewrite H. reflexivity. Qed.

Lemma try_except_exc {A} (m : M A) (h : exn → M A) (w w' : world) (e : exn) :
  m w = (Exc e, w') → try_except m h w = h e w'.
Proof. intros H. unfold try_except. rewrite H. reflexivity. Qed.

Lemma run_path_exists {B} (p : string) (k : bool → M B) (w : world) :
  bind (path_exists p) k w = k (bool_decide (is_Some (files w !! p))) w.
Proof. reflexivity. Qed.

Lemma run_stat_size_file {B} (p : string) (d : list Z) (k : Z → M B) (w : world) :
  files w !! p = Some (File d) → bind (stat_size p) k w = k (Z.of_nat (length d)) w.
Proof. intros H. unfold bind, stat_size. rewrite H. reflexivity. Qed.

Lemma run_read_bytes_file {B} (p : string) (d : list Z) (k : list Z → M B) (w : world) :
  files w !! p = Some (File d) → bind (read_bytes p) k w = k d w.
Proof. intros H. unfold bind, read_bytes. rewrite H. reflexivity. Qed.

Lemma truncate_file (p : string) (d : list Z) (n : Z) (w : world) :
  files w !! p = Some (File d) →
  truncate p n w
  = (Val tt, mkWorld (<[p := File (take (Z.to_nat n) d)]> (files w))
                     (fs_log w ++ [EvTruncate p n]) (net_log w)).
Proof. intros H. unfold truncate. rewrite H. reflexivity. Qed.


Lemma run_unlink_file {B} (p : string) (d : list Z) (k : unit → M B) (w : world) :
  files w !! p = Some (File d) →
  bind (unlink p) k w
  = k tt (mkWorld (delete p (files w)) (fs_log w ++ [EvUnlink p]) (net_log w)).
Proof. intros H. unfold bind, unlink. rewrite H. reflexivity. Qed.

Lemma run_open_w {B} (p : string) (k : unit → M B) (w : world) :
  (∀ sz, files w !! p ≠ Some (Dir sz)) →
  bind (open_w p) k w
  = k tt (mkWorld (<[p := File []]> (files w)) (fs_log w ++ [EvOpenW p]) (net_log w)).
Proof.
  intros H. unfold bind, open_w.
  destruct (files w !! p) as [[d|sz]|] eqn:Hc; [reflexivity| |reflexivity].
  exfalso. apply (H sz). reflexivity.
Qed.

Lemma run_open_a_file {B} (p : string) (d : list Z) (k : unit → M B) (w : world) :
  files w !! p = Some (File d) →
  bind (open_a p) k w = k tt (mkWorld (files w) (fs_log w ++ [EvOpenA p]) (net_log w)).
Proof. intros H. unfold bind, open_a. rewrite H. reflexivity. Qed.

Lemma run_write_bytes_file {B} (p : string) (d bs : list Z) (k : unit → M B) (w : world) :
  files w !! p = Some (File d) →
  bind (write_bytes p bs) k w
  = k tt (mkWorld (<[p := File (d ++ bs)]> (files w))
                  (fs_log w ++ [EvWrite p (length bs)]) (net_log w)).
Proof. intros H. unfold bind, write_bytes. rewrite H. reflexivity. Qed.

Lemma run_try_unlink_file {B} (p : string) (d : list Z) (k : unit → M B) (w : world) :
  files w !! p = Some (File d) →
  bind (try_unlink p) k w
  = k tt (mkWorld (delete p (files w)) (fs_log w ++ [EvUnlink p]) (net_log w)).
Proof. intros H. unfold bind, try_unlink, try_except, unlink. rewrite H. reflexivity. Qed.

Lemma run_try_unlink_missing {B} (p : string) (k : unit → M B) (w : world) :
  files w !! p = None → bind (try_unlink p) k w = k tt w.
Proof. intros H. unfold bind, try_unlink, try_except, unlink. rewrite H. reflexivity. Qed.

Lemma run_ret {A B} (a : A) (k : A → M B) (w : world) : bind (ret a) k w = k a w.
Proof. reflexivity. Qed.

(** ** Trailing-record repair *)

Lemma rfind_cases (buffer : list Z) (c : Z) :
  (rfind buffer c = -1 ∧ c ∉ buffer)
  ∨ (∃ pre post, buffer = pre ++ c :: post ∧ (c ∉ post)
                 ∧ rfind buffer c = Z.of_nat (length pre)).
Proof.
  induction buffer as [|x rest IH]; simpl.
  - left. split; [reflexivity|]. apply not_elem_of_nil.
  - destruct IH as [[Hr Hnot]|(pre & post & -> & Hpost & Hr)]; rewrite Hr.
    + simpl. destruct (Z.eqb_spec x c) as [->|Hne].
      * right. exists [], rest. simpl. auto.
      * left. split; [reflexivity|]. rewrite not_elem_of_cons. auto.
    + right. exists (x :: pre), post. split; [reflexivity|]. split; [assumption|].
      destruct (Z.leb_spec 0 (Z.of_nat (length pre))); [|lia].
      simpl length. lia.
Qed.

Lemma read_range_rejoin (data : list Z) (a b : Z) :
  0 <= a <= b → b <= Z.of_nat (length data) →
  read_range data a b ++ drop (Z.to_nat b) data = drop (Z.to_nat a) data.
Proof.
  intros Ha Hb. unfold read_range.
  replace (Z.to_nat b) with (Z.to_nat a + Z.to_nat (b - a))%nat by lia.
  rewrite <- drop_drop. apply take_drop.
Qed.

Lemma scan_back_finds block fuel : 0 < block →
  ∀ (data : list Z) (pos : Z) (buffer : list Z),
    0 <= pos <= Z.of_nat (length data) →
    buffer = drop (Z.to_nat pos) data →
    NL ∉ buffer →
    pos <= Z.of_nat fuel →
    ∃ r, scan_back block fuel data pos buffer = Some r ∧ last_newline_split data r.
Proof.
  intros Hblock. induction fuel as [|fuel IH]; intros data pos buffer Hpos Hbuf Hnot Hfuel.
  - assert (pos = 0) as -> by lia. simpl. exists (-1). split; [reflexivity|].
    left. split; [reflexivity|]. subst buffer. simpl in Hnot. exact Hnot.
  - cbn [scan_back]. destruct (Z.gtb_spec pos 0) as [Hgt|Hle].
    + set (readpos := Z.max 0 (pos - block)).
      assert (0 <= readpos < pos) as Hrp by (unfold readpos; lia).
      assert (read_range data readpos pos ++ buffer = drop (Z.to_nat readpos) data) as Hjoin.
      { subst buffer. apply read_range_rejoin; lia. }
      rewrite Hjoin.
      destruct (rfind_cases (drop (Z.to_nat readpos) data) NL)
        as [[Hr Hnone]|(pre & post & Hsplit & Hpost & Hr)]; rewrite Hr.
      * simpl. apply IH; [lia|reflexivity|assumption|lia].
      * destruct (Z.eqb_spec (Z.of_nat (length pre)) (-1)); [lia|]. simpl.
        eexists. split; [reflexivity|]. right.
        exists (take (Z.to_nat readpos) data ++ pre), post.
        split; [|split; [assumption|]].
        -- rewrite <- (take_drop (Z.to_nat readpos) data) at 1.
           rewrite Hsplit. rewrite <- app_assoc. reflexivity.
        -- rewrite length_app, length_take. lia.
    + assert (pos = 0) as -> by lia. exists (-1). split; [reflexivity|].
      left. split; [reflexivity|]. subst buffer. exact Hnot.
Qed.

Lemma read_last_byte (data : list Z) :
  data ≠ [] →
  read_range data (Z.of_nat (length data) - 1) (Z.of_nat (length data)) = [NL]
  ↔ last data = Some NL.
Proof.
  intros Hne. destruct (exists_last Hne) as (init & x & ->).
  rewrite last_snoc. unfold read_range.
  rewrite length_app. simpl length.
  replace (Z.to_nat (Z.of_nat (length init + 1) - (Z.of_nat (length init + 1) - 1))) with 1%nat by lia.
  replace (Z.to_nat (Z.of_nat (length init + 1) - 1)) with (length init) by lia.
  rewrite drop_app_length. simpl. split; intros H; congruence.
Qed.


(** The body of the repair on a non-empty regular file. *)
Lemma truncate_body_file (block : Z) (path : string) (w : world) (data : list Z) :
  files w !! path = Some (File data) → data ≠ [] →
  truncate_body block path w
  = (if bool_decide (read_range data (Z.of_nat (length data) - 1) (Z.of_nat (length data)) = [NL])
     then ret tt
     else match scan_back block (length data) data (Z.of_nat (length data)) [] with
          | None => diverge
          | Some last_nl => if last_nl =? -1 then truncate path 0 else truncate path (last_nl + 1)
          end) w.
Proof.
  intros Hfile Hne. unfold truncate_body. rewrite run_path_exists.
  rewrite bool_decide_eq_true_2 by eauto. cbn [negb].
  rewrite (run_stat_size_file _ _ _ _ Hfile).
  destruct (Z.eqb_spec (Z.of_nat (length data)) 0) as [H0|H0].
  - destruct data; [congruence|simpl in H0; lia].
  - rewrite (run_read_bytes_file _ _ _ _ Hfile). reflexivity.
Qed.

Lemma truncate_body_empty (block : Z) (path : string) (w : world) :
  files w !! path = Some (File []) → truncate_body block path w = (Val tt, w).
Proof.
  intros Hfile. unfold truncate_body. rewrite run_path_exists.
  rewrite bool_decide_eq_true_2 by eauto. cbn [negb].
  rewrite (run_stat_size_file _ _ _ _ Hfile). reflexivity.
Qed.

Lemma truncate_with_repairs (block : Z) (path : string) (w : world) (data : list Z) :
  0 < block →
  files w !! path = Some (File data) →
  (data = [] ∨ last data = Some NL →
     truncate_trailing_partial_row_with block path w = (Val tt, w))
  ∧ (data ≠ [] → last data ≠ Some NL →
     ∃ kept,
       truncate_trailing_partial_row_with block path w
       = (Val tt, mkWorld (<[path := File kept]> (files w))
                          (fs_log w ++ [EvTruncate path (Z.of_nat (length kept))])
                          (net_log w))
       ∧ (((NL ∉ data) ∧ kept = [])
          ∨ (∃ pre post, data = pre ++ NL :: post ∧ (NL ∉ post) ∧ kept = pre ++ [NL]))).
Proof.
  intros Hblock Hfile. unfold truncate_trailing_partial_row_with. split.
  - intros [->|Hlast].
    + apply try_except_val, truncate_body_empty, Hfile.
    + assert (data ≠ []) as Hne by (intros ->; discriminate).
      apply try_except_val. rewrite (truncate_body_file _ _ _ _ Hfile Hne).
      rewrite bool_decide_eq_true_2 by (apply read_last_byte; assumption).
      reflexivity.
  - intros Hne Hlast.
    destruct (scan_back_finds block (length data) Hblock data (Z.of_nat (length data)) [])
      as (r & Hscan & Hr).
    { lia. } { rewrite Nat2Z.id, drop_all. reflexivity. } { apply not_elem_of_nil. } { lia. }
    assert (Hbody : truncate_body block path w
                    = (if r =? -1 then truncate path 0 else truncate path (r + 1)) w).
    { rewrite (truncate_body_file _ _ _ _ Hfile Hne).
      rewrite bool_decide_eq_false_2 by (rewrite read_last_byte; assumption).
      rewrite Hscan. reflexivity. }
    destruct Hr as [[-> Hnone]|(pre & post & Hsplit & Hpost & ->)].
    + exists []. split; [|left; auto].
      apply try_except_val. rewrite Hbody. simpl. rewrite (truncate_file _ _ _ _ Hfile). reflexivity.
    + exists (pre ++ [NL]). split; [|right; exists pre, post; auto].
      apply try_except_val. rewrite Hbody.
      destruct (Z.eqb_spec (Z.of_nat (length pre)) (-1)); [lia|].
      rewrite (truncate_file _ _ _ _ Hfile).
      replace (Z.to_nat (Z.of_nat (length pre) + 1)) with (length (pre ++ [NL]))
        by (rewrite length_app; simpl; lia).
      replace (Z.of_nat (length pre) + 1) with (Z.of_nat (length (pre ++ [NL])))
        by (rewrite length_app; simpl; lia).
      rewrite Hsplit at 1.
      replace (pre ++ NL :: post) with ((pre ++ [NL]) ++ post)
        by (rewrite <- app_assoc; reflexivity).
      rewrite take_app_length. reflexivity.
Qed.

(** C3: on a regular file, trailing-record repair leaves an empty file or a
    file ending in a newline byte unchanged; otherwise it truncates the file
    to end right after its last newline byte, keeping every byte up to and
    including it, or to length zero when the file holds no newline byte. *)
Theorem truncate_trailing_partial_row_repairs (path : string) (w : world) (data : list Z) :
  files w !! path = Some (File data) →
  (data = [] ∨ last data = Some NL →
     truncate_trailing_partial_row path w = (Val tt, w))
  ∧ (data ≠ [] → last data ≠ Some NL →
     ∃ kept,
       truncate_trailing_partial_row path w
       = (Val tt, mkWorld (<[path := File kept]> (files w))
                          (fs_log w ++ [EvTruncate path (Z.of_nat (length kept))])
                          (net_log w))
       ∧ (((NL ∉ data) ∧ kept = [])
          ∨ (∃ pre post, data = pre ++ NL :: post ∧ (NL ∉ post) ∧ kept = pre ++ [NL]))).
Proof.
  intros Hfile. unfold truncate_trailing_partial_row.
  apply truncate_with_repairs; [reflexivity|assumption].
Qed.

Lemma truncate_trailing_partial_row_repairs_witness :
  let w := world_of {["page.csv" := File cut_short_file]} in
  files w !! "page.csv" = Some (File cut_short_file)
  ∧ (cut_short_file = [] ∨ last cut_short_file = Some NL →
       truncate_trailing_partial_row "page.csv" w = (Val tt, w))
  ∧ (cut_short_file ≠ [] → last cut_short_file ≠ Some NL →
     ∃ kept,
       truncate_trailing_partial_row "page.csv" w
       = (Val tt, mkWorld (<["page.csv" := File kept]> (files w))
                          (fs_log w ++ [EvTruncate "page.csv" (Z.of_nat (length kept))])
                          (net_log w))
       ∧ (((NL ∉ cut_short_file) ∧ kept = [])
          ∨ (∃ pre post, cut_short_file = pre ++ NL :: post ∧ (NL ∉ post)
                         ∧ kept = pre ++ [NL]))).
Proof.
  intros w. split; [reflexivity|].
  apply (truncate_trailing_partial_row_repairs "page.csv" w cut_short_file). reflexivity.
Defined.

(** The scenario of the specification: the file is cut back to end at its
    last newline; a file without any newline becomes empty. *)
Example repair_cut_short_file :
  files (snd (truncate_trailing_partial_row "page.csv"
                (world_of {["page.csv" := File cut_short_file]}))) !! "page.csv"
  = Some (File [120; COMMA; DQUOTE; 118; 97; 108; 117; 101; NL]).
Proof. vm_compute. reflexivity. Qed.

Example repair_no_newline :
  files (snd (truncate_trailing_partial_row "page.csv"
                (world_of {["page.csv" := File [49; COMMA; 50]]}))) !! "page.csv"
  = Some (File []).
Proof. vm_compute. reflexivity. Qed.

(** ** Requests with manual backoff *)

Lemma log_gets_nil (offset : Z) (w : world) : log_gets offset [] w = w.
Proof. destruct w. unfold log_gets. simpl. rewrite app_nil_r. reflexivity. Qed.

Lemma log_gets_cons (offset : Z) (a : nat) (rest : list nat) (w : world) :
  log_gets offset rest (log_gets offset [a] w) = log_gets offset (a :: rest) w.
Proof. unfold log_gets. simpl. rewrite <- app_assoc. reflexivity. Qed.

Lemma session_get_run (E : environment) (cid : string) (offset : Z) (a : nat) (w : world) :
  session_get E cid offset a w
  = (match server E cid offset a with GetExc e => Exc e | GetResp r => Val r end,
     log_gets offset [a] w).
Proof. unfold session_get, log_gets. simpl. destruct (server E cid offset a); reflexivity. Qed.

(** One retried attempt moves the loop on, remembering a transport exception. *)
Lemma backoff_loop_retry (E : environment) (cid : string) (offset : Z)
    (a : nat) (rest : list nat) (last_exc : option exn) (w : world) :
  retried (server E cid offset a) = true →
  backoff_loop E cid offset (a :: rest) last_exc w
  = backoff_loop E cid offset rest
      (match server E cid offset a with GetExc e => Some e | GetResp _ => last_exc end)
      (log_gets offset [a] w).
Proof.
  intros Hr. cbn [backoff_loop]. unfold bind, catching. rewrite session_get_run.
  destruct (server E cid offset a) as [e|r]; simpl in Hr |- *; rewrite Hr; reflexivity.
Qed.

(** A response that is not throttled ends the loop. *)
Lemma backoff_loop_response (E : environment) (cid : string) (offset : Z)
    (a : nat) (rest : list nat) (last_exc : option exn) (w : world) (r : response) :
  server E cid offset a = GetResp r →
  retried (GetResp r) = false →
  backoff_loop E cid offset (a :: rest) last_exc w = (Val r, log_gets offset [a] w).
Proof.
  intros Hs Hr. cbn [backoff_loop]. unfold bind, catching. rewrite session_get_run, Hs.
  simpl in Hr |- *. rewrite Hr. reflexivity.
Qed.

Lemma backoff_loop_exhausted (E : environment) (cid : string) (offset : Z)
    (attempts : list nat) :
  Forall (fun a => retried (server E cid offset a) = true) attempts →
  ∀ (last_exc : option exn) (w : world),
    backoff_loop E cid offset attempts last_exc w
    = (Exc (default exhausted_error
              (fold_left (fun acc g => match g with GetExc e => Some e | GetResp _ => acc end)
                         (map (server E cid offset) attempts) last_exc)),
       log_gets offset attempts w).
Proof.
  induction 1 as [|a rest Ha _ IH]; intros last_exc w.
  - simpl. rewrite log_gets_nil. destruct last_exc; reflexivity.
  - rewrite (backoff_loop_retry _ _ _ _ _ _ _ Ha). rewrite IH, log_gets_cons.
    simpl. reflexivity.
Qed.

(** C6 (as stated, refuted): when all five attempts are answered with HTTP
    429, the error raised is the fixed [RuntimeError]; it is not an observed
    exception and its text does not show the status 429 that was observed
    last. *)
Lemma exhausted_error_carries_no_status :
  ¬ (∃ e, fst (request_with_manual_backoff (env_of (throttled_server 429)) "ACME" 0 empty_world)
          = Exc e
          ∧ carries_observed e (throttled_server 429 "ACME" 0 MANUAL_ATTEMPTS)).
Proof.
  intros (e & He & Hc). vm_compute in He. injection He as <-.
  vm_compute in Hc. destruct Hc as [x Hx]. discriminate Hx.
Qed.

(** The same error is raised whichever throttle status was observed. *)
Example exhausted_error_same_for_403_and_429 :
  fst (request_with_manual_backoff (env_of (throttled_server 429)) "ACME" 0 empty_world)
  = fst (request_with_manual_backoff (env_of (throttled_server 403)) "ACME" 0 empty_world).
Proof. vm_compute. reflexivity. Qed.

(** C6 (amended): when every attempt is retried (a transport exception or an
    HTTP 403/429 response each time), the request raises and never returns a
    response: it raises the most recent transport exception if some attempt
    raised one, and otherwise a [RuntimeError] with a fixed text; all
    [MANUAL_ATTEMPTS] requests were issued and no file was touched. *)
Theorem request_exhausted_raises (E : environment) (cid : string) (offset : Z) (w : world) :
  (∀ a : nat, (1 <= a <= MANUAL_ATTEMPTS)%nat → retried (server E cid offset a) = true) →
  request_with_manual_backoff E cid offset w
  = (Exc (default exhausted_error
            (last_exception (map (server E cid offset) (seq 1 MANUAL_ATTEMPTS)))),
     log_gets offset (seq 1 MANUAL_ATTEMPTS) w).
Proof.
  intros Hall. unfold request_with_manual_backoff, last_exception.
  apply backoff_loop_exhausted. apply Forall_forall. intros a Ha.
  apply Hall. apply list_elem_of_In, in_seq in Ha. lia.
Qed.

Lemma request_exhausted_raises_witness :
  (∀ a : nat, (1 <= a <= MANUAL_ATTEMPTS)%nat →
     retried (server (env_of (throttled_server 429)) "ACME" 0 a) = true)
  ∧ request_with_manual_backoff (env_of (throttled_server 429)) "ACME" 0 empty_world
    = (Exc (default exhausted_error
              (last_exception (map (server (env_of (throttled_server 429)) "ACME" 0)
                                   (seq 1 MANUAL_ATTEMPTS)))),
       log_gets 0 (seq 1 MANUAL_ATTEMPTS) empty_world).
Proof.
  assert (H : ∀ a : nat, (1 <= a <= MANUAL_ATTEMPTS)%nat →
            retried (server (env_of (throttled_server 429)) "ACME" 0 a) = true)
    by (intros a _; reflexivity).
  split; [exact H|].
  exact (request_exhausted_raises (env_of (throttled_server 429)) "ACME" 0 empty_world H).
Defined.

(** ** Validator *)

Lemma parse_chars_app (r : csv_reader) (a b : list Z) :
  parse_chars r (a ++ b)
  = match parse_chars r a with
    | inl e => inl e
    | inr r' => parse_chars r' b
    end.
Proof.
  revert r. induction a as [|c a IH]; intros r; simpl; [reflexivity|].
  destruct (parse_process_char r (Some c)); [reflexivity|apply IH].
Qed.





Example quoted_commas_one_column :
  csv_next [[DQUOTE; 97; COMMA; 98; COMMA; 99; DQUOTE; COMMA; 100]]
  = inr [[97; COMMA; 98; COMMA; 99]; [100]].
Proof. reflexivity. Qed.

(** The validator on a regular file: what it returns for each way the
    header search and the header parse can end. *)
Lemma validate_header_file (E : environment) (path : string) (n : Z) (w : world)
    (data : list Z) :
  files w !! path = Some (File data) →
  validate_header_min_cols E path n w
  = (Val (match find_header E [Utf8Sig; Utf8; Cp1252]
                  (take (Z.to_nat MAX_VALIDATION_BYTES) data) with
          | None => (false, "empty_or_binary_file"%string)
          | Some header_line =>
              match csv_next [header_line] with
              | inl e => (false, "validation_error:" +:+ exn_msg e)
              | inr cols =>
                  if Z.of_nat (length cols) <? n
                  then (false, too_few_columns (Z.of_nat (length cols)) n)
                  else (true, ""%string)
              end
          end), w).
Proof.
  intros Hfile. unfold validate_header_min_cols, validate_body, try_except.
  rewrite (run_read_bytes_file _ _ _ _ Hfile).
  destruct (find_header _ _ _) as [h|]; [|reflexivity].
  unfold bind, lift_sum. destruct (csv_next [h]) as [e|cols]; [reflexivity|].
  unfold ret. destruct (Z.of_nat (length cols) <? n); reflexivity.
Qed.



Example validator_boundary_below :
  fst (validate_header_min_cols (env_of acme_server) "t.csv" EXPECTED_MIN_COLS
         (world_of {["t.csv" := File (table_file 79)]}))
  = Val (false, "too_few_columns(79<80)"%string).
Proof. vm_compute. reflexivity. Qed.

Example validator_empty_file :
  fst (validate_header_min_cols (env_of acme_server) "t.csv" EXPECTED_MIN_COLS
         (world_of {["t.csv" := File [NL; 32; NL]]}))
  = Val (false, "empty_or_binary_file"%string).
Proof. vm_compute. reflexivity. Qed.

(** ** Repair and validation never raise *)

Lemma truncate_trailing_partial_row_returns (path : string) (w : world) :
  ∃ w', truncate_trailing_partial_row path w = (Val tt, w').
Proof.
  unfold truncate_trailing_partial_row.
  destruct (files w !! path) as [[data|sz]|] eqn:Hfile.
  - destruct (truncate_with_repairs TRUNCATE_BLOCK path w data eq_refl Hfile) as [Hkeep Hcut].
    destruct (decide (data = [])) as [->|Hne]; [eexists; apply Hkeep; auto|].
    destruct (decide (last data = Some NL)) as [Hl|Hl]; [eexists; apply Hkeep; auto|].
    destruct (Hcut Hne Hl) as (kept & -> & _). eexists. reflexivity.
  - exists w. unfold truncate_trailing_partial_row_with, try_except, truncate_body.
    rewrite run_path_exists, Hfile.
    rewrite bool_decide_eq_true_2 by eauto. cbn [negb].
    unfold bind at 1. unfold stat_size at 1. rewrite Hfile.
    destruct (sz =? 0); [reflexivity|].
    unfold bind, read_bytes. rewrite Hfile. reflexivity.
  - exists w. unfold truncate_trailing_partial_row_with, try_except, truncate_body.
    rewrite run_path_exists, Hfile.
    rewrite bool_decide_eq_false_2 by (intros [x Hx]; discriminate). reflexivity.
Qed.

Lemma validate_header_min_cols_returns (E : environment) (path : string) (n : Z) (w : world) :
  ∃ ok reason, validate_header_min_cols E path n w = (Val (ok, reason), w).
Proof.
  destruct (files w !! path) as [[data|sz]|] eqn:Hfile.
  - rewrite (validate_header_file _ _ _ _ _ Hfile).
    match goal with |- ∃ ok reason, (Val ?r, _) = _ => exists (fst r), (snd r) end.
    rewrite <- surjective_pairing. reflexivity.
  - unfold validate_header_min_cols, validate_body, try_except, bind, read_bytes.
    rewrite Hfile. eexists _, _. reflexivity.
  - unfold validate_header_min_cols, validate_body, try_except, bind, read_bytes.
    rewrite Hfile. eexists _, _. reflexivity.
Qed.

(** C10: for every path and every state of the disk (a regular file, a
    missing file, a node that cannot be opened), trailing-record repair
    returns normally, an error raised inside it being swallowed with the file
    left as it was; and validation returns a pair, an error raised inside it
    becoming [(False, "validation_error:...")]. *)
Theorem repair_and_validation_never_raise (E : environment) (path : string)
    (n : Z) (w : world) :
  (∃ w', truncate_trailing_partial_row path w = (Val tt, w'))
  ∧ (∀ e w', truncate_body TRUNCATE_BLOCK path w = (Exc e, w') →
             truncate_trailing_partial_row path w = (Val tt, w') ∧ files w' = files w)
  ∧ (∃ ok reason, validate_header_min_cols E path n w = (Val (ok, reason), w))
  ∧ (∀ e w', validate_body E path n w = (Exc e, w') →
             validate_header_min_cols E path n w
             = (Val (false, "validation_error:" +:+ exn_msg e), w')).
Proof.
  split; [apply truncate_trailing_partial_row_returns|].
  split; [|split; [apply validate_header_min_cols_returns|]].
  - intros e w' Hbody. split.
    + unfold truncate_trailing_partial_row, truncate_trailing_partial_row_with.
      rewrite (try_except_exc _ _ _ _ _ Hbody). reflexivity.
    + revert Hbody. unfold truncate_body. rewrite run_path_exists.
      destruct (files w !! path) as [[data|sz]|] eqn:Hfile.
      * rewrite bool_decide_eq_true_2 by eauto. cbn [negb].
        rewrite (run_stat_size_file _ _ _ _ Hfile).
        destruct (Z.of_nat (length data) =? 0); [discriminate|].
        rewrite (run_read_bytes_file _ _ _ _ Hfile).
        destruct (bool_decide _); [discriminate|].
        destruct (scan_back _ _ _ _ _) as [r|]; [|discriminate].
        destruct (r =? -1); rewrite (truncate_file _ _ _ _ Hfile); discriminate.
      * rewrite bool_decide_eq_true_2 by eauto. cbn [negb].
        unfold bind at 1. unfold stat_size at 1. rewrite Hfile.
        destruct (sz =? 0); [discriminate|].
        unfold bind, read_bytes. rewrite Hfile. intros [= _ <-]. reflexivity.
      * rewrite bool_decide_eq_false_2 by (intros [x Hx]; discriminate). discriminate.
  - intros e w' Hbody. unfold validate_header_min_cols.
    rewrite (try_except_exc _ _ _ _ _ Hbody). reflexivity.
Qed.

Example repair_missing_file :
  truncate_trailing_partial_row "gone.csv" empty_world = (Val tt, empty_world).
Proof. reflexivity. Qed.

Example repair_unopenable_node :
  truncate_trailing_partial_row "d" (world_of {["d" := Dir 4096]})
  = (Val tt, world_of {["d" := Dir 4096]}).
Proof. vm_compute. reflexivity. Qed.

Example validate_missing_file :
  validate_header_min_cols (env_of acme_server) "gone.csv" EXPECTED_MIN_COLS empty_world
  = (Val (false, "validation_error:No such file or directory: gone.csv"%string), empty_world).
Proof. reflexivity. Qed.

(** A field that has reached the reader's limit makes the header parse
    raise; the validator reports it instead of raising. *)
Lemma parse_add_char_limit (r : csv_reader) (c : Z) :
  FIELD_LIMIT <= Z.of_nat (length (rd_field r)) →
  ∃ msg, parse_add_char r c = inl (mkExn CsvError msg).
Proof.
  intros Hlen. unfold parse_add_char.
  destruct (Z.geb_spec (Z.of_nat (length (rd_field r))) FIELD_LIMIT); [|lia].
  eexists. reflexivity.
Qed.

(** ** Computations confined to one path *)

Lemma confined_ret {A} (p : string) (a : A) : confined p (ret a).
Proof.
  intros w. simpl. repeat split; auto.
  exists []. rewrite app_nil_r. auto.
Qed.

Lemma confined_raise {A} (p : string) (e : exn) : confined p (raise (A:=A) e).
Proof.
  intros w. simpl. repeat split; auto.
  exists []. rewrite app_nil_r. auto.
Qed.

Lemma confined_diverge {A} (p : string) : confined p (diverge (A:=A)).
Proof.
  intros w. simpl. repeat split; auto.
  exists []. rewrite app_nil_r. auto.
Qed.

Lemma confined_bind {A B} (p : string) (m : M A) (k : A → M B) :
  confined p m → (∀ a, confined p (k a)) → confined p (bind m k).
Proof.
  intros Hm Hk w. destruct (Hm w) as (Hf & (evs & Hlog & Hevs) & Hnet & Hloc).
  unfold bind. destruct (m w) as [r w1] eqn:Hmw. simpl in *.
  assert (Hloc' : ∀ w2, files w2 !! p = files w !! p →
            ∃ w3, m w2 = (r, w3) ∧ files w3 !! p = files w1 !! p).
  { intros w2 H2. destruct (Hloc w2 H2) as [Hr Hc].
    destruct (m w2) as [r2 w3]. simpl in *. subst r2. eauto. }
  destruct r as [a|e|].
  - destruct (Hk a w1) as (Hf2 & (evs2 & Hlog2 & Hevs2) & Hnet2 & Hloc2).
    split; [|split; [|split]].
    + intros q Hq. rewrite Hf2, Hf by assumption. reflexivity.
    + exists (evs ++ evs2). rewrite Hlog2, Hlog, app_assoc. split; [reflexivity|].
      apply Forall_app; auto.
    + congruence.
    + intros w2 H2. destruct (Hloc' w2 H2) as (w3 & -> & Hc). apply Hloc2, Hc.
  - simpl. split; [|split; [|split]]; eauto.
    intros w2 H2. destruct (Hloc' w2 H2) as (w3 & -> & Hc). simpl. auto.
  - simpl. split; [|split; [|split]]; eauto.
    intros w2 H2. destruct (Hloc' w2 H2) as (w3 & -> & Hc). simpl. auto.
Qed.

Lemma confined_try_except {A} (p : string) (m : M A) (h : exn → M A) :
  confined p m → (∀ e, confined p (h e)) → confined p (try_except m h).
Proof.
  intros Hm Hh w. destruct (Hm w) as (Hf & (evs & Hlog & Hevs) & Hnet & Hloc).
  unfold try_except. destruct (m w) as [r w1] eqn:Hmw. simpl in *.
  assert (Hloc' : ∀ w2, files w2 !! p = files w !! p →
            ∃ w3, m w2 = (r, w3) ∧ files w3 !! p = files w1 !! p).
  { intros w2 H2. destruct (Hloc w2 H2) as [Hr Hc].
    destruct (m w2) as [r2 w3]. simpl in *. subst r2. eauto. }
  destruct r as [a|e|].
  - simpl. split; [|split; [|split]]; eauto.
    intros w2 H2. destruct (Hloc' w2 H2) as (w3 & -> & Hc). simpl. auto.
  - destruct (Hh e w1) as (Hf2 & (evs2 & Hlog2 & Hevs2) & Hnet2 & Hloc2).
    split; [|split; [|split]].
    + intros q Hq. rewrite Hf2, Hf by assumption. reflexivity.
    + exists (evs ++ evs2). rewrite Hlog2, Hlog, app_assoc. split; [reflexivity|].
      apply Forall_app; auto.
    + congruence.
    + intros w2 H2. destruct (Hloc' w2 H2) as (w3 & -> & Hc). apply Hloc2, Hc.
  - simpl. split; [|split; [|split]]; eauto.
    intros w2 H2. destruct (Hloc' w2 H2) as (w3 & -> & Hc). simpl. auto.
Qed.

Lemma confined_catching {A} (p : string) (pred : exn → bool) (m : M A) :
  confined p m → confined p (catching pred m).
Proof.
  intros Hm w. destruct (Hm w) as (Hf & (evs & Hlog & Hevs) & Hnet & Hloc).
  unfold catching. destruct (m w) as [r w1] eqn:Hmw. simpl in *.
  assert (Hloc' : ∀ w2, files w2 !! p = files w !! p →
            ∃ w3, m w2 = (r, w3) ∧ files w3 !! p = files w1 !! p).
  { intros w2 H2. destruct (Hloc w2 H2) as [Hr Hc].
    destruct (m w2) as [r2 w3]. simpl in *. subst r2. eauto. }
  assert (Hsnd : snd (match r with
                      | Val a => (Val (inr a), w1)
                      | Exc e => if pred e then (Val (inl e), w1) else (Exc e, w1)
                      | Diverge => (Diverge, w1)
                      end : res (exn + A) * world) = w1).
  { destruct r as [a|e|]; [|destruct (pred e)|]; reflexivity. }
  rewrite Hsnd. split; [|split; [|split]]; eauto.
  intros w2 H2. destruct (Hloc' w2 H2) as (w3 & -> & Hc).
  destruct r as [a|e|]; [|destruct (pred e)|]; simpl; auto.
Qed.

(** Every file primitive is confined to the path it is given. *)
Ltac confined_prim_frame Hc :=
  intros q Hq; rewrite ?Hc; simpl;
  rewrite ?lookup_insert_ne, ?lookup_delete_ne by congruence; reflexivity.

Ltac confined_prim_log Hc :=
  rewrite ?Hc; simpl;
  first [ exists (@nil fs_event); rewrite app_nil_r; split; [reflexivity|constructor]
        | eexists (cons _ nil); split; [reflexivity|];
          repeat constructor; simpl; intros q Hq;
          apply list_elem_of_singleton in Hq; congruence ].

Ltac confined_prim_local Hc :=
  let w2 := fresh "w2" in
  let H2 := fresh "H2" in
  intros w2 H2; rewrite ?Hc in H2; rewrite ?H2, ?Hc; simpl;
  rewrite ?lookup_insert_eq, ?lookup_delete_eq, ?H2, ?Hc; auto.

Ltac confined_prim p :=
  let w := fresh "w" in
  let Hc := fresh "Hc" in
  intros w; destruct (files w !! p) as [[? | ?]|] eqn:Hc; simpl;
  (split; [confined_prim_frame Hc
          |split; [confined_prim_log Hc
                  |split; [rewrite ?Hc; reflexivity|confined_prim_local Hc]]]).

Lemma confined_path_exists (p : string) : confined p (path_exists p).
Proof. unfold path_exists. confined_prim p. Qed.

Lemma confined_stat_size (p : string) : confined p (stat_size p).
Proof. unfold stat_size. confined_prim p. Qed.

Lemma confined_read_bytes (p : string) : confined p (read_bytes p).
Proof. unfold read_bytes. confined_prim p. Qed.

Lemma confined_unlink (p : string) : confined p (unlink p).
Proof. unfold unlink, set_files. confined_prim p. Qed.

Lemma confined_open_w (p : string) : confined p (open_w p).
Proof. unfold open_w, set_files. confined_prim p. Qed.

Lemma confined_open_a (p : string) : confined p (open_a p).
Proof. unfold open_a, set_files. confined_prim p. Qed.

Lemma confined_write_bytes (p : string) (bs : list Z) : confined p (write_bytes p bs).
Proof. unfold write_bytes, set_files. confined_prim p. Qed.

Lemma confined_truncate (p : string) (n : Z) : confined p (truncate p n).
Proof. unfold truncate, set_files. confined_prim p. Qed.

Ltac confined_step :=
  first
    [ apply confined_ret | apply confined_raise | apply confined_diverge
    | apply confined_path_exists | apply confined_stat_size | apply confined_read_bytes
    | apply confined_unlink | apply confined_open_w | apply confined_open_a
    | apply confined_write_bytes | apply confined_truncate
    | apply confined_bind; [|intros ?]
    | apply confined_try_except; [|intros ?]
    | apply confined_catching
    | match goal with
      | |- confined _ (if ?b then _ else _) => destruct b
      | |- confined _ (match ?x with Some _ => _ | None => _ end) => destruct x
      | |- confined _ (match ?x with [] => _ | _ :: _ => _ end) => destruct x
      end ].

Ltac confined_tac := repeat confined_step.

Lemma confined_truncate_trailing (block : Z) (p : string) :
  confined p (truncate_trailing_partial_row_with block p).
Proof. unfold truncate_trailing_partial_row_with, truncate_body. confined_tac. Qed.

Lemma confined_try_unlink (p : string) : confined p (try_unlink p).
Proof. unfold try_unlink. confined_tac. Qed.

Lemma confined_write_lines (p : string) (append sig write_first : bool) (resp : response) :
  confined p (write_lines p append sig write_first resp).
Proof. unfold write_lines. confined_tac. Qed.

Lemma confined_truncate_trailing_row (p : string) :
  confined p (truncate_trailing_partial_row p).
Proof. apply confined_truncate_trailing. Qed.

Ltac confined_auto :=
  repeat first
    [ apply confined_write_lines | apply confined_truncate_trailing_row
    | apply confined_try_unlink | confined_step | progress cbv zeta ].

(** *** Totality *)

Lemma total_ret {A} (a : A) : total (ret a).
Proof. intros w. discriminate. Qed.

Lemma total_raise {A} (e : exn) : total (raise (A:=A) e).
Proof. intros w. discriminate. Qed.

Lemma total_bind {A B} (m : M A) (k : A → M B) :
  total m → (∀ a, total (k a)) → total (bind m k).
Proof.
  intros Hm Hk w. unfold bind. specialize (Hm w).
  destruct (m w) as [[a|e|] w1]; simpl in *; [apply Hk|discriminate|congruence].
Qed.

Lemma total_try_except {A} (m : M A) (h : exn → M A) :
  total m → (∀ e, total (h e)) → total (try_except m h).
Proof.
  intros Hm Hh w. unfold try_except. specialize (Hm w).
  destruct (m w) as [[a|e|] w1]; simpl in *; [discriminate|apply Hh|congruence].
Qed.

Lemma total_catching {A} (pred : exn → bool) (m : M A) :
  total m → total (catching pred m).
Proof.
  intros Hm w. unfold catching. specialize (Hm w).
  destruct (m w) as [[a|e|] w1]; simpl in *;
    [discriminate|destruct (pred e); discriminate|congruence].
Qed.

Ltac total_prim p :=
  let w := fresh "w" in
  intros w; unfold set_files; destruct (files w !! p) as [[? | ?]|]; discriminate.

Lemma total_path_exists (p : string) : total (path_exists p).
Proof. intros w. discriminate. Qed.

Lemma total_stat_size (p : string) : total (stat_size p).
Proof. unfold stat_size. total_prim p. Qed.

Lemma total_read_bytes (p : string) : total (read_bytes p).
Proof. unfold read_bytes. total_prim p. Qed.

Lemma total_unlink (p : string) : total (unlink p).
Proof. unfold unlink. total_prim p. Qed.

Lemma total_open_w (p : string) : total (open_w p).
Proof. unfold open_w. total_prim p. Qed.

Lemma total_open_a (p : string) : total (open_a p).
Proof. unfold open_a. total_prim p. Qed.

Lemma total_write_bytes (p : string) (bs : list Z) : total (write_bytes p bs).
Proof. unfold write_bytes. total_prim p. Qed.

Lemma total_replace (src dst : string) : total (replace src dst).
Proof.
  intros w. unfold replace, set_files.
  destruct (files w !! src) as [[?|?]|]; destruct (files w !! dst) as [[?|?]|]; discriminate.
Qed.

Lemma total_truncate_trailing (p : string) : total (truncate_trailing_partial_row p).
Proof.
  intros w. destruct (truncate_trailing_partial_row_returns p w) as [w' ->]. discriminate.
Qed.

Lemma total_validate (E : environment) (p : string) (n : Z) :
  total (validate_header_min_cols E p n).
Proof.
  intros w. destruct (validate_header_min_cols_returns E p n w) as (ok & reason & ->).
  discriminate.
Qed.

Ltac total_step :=
  first
    [ apply total_ret | apply total_raise
    | apply total_path_exists | apply total_stat_size | apply total_read_bytes
    | apply total_unlink | apply total_open_w | apply total_open_a
    | apply total_write_bytes | apply total_replace
    | apply total_truncate_trailing | apply total_validate
    | apply total_bind; [|intros ?]
    | apply total_try_except; [|intros ?]
    | apply total_catching
    | match goal with
      | |- total (if ?b then _ else _) => destruct b
      | |- total (match ?x with Some _ => _ | None => _ end) => destruct x
      | |- total (match ?x with [] => _ | _ :: _ => _ end) => destruct x
      end ].

Ltac total_tac := repeat total_step.

Lemma total_try_unlink (p : string) : total (try_unlink p).
Proof. unfold try_unlink. total_tac. Qed.

Lemma total_write_lines (p : string) (append sig write_first : bool) (resp : response) :
  total (write_lines p append sig write_first resp).
Proof. unfold write_lines. total_tac. Qed.

Ltac total_auto :=
  repeat first
    [ apply total_write_lines | apply total_try_unlink | total_step | progress cbv zeta ].

(** ** Page fetcher *)

(** The request loop touches nothing but the network log, and its result
    does not depend on the state of the disk. *)
Lemma backoff_loop_uniform (E : environment) (cid : string) (offset : Z)
    (attempts : list nat) :
  ∀ last_exc : option exn,
    ∃ (r : res response) (used : list nat),
      r ≠ Diverge
      ∧ used `prefix_of` attempts
      ∧ (attempts ≠ [] → used ≠ [])
      ∧ ∀ w, backoff_loop E cid offset attempts last_exc w = (r, log_gets offset used w).
Proof.
  induction attempts as [|a rest IH]; intros last_exc.
  - exists (Exc (default exhausted_error last_exc)), []. split; [discriminate|].
    split; [reflexivity|]. split; [congruence|].
    intros w. rewrite log_gets_nil. simpl. destruct last_exc; reflexivity.
  - destruct (retried (server E cid offset a)) eqn:Hr.
    + destruct (IH (match server E cid offset a with
                    | GetExc e => Some e | GetResp _ => last_exc end))
        as (r & used & Hnd & Hpre & _ & Hrun).
      exists r, (a :: used). split; [assumption|].
      split; [apply prefix_cons, Hpre|]. split; [discriminate|]. intros w.
      rewrite (backoff_loop_retry _ _ _ _ _ _ _ Hr), Hrun, log_gets_cons. reflexivity.
    + destruct (server E cid offset a) as [e|resp] eqn:Hs.
      * exists (Exc e), [a]. split; [discriminate|].
        split; [apply prefix_cons, prefix_nil|]. split; [discriminate|]. intros w.
        cbn [backoff_loop]. unfold bind, catching. rewrite session_get_run, Hs.
        simpl in Hr. rewrite Hr. reflexivity.
      * exists (Val resp), [a]. split; [discriminate|].
        split; [apply prefix_cons, prefix_nil|]. split; [discriminate|]. intros w.
        apply backoff_loop_response; assumption.
Qed.

Lemma request_uniform (E : environment) (cid : string) (offset : Z) :
  ∃ (r : res response) (used : list nat),
    r ≠ Diverge
    ∧ attempts_ok used
    ∧ ∀ w, request_with_manual_backoff E cid offset w = (r, log_gets offset used w).
Proof.
  destruct (backoff_loop_uniform E cid offset (seq 1 MANUAL_ATTEMPTS) None)
    as (r & used & Hnd & Hpre & Hne & Hrun).
  exists r, used. split; [assumption|]. split; [|assumption].
  split; [apply Hne; discriminate|assumption].
Qed.

Lemma catching_any_val {A} (m : M A) (w w' : world) (a : A) :
  m w = (Val a, w') → catching any_exception m w = (Val (inr a), w').
Proof. intros H. unfold catching. rewrite H. reflexivity. Qed.

Lemma catching_any_exc {A} (m : M A) (w w' : world) (e : exn) :
  m w = (Exc e, w') → catching any_exception m w = (Val (inl e), w').
Proof. intros H. unfold catching. rewrite H. reflexivity. Qed.

(** *** The line loop *)

Lemma terminated_app (a b : list (list Z)) :
  terminated (a ++ b) = terminated a ++ terminated b.
Proof. unfold terminated. rewrite map_app, concat_app. reflexivity. Qed.

Lemma fold_line_step_seen (write_first : bool) (lines : list (list Z)) :
  ∀ st, first_seen st = true →
    fold_left (line_step write_first) lines st
    = mkLineState (out st ++ terminated (nonempty_lines lines)) true (header_written st)
                  (data_lines st + Z.of_nat (length (nonempty_lines lines))).
Proof.
  induction lines as [|l lines IH]; intros st Hseen.
  - simpl. unfold terminated. simpl. rewrite app_nil_r, Z.add_0_r.
    destruct st; simpl in *; subst; reflexivity.
  - destruct l as [|c l].
    + simpl. apply IH. assumption.
    + cbn [fold_left line_step]. rewrite Hseen. cbn [negb].
      rewrite IH by reflexivity. cbn [out header_written data_lines].
      unfold nonempty_lines. rewrite filter_cons_True by discriminate.
      change (terminated ((c :: l) :: filter (λ l0, l0 ≠ []) lines))
        with (((c :: l) ++ [NL]) ++ terminated (filter (λ l0, l0 ≠ []) lines)).
      rewrite <- !app_assoc. f_equal. simpl length. lia.
Qed.

(** Blank lines are skipped; the first line that is not blank is written
    only when [write_first]; every later one is written and counted. *)
Lemma stream_lines_spec (write_first : bool) (lines : list (list Z)) :
  stream_lines write_first lines
  = match nonempty_lines lines with
    | [] => mkLineState [] false false 0
    | h :: t =>
        mkLineState ((if write_first then h ++ [NL] else []) ++ terminated t)
                    true write_first (Z.of_nat (length t))
    end.
Proof.
  unfold stream_lines. induction lines as [|l lines IH]; [reflexivity|].
  destruct l as [|c l].
  - simpl. exact IH.
  - unfold nonempty_lines. rewrite filter_cons_True by discriminate.
    cbn [fold_left line_step first_seen negb].
    destruct write_first; rewrite fold_line_step_seen by reflexivity; simpl;
      rewrite ?app_nil_r; reflexivity.
Qed.

Lemma terminated_last (lines : list (list Z)) :
  lines = [] ∨ last (terminated lines) = Some NL.
Proof.
  induction lines as [|l lines IH] using rev_ind; [left; reflexivity|right].
  rewrite terminated_app. unfold terminated at 2. simpl. rewrite app_nil_r.
  rewrite !app_assoc. apply last_snoc.
Qed.

(** What the loop writes is empty or ends with a newline. *)
Lemma stream_lines_out_last (write_first : bool) (lines : list (list Z)) :
  out (stream_lines write_first lines) = []
  ∨ last (out (stream_lines write_first lines)) = Some NL.
Proof.
  rewrite stream_lines_spec. destruct (nonempty_lines lines) as [|h t]; [left; reflexivity|].
  cbn [out]. destruct (terminated_last t) as [->|Hl].
  - unfold terminated. simpl. rewrite app_nil_r.
    destruct write_first; [right; apply last_snoc|left; reflexivity].
  - right. rewrite last_app, Hl. reflexivity.
Qed.

(** *** Footprint of one page fetch *)

Lemma try_except_ret_returns {A} (m : M A) (f : exn → A) :
  total m → ∀ w, ∃ a, fst (try_except m (fun e => ret (f e)) w) = Val a.
Proof.
  intros Ht w. unfold try_except. specialize (Ht w).
  destruct (m w) as [[a|e|] w1]; simpl in *; [eauto|eauto|congruence].
Qed.

(** The part of [fetch_page_to_partfile] that follows the request. *)
Lemma fetch_after_request (E : environment) (cid : string) (offset : Z)
    (part_path : string) (is_first : bool) :
  ∃ (used : list nat) (k : M page_result),
    attempts_ok used ∧ confined part_path k ∧ total k
    ∧ (∀ w, ∃ a, fst (k w) = Val a)
    ∧ ∀ w, fetch_page_to_partfile E cid offset part_path is_first w
           = k (log_gets offset used w).
Proof.
  destruct (request_uniform E cid offset) as (r & used & Hnd & Hused & Hrun).
  exists used.
  assert (Hbody : ∀ resp : response,
    let body :=
      (ex <- path_exists part_path ;;
       (if ex then unlink part_path else ret tt) ;;;
       st <- write_lines part_path false is_first is_first resp ;;
       let header_lines := if header_written st then 1 else 0 in
       truncate_trailing_partial_row part_path ;;;
       if data_lines st =? 0 then
         try_unlink part_path ;;;
         ret (true, "empty_page_no_data_rows"%string, header_lines, data_lines st)
       else ret (true, "ok"%string, header_lines, data_lines st)) in
    confined part_path body ∧ total body).
  { intros resp body. split.
    - unfold body. confined_auto.
    - unfold body. total_auto. }
  destruct r as [resp|e|]; [| |congruence].
  - exists (if negb (status_code resp =? 200)
            then ret (false, http_error_msg (status_code resp) offset, 0, 0)
            else try_except
                   (ex <- path_exists part_path ;;
                    (if ex then unlink part_path else ret tt) ;;;
                    st <- write_lines part_path false is_first is_first resp ;;
                    let header_lines := if header_written st then 1 else 0 in
                    truncate_trailing_partial_row part_path ;;;
                    if data_lines st =? 0 then
                      try_unlink part_path ;;;
                      ret (true, "empty_page_no_data_rows"%string, header_lines, data_lines st)
                    else ret (true, "ok"%string, header_lines, data_lines st))
                   (fun e => ret (false, "write_error:" +:+ exn_msg e, 0, 0))).
    destruct (Hbody resp) as [Hc Ht].
    split; [exact Hused|]. split; [|split; [|split]].
    + destruct (negb _); [apply confined_ret|].
      apply confined_try_except; [exact Hc|intros; apply confined_ret].
    + destruct (negb _); [apply total_ret|].
      apply total_try_except; [exact Ht|intros; apply total_ret].
    + intros w. destruct (negb _); [eexists; reflexivity|].
      apply (try_except_ret_returns _ (fun e => (false, "write_error:" +:+ exn_msg e, 0, 0))).
      exact Ht.
    + intros w. unfold fetch_page_to_partfile.
      rewrite (bind_val _ _ _ _ _ (catching_any_val _ _ _ _ (Hrun w))). reflexivity.
  - exists (ret (false, "request_error:" +:+ exn_msg e, 0, 0)).
    split; [exact Hused|].
    split; [apply confined_ret|]. split; [apply total_ret|].
    split; [intros w; eexists; reflexivity|].
    intros w. unfold fetch_page_to_partfile.
    rewrite (bind_val _ _ _ _ _ (catching_any_exc _ _ _ _ (Hrun w))). reflexivity.
Qed.

(** One page fetch always returns a result; it changes no path but its own
    part file, logs file operations on that path only, adds to the network
    log the attempts made for its own offset, and its result and part file
    depend on nothing but what was at the part path before. *)
Lemma fetch_footprint (E : environment) (cid : string) (offset : Z)
    (part_path : string) (is_first : bool) :
  ∃ used : list nat,
    attempts_ok used ∧
    ∀ w,
      let run := fetch_page_to_partfile E cid offset part_path is_first in
      (∃ r, fst (run w) = Val r)
      ∧ (∀ q, q ≠ part_path → files (snd (run w)) !! q = files w !! q)
      ∧ (∃ evs, fs_log (snd (run w)) = fs_log w ++ evs
                ∧ Forall (fun ev => ∀ q, q ∈ event_paths ev → q = part_path) evs)
      ∧ net_log (snd (run w)) = net_log w ++ map (fun a : nat => (offset, a)) used
      ∧ (∀ w2, files w2 !! part_path = files w !! part_path →
               fst (run w2) = fst (run w)
               ∧ files (snd (run w2)) !! part_path = files (snd (run w)) !! part_path).
Proof.
  destruct (fetch_after_request E cid offset part_path is_first)
    as (used & k & Hused & Hc & Ht & Hret & Hrun).
  exists used. split; [exact Hused|]. intros w run. unfold run. rewrite Hrun.
  destruct (Hc (log_gets offset used w)) as (Hf & Hlog & Hnet & Hloc).
  split; [apply Hret|]. split; [exact Hf|]. split; [exact Hlog|]. split; [exact Hnet|].
  intros w2 H2. rewrite Hrun. apply Hloc. exact H2.
Qed.

(** *** Evaluating one page fetch *)

Lemma run_truncate_noop {B} (p : string) (d : list Z) (k : unit → M B) (w : world) :
  files w !! p = Some (File d) → d = [] ∨ last d = Some NL →
  bind (truncate_trailing_partial_row p) k w = k tt w.
Proof.
  intros Hfile Hd. apply bind_val.
  destruct (truncate_trailing_partial_row_repairs p w d Hfile) as [Hkeep _]. auto.
Qed.

Lemma written_last (sig : bool) (bs : list Z) :
  bs = [] ∨ last bs = Some NL → written sig bs = [] ∨ last (written sig bs) = Some NL.
Proof.
  intros [->|Hl]; [left; reflexivity|]. destruct bs as [|b bs]; [left; reflexivity|].
  right. unfold written. rewrite last_app, Hl. reflexivity.
Qed.

(** Writing a page into a path that holds no file (write mode). *)
Lemma write_lines_fresh (p : string) (sig write_first : bool) (resp : response) (w : world) :
  (∀ sz, files w !! p ≠ Some (Dir sz)) →
  let st := stream_lines write_first (body resp) in
  ∃ w',
    write_lines p false sig write_first resp w
    = (match stream_err resp with Some e => Exc e | None => Val st end, w')
    ∧ files w' = <[p := File (written sig (out st))]> (files w)
    ∧ net_log w' = net_log w.
Proof.
  intros Hnd st. unfold write_lines. rewrite (run_open_w _ _ _ Hnd). fold st.
  destruct (out st) as [|b bs] eqn:Hout.
  - rewrite run_ret.
    destruct (stream_err resp); (eexists; split; [reflexivity|split; reflexivity]).
  - erewrite run_write_bytes_file by (cbn [files]; apply lookup_insert_eq).
    destruct (stream_err resp);
      (eexists; split; [reflexivity|]; cbn [files net_log];
       rewrite insert_insert_eq; split; reflexivity).
Qed.

(** A transport failure of the request is reported as a failed page. *)
Lemma fetch_request_error (E : environment) (cid : string) (offset : Z)
    (part_path : string) (is_first : bool) (w w1 : world) (e : exn) :
  request_with_manual_backoff E cid offset w = (Exc e, w1) →
  fetch_page_to_partfile E cid offset part_path is_first w
  = (Val (false, "request_error:" +:+ exn_msg e, 0, 0), w1).
Proof.
  intros Hreq. unfold fetch_page_to_partfile.
  rewrite (bind_val _ _ _ _ _ (catching_any_exc _ _ _ _ Hreq)). reflexivity.
Qed.

Lemma fetch_http_error (E : environment) (cid : string) (offset : Z)
    (part_path : string) (is_first : bool) (w w1 : world) (resp : response) :
  request_with_manual_backoff E cid offset w = (Val resp, w1) →
  status_code resp ≠ 200 →
  fetch_page_to_partfile E cid offset part_path is_first w
  = (Val (false, http_error_msg (status_code resp) offset, 0, 0), w1).
Proof.
  intros Hreq Hst. unfold fetch_page_to_partfile.
  rewrite (bind_val _ _ _ _ _ (catching_any_val _ _ _ _ Hreq)).
  destruct (Z.eqb_spec (status_code resp) 200); [contradiction|reflexivity].
Qed.

(** The [try] block once the part path has been cleared and the page
    written. *)
Lemma fetch_200_tail (part_path : string) (is_first : bool) (resp : response)
    (w w1 w2 w3 : world) :
  let st := stream_lines is_first (body resp) in
  (∀ k : unit → M page_result,
     (ex <- path_exists part_path ;;
      (if ex then unlink part_path else ret tt) ;;; k tt) w1 = k tt w2) →
  write_lines part_path false is_first is_first resp w2
  = (match stream_err resp with Some e => Exc e | None => Val st end, w3) →
  files w3 = <[part_path := File (written is_first (out st))]> (files w) →
  net_log w3 = net_log w1 →
  ∃ w', net_log w' = net_log w1
    ∧ match stream_err resp with
      | Some e =>
          try_except
            (ex <- path_exists part_path ;;
             (if ex then unlink part_path else ret tt) ;;;
             st <- write_lines part_path false is_first is_first resp ;;
             let header_lines := if header_written st then 1 else 0 in
             truncate_trailing_partial_row part_path ;;;
             if data_lines st =? 0 then
               try_unlink part_path ;;;
               ret (true, "empty_page_no_data_rows"%string, header_lines, data_lines st)
             else ret (true, "ok"%string, header_lines, data_lines st))
            (fun e => ret (false, "write_error:" +:+ exn_msg e, 0, 0)) w1
          = (Val (false, "write_error:" +:+ exn_msg e, 0, 0), w')
          ∧ files w' = <[part_path := File (written is_first (out st))]> (files w)
      | None =>
          try_except
            (ex <- path_exists part_path ;;
             (if ex then unlink part_path else ret tt) ;;;
             st <- write_lines part_path false is_first is_first resp ;;
             let header_lines := if header_written st then 1 else 0 in
             truncate_trailing_partial_row part_path ;;;
             if data_lines st =? 0 then
               try_unlink part_path ;;;
               ret (true, "empty_page_no_data_rows"%string, header_lines, data_lines st)
             else ret (true, "ok"%string, header_lines, data_lines st))
            (fun e => ret (false, "write_error:" +:+ exn_msg e, 0, 0)) w1
          = (Val (true,
                  if data_lines st =? 0 then "empty_page_no_data_rows"%string
                  else "ok"%string,
                  if header_written st then 1 else 0, data_lines st), w')
          ∧ files w' = (if data_lines st =? 0 then delete part_path (files w)
                        else <[part_path := File (written is_first (out st))]> (files w))
      end.
Proof.
  intros st Hpre Hw Hf3 Hn3.
  destruct (stream_err resp) as [e|].
  - exists w3. split; [exact Hn3|]. split; [|exact Hf3].
    unfold try_except. rewrite (Hpre (fun _ => _)).
    rewrite (bind_exc _ _ _ _ _ Hw). reflexivity.
  - destruct (data_lines st =? 0) eqn:Hdl.
    + exists (mkWorld (delete part_path (files w3)) (fs_log w3 ++ [EvUnlink part_path])
                      (net_log w3)).
      split; [exact Hn3|]. split.
      * unfold try_except. rewrite (Hpre (fun _ => _)).
        rewrite (bind_val _ _ _ _ _ Hw). cbv zeta.
        erewrite run_truncate_noop;
          [|rewrite Hf3; apply lookup_insert_eq
           |apply written_last, stream_lines_out_last].
        fold st. rewrite Hdl.
        erewrite run_try_unlink_file by (rewrite Hf3; apply lookup_insert_eq).
        reflexivity.
      * cbn [files]. rewrite Hf3, delete_insert_eq. reflexivity.
    + exists w3. split; [exact Hn3|]. split; [|exact Hf3].
      unfold try_except. rewrite (Hpre (fun _ => _)).
      rewrite (bind_val _ _ _ _ _ Hw). cbv zeta.
      erewrite run_truncate_noop;
        [|rewrite Hf3; apply lookup_insert_eq
         |apply written_last, stream_lines_out_last].
      fold st. rewrite Hdl. reflexivity.
Qed.

(** With a 200 response, what the [try] block of the fetcher does. *)
Lemma fetch_200 (E : environment) (cid : string) (offset : Z)
    (part_path : string) (is_first : bool) (w w1 : world) (resp : response) :
  request_with_manual_backoff E cid offset w = (Val resp, w1) →
  files w1 = files w →
  status_code resp = 200 →
  let st := stream_lines is_first (body resp) in
  match files w !! part_path with
  | Some (Dir _) =>
      ∃ msg, fetch_page_to_partfile E cid offset part_path is_first w
             = (Val (false, msg, 0, 0), w1)
  | _ =>
      ∃ w', net_log w' = net_log w1
        ∧ match stream_err resp with
          | Some e =>
              fetch_page_to_partfile E cid offset part_path is_first w
              = (Val (false, "write_error:" +:+ exn_msg e, 0, 0), w')
              ∧ files w' = <[part_path := File (written is_first (out st))]> (files w)
          | None =>
              fetch_page_to_partfile E cid offset part_path is_first w
              = (Val (true,
                      if data_lines st =? 0 then "empty_page_no_data_rows"%string
                      else "ok"%string,
                      if header_written st then 1 else 0, data_lines st), w')
              ∧ files w' = (if data_lines st =? 0 then delete part_path (files w)
                            else <[part_path := File (written is_first (out st))]> (files w))
          end
  end.
Proof.
  intros Hreq Hfiles Hst st. unfold fetch_page_to_partfile.
  rewrite (bind_val _ _ _ _ _ (catching_any_val _ _ _ _ Hreq)).
  rewrite Hst. cbn [Z.eqb Pos.eqb negb].
  destruct (files w !! part_path) as [[d|sz]|] eqn:Hcell.
  - (* an old part file is removed first *)
    assert (Hc1 : files w1 !! part_path = Some (File d)) by (rewrite Hfiles; exact Hcell).
    set (w2 := mkWorld (delete part_path (files w1)) (fs_log w1 ++ [EvUnlink part_path])
                       (net_log w1)).
    destruct (write_lines_fresh part_path is_first is_first resp w2) as (w3 & Hw & Hf3 & Hn3).
    { intros sz. unfold w2. cbn [files]. rewrite lookup_delete_eq. discriminate. }
    fold st in Hw, Hf3. unfold w2 in Hf3, Hn3. cbn [files net_log] in Hf3, Hn3.
    rewrite insert_delete_eq, Hfiles in Hf3.
    assert (Hpre : ∀ k : unit → M page_result,
              (ex <- path_exists part_path ;;
               (if ex then unlink part_path else ret tt) ;;; k tt) w1 = k tt w2).
    { intros k. rewrite run_path_exists.
      rewrite bool_decide_eq_true_2 by (rewrite Hc1; eauto).
      rewrite (run_unlink_file _ _ _ _ Hc1). reflexivity. }
    apply (fetch_200_tail part_path is_first resp w w1 w2 w3 Hpre Hw Hf3 Hn3).
  - (* the part path cannot be removed *)
    assert (Hc1 : files w1 !! part_path = Some (Dir sz)) by (rewrite Hfiles; exact Hcell).
    eexists. unfold try_except at 1. rewrite run_path_exists.
    rewrite bool_decide_eq_true_2 by (rewrite Hc1; eauto).
    unfold bind at 1. unfold unlink at 1. rewrite Hc1. reflexivity.
  - assert (Hc1 : files w1 !! part_path = None) by (rewrite Hfiles; exact Hcell).
    destruct (write_lines_fresh part_path is_first is_first resp w1) as (w3 & Hw & Hf3 & Hn3).
    { intros sz. rewrite Hc1. discriminate. }
    fold st in Hw, Hf3. rewrite Hfiles in Hf3.
    assert (Hpre : ∀ k : unit → M page_result,
              (ex <- path_exists part_path ;;
               (if ex then unlink part_path else ret tt) ;;; k tt) w1 = k tt w1).
    { intros k. rewrite run_path_exists.
      rewrite bool_decide_eq_false_2 by (rewrite Hc1; intros [x Hx]; discriminate).
      reflexivity. }
    apply (fetch_200_tail part_path is_first resp w w1 w1 w3 Hpre Hw Hf3 Hn3).
Qed.

Lemma request_keeps_files (E : environment) (cid : string) (offset : Z)
    (w w1 : world) (r : res response) :
  request_with_manual_backoff E cid offset w = (r, w1) →
  files w1 = files w ∧ fs_log w1 = fs_log w.
Proof.
  destruct (request_uniform E cid offset) as (r' & used & _ & _ & Hrun).
  rewrite Hrun. intros [= _ <-]. split; reflexivity.
Qed.

Lemma terminated_nonempty (l : list Z) (t : list (list Z)) : terminated (l :: t) ≠ [].
Proof. unfold terminated. simpl. destruct l; discriminate. Qed.



(** The first page keeps the header, under a byte-order mark. *)
Example fetch_first_page_keeps_header :
  files (snd (fetch_page_to_partfile (env_of giant_server) "GIANT" 0 "part_000000.csv" true
                empty_world)) !! "part_000000.csv"
  = Some (File (BOM ++ terminated [header_row 80; data_row 80; data_row 80])).
Proof. vm_compute. reflexivity. Qed.

(** A header-only page is a successful empty page and leaves no file. *)
Example fetch_header_only_page :
  fetch_page_to_partfile (env_of acme_server) "ACME" 5000 "part.csv" false empty_world
  = (Val (true, "empty_page_no_data_rows"%string, 0, 0),
     mkWorld ∅ [EvOpenW "part.csv"; EvUnlink "part.csv"] [(5000, 1%nat)]).
Proof. vm_compute. reflexivity. Qed.

(** ** The paths of one entity are distinct *)

Lemma string_app_cons (x : ascii) (a b : string) :
  String x a +:+ b = String x (a +:+ b).
Proof. reflexivity. Qed.

Lemma string_app_nil (b : string) : "" +:+ b = b.
Proof. reflexivity. Qed.

Lemma string_app_assoc (a b c : string) : (a +:+ b) +:+ c = a +:+ (b +:+ c).
Proof.
  induction a as [|x a IH]; [reflexivity|].
  rewrite !string_app_cons, IH. reflexivity.
Qed.

Lemma string_app_inj_l (s a b : string) : s +:+ a = s +:+ b → a = b.
Proof.
  induction s as [|x s IH]; [auto|].
  rewrite !string_app_cons. intros [= H]. auto.
Qed.

Lemma string_app_length (a b : string) :
  String.length (a +:+ b) = (String.length a + String.length b)%nat.
Proof.
  induction a as [|x a IH]; [reflexivity|].
  rewrite string_app_cons. simpl. rewrite IH. reflexivity.
Qed.

Lemma string_app_inj_r (s a b : string) : a +:+ s = b +:+ s → a = b.
Proof.
  revert b. induction a as [|x a IH]; intros [|y b] H;
    rewrite ?string_app_cons, ?string_app_nil in H.
  - reflexivity.
  - apply (f_equal String.length) in H. simpl in H. rewrite string_app_length in H. lia.
  - apply (f_equal String.length) in H. simpl in H. rewrite string_app_length in H. lia.
  - injection H as -> H. f_equal. auto.
Qed.

(** Reading a zero-padded decimal back gives the number. *)
Lemma read_nat_zero_digit (s : string) : read_nat (String "0" s) = read_nat s.
Proof.
  unfold read_nat. cbn [NilEmpty.uint_of_string].
  destruct (NilEmpty.uint_of_string s) as [d|]; reflexivity.
Qed.

Lemma read_nat_zeros (k : nat) (s : string) : read_nat (zeros k +:+ s) = read_nat s.
Proof.
  induction k as [|k IH]; [reflexivity|].
  cbn [zeros]. rewrite string_app_cons, read_nat_zero_digit. exact IH.
Qed.

Lemma read_nat_pad6 (i : nat) : read_nat (pad6 i) = Some i.
Proof.
  unfold pad6. rewrite read_nat_zeros. unfold read_nat, NilZero.string_of_uint.
  pose proof (Unsigned.of_to i) as Hi.
  destruct (Nat.to_uint i) eqn:Hd;
    try (rewrite NilEmpty.usu; simpl; f_equal; exact Hi).
  simpl in Hi. subst i. reflexivity.
Qed.

Lemma pad6_inj (i j : nat) : pad6 i = pad6 j → i = j.
Proof.
  intros H. apply (f_equal read_nat) in H. rewrite !read_nat_pad6 in H. congruence.
Qed.

Lemma part_path_inj (year_dir cid : string) (i j : nat) :
  part_path_of year_dir cid i = part_path_of year_dir cid j → i = j.
Proof.
  unfold part_path_of. intros H.
  apply string_app_inj_l, (string_app_inj_l "/"), (string_app_inj_l "part_") in H.
  apply string_app_inj_r in H. apply pad6_inj, H.
Qed.

Lemma final_not_part (year_dir cid : string) (i : nat) :
  final_path_of year_dir cid ≠ part_path_of year_dir cid i.
Proof.
  unfold final_path_of, part_path_of, parts_root_of. rewrite !string_app_assoc.
  intros H. apply string_app_inj_l, (string_app_inj_l "/") in H.
  rewrite !string_app_cons in H. discriminate H.
Qed.

Lemma tmp_not_final (year_dir cid : string) :
  tmp_path_of year_dir cid ≠ final_path_of year_dir cid.
Proof.
  unfold final_path_of, tmp_path_of. intros H.
  apply string_app_inj_l, (string_app_inj_l "/"), (string_app_inj_l "csv_"),
    string_app_inj_l in H.
  discriminate H.
Qed.

Lemma tmp_not_part (year_dir cid : string) (i : nat) :
  tmp_path_of year_dir cid ≠ part_path_of year_dir cid i.
Proof.
  unfold tmp_path_of, part_path_of, parts_root_of. rewrite !string_app_assoc.
  intros H. apply string_app_inj_l, (string_app_inj_l "/") in H.
  rewrite !string_app_cons in H. discriminate H.
Qed.

(** ** Parallel downloader: running the page tasks *)

Lemma page_jobs_lookup (year_dir cid : string) (n i : nat) :
  (i < n)%nat →
  page_jobs year_dir cid n !! i
  = Some (Z.of_nat i * PAGE_LIMIT, part_path_of year_dir cid i, bool_decide (i = 0%nat)).
Proof.
  intros Hi. unfold page_jobs. rewrite list_lookup_fmap, lookup_seq_lt by assumption.
  reflexivity.
Qed.

Lemma page_jobs_length (year_dir cid : string) (n : nat) :
  length (page_jobs year_dir cid n) = n.
Proof. unfold page_jobs. rewrite length_map, length_seq. reflexivity. Qed.

Lemma page_fetch_footprint (E : environment) (cid year_dir : string) (i : nat) :
  ∃ used : list nat,
    attempts_ok used ∧
    ∀ w,
      let run := page_fetch E cid year_dir i in
      (∃ r, fst (run w) = Val r)
      ∧ (∀ q, q ≠ part_path_of year_dir cid i → files (snd (run w)) !! q = files w !! q)
      ∧ (∃ evs, fs_log (snd (run w)) = fs_log w ++ evs
                ∧ Forall (fun ev => ∀ q, q ∈ event_paths ev → q = part_path_of year_dir cid i)
                         evs)
      ∧ net_log (snd (run w))
        = net_log w ++ map (fun a : nat => (Z.of_nat i * PAGE_LIMIT, a)) used
      ∧ (∀ w2, files w2 !! part_path_of year_dir cid i = files w !! part_path_of year_dir cid i →
               fst (run w2) = fst (run w)
               ∧ files (snd (run w2)) !! part_path_of year_dir cid i
                 = files (snd (run w)) !! part_path_of year_dir cid i).
Proof. apply fetch_footprint. Qed.

Lemma page_fetch_result (E : environment) (cid year_dir : string) (i : nat) (w : world) :
  fst (page_fetch E cid year_dir i w) = Val (page_result_at E cid year_dir i w).
Proof.
  destruct (page_fetch_footprint E cid year_dir i) as (used & _ & H).
  destruct (H w) as ((r & Hr) & _). unfold page_result_at. rewrite Hr. reflexivity.
Qed.

(** Running the tasks of the pages in [sched] (each page at most once): the
    results are those each task gives from the initial state of its own part
    file, each part file is what its task alone leaves, and nothing else
    changes. *)
Lemma collect_pages_run (E : environment) (cid year_dir : string) (n : nat)
    (sched : list nat) :
  NoDup sched → (∀ i, i ∈ sched → (i < n)%nat) →
  ∀ (results : list (nat * page_result)) (total : Z) (w : world),
    ∃ w',
      collect_pages E cid (page_jobs year_dir cid n) sched results total w
      = (Val (results ++ map (fun i => (i, page_result_at E cid year_dir i w)) sched,
              total + foldr Z.add 0
                        (map (fun i => page_rows (page_result_at E cid year_dir i w)) sched)),
         w')
      ∧ (∀ q, (∀ i, i ∈ sched → q ≠ part_path_of year_dir cid i) →
              files w' !! q = files w !! q)
      ∧ (∀ i, i ∈ sched →
              files w' !! part_path_of year_dir cid i
              = files (snd (page_fetch E cid year_dir i w)) !! part_path_of year_dir cid i)
      ∧ (∃ evs, fs_log w' = fs_log w ++ evs
                ∧ Forall (fun ev => ∀ q, q ∈ event_paths ev →
                                         ∃ i, i ∈ sched ∧ q = part_path_of year_dir cid i) evs)
      ∧ (∃ blocks, net_log w' = net_log w ++ concat blocks
                   ∧ Forall2 page_requests sched blocks).
Proof.
  induction sched as [|i rest IH]; intros Hnd Hlt results total w.
  - exists w. simpl. rewrite app_nil_r, Z.add_0_r.
    split; [reflexivity|]. split; [auto|]. split; [intros i Hi; inversion Hi|].
    split; [exists []; rewrite app_nil_r; auto|].
    exists []. simpl. rewrite app_nil_r. auto.
  - apply NoDup_cons in Hnd as [Hi Hnd].
    assert (Hin : (i < n)%nat) by (apply Hlt; left).
    cbn [collect_pages]. rewrite (page_jobs_lookup _ _ _ _ Hin).
    destruct (page_fetch_footprint E cid year_dir i) as (used & Hused & Hfp).
    destruct (Hfp w) as (_ & Hframe & (evs1 & Hlog1 & Hevs1) & Hnet1 & _).
    pose proof (page_fetch_result E cid year_dir i w) as Hres.
    fold (page_fetch E cid year_dir i).
    destruct (page_fetch E cid year_dir i w) as [r1 w1] eqn:Hrun. simpl in *. subst r1.
    rewrite (bind_val _ _ _ _ _ (catching_any_val _ _ _ _ Hrun)).
    destruct (page_result_at E cid year_dir i w) as [[[ok msg] hl] dl] eqn:Hri.
    destruct (IH Hnd (fun j Hj => Hlt j (list_elem_of_further _ _ _ Hj))
                (results ++ [(i, (ok, msg, hl, dl))]) (total + dl) w1)
      as (w' & Hrest & Hf & Hparts & (evs2 & Hlog2 & Hevs2) & (blocks & Hnet2 & Hblocks)).
    (* the tasks of the other pages see the same part files in [w1] as in [w] *)
    assert (Hsame : ∀ j, j ∈ rest →
              files w1 !! part_path_of year_dir cid j = files w !! part_path_of year_dir cid j).
    { intros j Hj. apply Hframe. intros Heq. apply part_path_inj in Heq. subst j. auto. }
    assert (Hres_same : ∀ j, j ∈ rest →
              page_result_at E cid year_dir j w1 = page_result_at E cid year_dir j w
              ∧ files (snd (page_fetch E cid year_dir j w1)) !! part_path_of year_dir cid j
                = files (snd (page_fetch E cid year_dir j w)) !! part_path_of year_dir cid j).
    { intros j Hj. destruct (page_fetch_footprint E cid year_dir j) as (usedj & _ & Hj').
      destruct (Hj' w) as (_ & _ & _ & _ & Hloc).
      destruct (Hloc w1 (Hsame j Hj)) as [Hr Hc]. split; [|exact Hc].
      unfold page_result_at. rewrite Hr. reflexivity. }
    assert (Hmap1 : map (fun j => (j, page_result_at E cid year_dir j w1)) rest
                    = map (fun j => (j, page_result_at E cid year_dir j w)) rest).
    { apply map_ext_in. intros j Hj. f_equal. apply Hres_same, list_elem_of_In, Hj. }
    assert (Hmap2 : map (fun j => page_rows (page_result_at E cid year_dir j w1)) rest
                    = map (fun j => page_rows (page_result_at E cid year_dir j w)) rest).
    { apply map_ext_in. intros j Hj. f_equal. apply Hres_same, list_elem_of_In, Hj. }
    exists w'. split; [|split; [|split; [|split]]].
    + rewrite Hrest, Hmap1, Hmap2, <- app_assoc. cbn [map foldr app].
      unfold page_rows at 2. cbn [snd]. rewrite Z.add_assoc. reflexivity.
    + intros q Hq. rewrite Hf by (intros j Hj; apply Hq; right; exact Hj).
      apply Hframe, Hq. left.
    + intros j Hj. apply elem_of_cons in Hj as [->|Hj].
      * rewrite Hrun. cbn [snd]. apply Hf.
        intros j Hj Heq. apply part_path_inj in Heq. subst j. auto.
      * rewrite (Hparts j Hj). apply Hres_same, Hj.
    + exists (evs1 ++ evs2). rewrite Hlog2, Hlog1, app_assoc. split; [reflexivity|].
      apply Forall_app. split.
      * eapply Forall_impl; [exact Hevs1|]. intros ev Hev q Hq.
        exists i. split; [left|auto].
      * eapply Forall_impl; [exact Hevs2|]. intros ev Hev q Hq.
        destruct (Hev q Hq) as (j & Hj & ->). exists j. split; [right; exact Hj|reflexivity].
    + exists (map (fun a : nat => (Z.of_nat i * PAGE_LIMIT, a)) used :: blocks).
      simpl. rewrite Hnet2, Hnet1, app_assoc. split; [reflexivity|].
      constructor; [|exact Hblocks]. exists used. auto.
Qed.

(** ** Parallel downloader: merging the parts *)

Lemma file_bytes_insert_ne (m : gmap string node) (p q : string) (n : node) :
  p ≠ q → file_bytes (<[p := n]> m) q = file_bytes m q.
Proof. intros H. unfold file_bytes. rewrite lookup_insert_ne by assumption. reflexivity. Qed.

Lemma file_bytes_delete_ne (m : gmap string node) (p q : string) :
  p ≠ q → file_bytes (delete p m) q = file_bytes m q.
Proof. intros H. unfold file_bytes. rewrite lookup_delete_ne by assumption. reflexivity. Qed.

(** The parts are appended to the final file in the order of the list. *)
Lemma merge_write_loop_run (parts : list string) (final_path : string) :
  final_path ∉ parts →
  ∀ (w : world) (d0 : list Z),
    files w !! final_path = Some (File d0) →
    (∀ p, p ∈ parts → ∀ sz, files w !! p ≠ Some (Dir sz)) →
    ∃ w',
      merge_write_loop parts final_path w = (Val tt, w')
      ∧ files w'
        = <[final_path := File (d0 ++ concat (map (file_bytes (files w)) parts))]> (files w)
      ∧ net_log w' = net_log w
      ∧ ∃ evs, fs_log w' = fs_log w ++ evs
               ∧ Forall (fun ev => ∀ q, q ∈ event_paths ev → q = final_path) evs.
Proof.
  induction parts as [|p rest IH]; intros Hnotin w d0 Hfinal Hnodir.
  - exists w. simpl. rewrite app_nil_r. split; [reflexivity|].
    split; [symmetry; apply insert_id, Hfinal|]. split; [reflexivity|].
    exists []. rewrite app_nil_r. auto.
  - apply not_elem_of_cons in Hnotin as [Hne Hnotin].
    assert (Hstep : ∃ w1 d1,
              (∀ k : unit → M unit,
                 (ex <- path_exists p ;;
                  bind (if ex then
                          sz <- stat_size p ;;
                          if sz >? 0 then data <- read_bytes p ;; write_bytes final_path data
                          else ret tt
                        else ret tt) k) w = k tt w1)
              ∧ d1 = d0 ++ file_bytes (files w) p
              ∧ files w1 = <[final_path := File d1]> (files w)
              ∧ net_log w1 = net_log w
              ∧ ∃ evs, fs_log w1 = fs_log w ++ evs
                       ∧ Forall (fun ev => ∀ q, q ∈ event_paths ev → q = final_path) evs).
    { unfold file_bytes.
      destruct (files w !! p) as [[d|sz]|] eqn:Hp.
      - destruct d as [|b d].
        + exists w, d0. split; [|split; [rewrite app_nil_r; reflexivity|]].
          * intros k. rewrite run_path_exists.
            rewrite bool_decide_eq_true_2 by (rewrite Hp; eauto).
            unfold bind at 1. rewrite (run_stat_size_file _ _ _ _ Hp). reflexivity.
          * split; [symmetry; apply insert_id, Hfinal|]. split; [reflexivity|].
            exists []. rewrite app_nil_r. auto.
        + eexists (mkWorld _ _ _), _. split; [|split; [reflexivity|]].
          * intros k. rewrite run_path_exists.
            rewrite bool_decide_eq_true_2 by (rewrite Hp; eauto).
            unfold bind at 1. rewrite (run_stat_size_file _ _ _ _ Hp).
            replace (Z.of_nat (length (b :: d)) >? 0) with true
              by (symmetry; apply Z.gtb_lt; simpl; lia).
            rewrite (run_read_bytes_file _ _ _ _ Hp).
            unfold write_bytes. rewrite Hfinal. reflexivity.
          * cbn [files net_log fs_log]. split; [reflexivity|]. split; [reflexivity|].
            eexists [_]. split; [reflexivity|]. repeat constructor.
            intros q Hq. simpl in Hq. apply list_elem_of_singleton in Hq. exact Hq.
      - exfalso. apply (Hnodir p ltac:(left) sz). exact Hp.
      - exists w, d0. split; [|split; [rewrite app_nil_r; reflexivity|]].
        + intros k. rewrite run_path_exists.
          rewrite bool_decide_eq_false_2 by (rewrite Hp; intros [x Hx]; discriminate).
          reflexivity.
        + split; [symmetry; apply insert_id, Hfinal|]. split; [reflexivity|].
          exists []. rewrite app_nil_r. auto. }
    destruct Hstep as (w1 & d1 & Hrun1 & Hd1 & Hf1 & Hn1 & (evs1 & Hlog1 & Hevs1)).
    destruct (IH Hnotin w1 d1) as (w' & Hrun & Hf & Hn & (evs2 & Hlog2 & Hevs2)).
    { rewrite Hf1. apply lookup_insert_eq. }
    { intros q Hq sz. rewrite Hf1, lookup_insert_ne by (intros ->; auto).
      apply Hnodir. right. exact Hq. }
    exists w'. split; [|split; [|split]].
    + cbn [merge_write_loop]. rewrite Hrun1. exact Hrun.
    + rewrite Hf, Hf1, insert_insert_eq. f_equal. f_equal. subst d1.
      rewrite <- app_assoc. f_equal. cbn [map concat]. f_equal. f_equal.
      apply map_ext_in. intros q Hq. apply file_bytes_insert_ne.
      intros ->. apply Hnotin, list_elem_of_In, Hq.
    + congruence.
    + exists (evs1 ++ evs2). rewrite Hlog2, Hlog1, app_assoc. split; [reflexivity|].
      apply Forall_app; auto.
Qed.

Lemma count_loop_two (ls : list (list Z)) :
  (count_loop 0 3 ls <? 2) = (length ls <? 2)%nat.
Proof. destruct ls as [|a [|b [|c ls]]]; reflexivity. Qed.

Lemma count_lines_quick_file (p : string) (d : list Z) (w : world) :
  files w !! p = Some (File d) →
  count_lines_quick p 3 w = (Val (count_loop 0 3 (bytes_lines_from [] d)), w).
Proof.
  intros H. unfold count_lines_quick, try_except.
  rewrite (run_read_bytes_file _ _ _ _ H). reflexivity.
Qed.

(** A validation that passes gives the empty reason. *)
Lemma validate_ok_reason (E : environment) (p : string) (n : Z) (w w' : world)
    (reason : string) :
  validate_header_min_cols E p n w = (Val (true, reason), w') → reason = ""%string ∧ w' = w.
Proof.
  destruct (files w !! p) as [[d|sz]|] eqn:Hp.
  - rewrite (validate_header_file _ _ _ _ _ Hp).
    destruct (find_header _ _ _) as [h|]; [|discriminate].
    destruct (csv_next [h]) as [e|cols]; [discriminate|].
    destruct (_ <? n); [discriminate|]. intros [= <- <-]. auto.
  - unfold validate_header_min_cols, validate_body, try_except, bind, read_bytes.
    rewrite Hp. discriminate.
  - unfold validate_header_min_cols, validate_body, try_except, bind, read_bytes.
    rewrite Hp. discriminate.
Qed.

(** What [merge_parts] does when the final path is free or holds an old
    file and no part is a directory: it writes the parts, in list order, into
    the final path itself, and only then checks the result, removing the
    file when it has fewer than two lines or fails validation. *)
Lemma merge_parts_run (E : environment) (parts : list string) (final_path : string)
    (w : world) :
  final_path ∉ parts →
  (∀ sz, files w !! final_path ≠ Some (Dir sz)) →
  (∀ p, p ∈ parts → ∀ sz, files w !! p ≠ Some (Dir sz)) →
  let merged := concat (map (file_bytes (files w)) parts) in
  ∃ w' ok msg,
    merge_parts E parts final_path w = (Val (ok, msg), w')
    ∧ net_log w' = net_log w
    ∧ (∃ evs, fs_log w' = fs_log w ++ evs
              ∧ Forall (fun ev => ∀ q, q ∈ event_paths ev → q = final_path) evs
              ∧ EvOpenW final_path ∈ evs)
    ∧ ((merged = [] ∧ ok = false ∧ files w' = <[final_path := File []]> (files w))
       ∨ (merged ≠ [] ∧ ok = false ∧ files w' = delete final_path (files w))
       ∨ (merged ≠ [] ∧ ok = true
          ∧ files w' = <[final_path := File merged]> (files w)
          ∧ (2 <= line_count merged)%nat
          ∧ validate_header_min_cols E final_path EXPECTED_MIN_COLS w'
            = (Val (true, ""%string), w'))).
Proof.
  intros Hnotin Hfinal Hnodir merged.
  (* clearing the final path *)
  assert (Hclear : ∃ w1,
            (∀ k : unit → M (bool * string),
               (ex <- path_exists final_path ;;
                bind (if ex then unlink final_path else ret tt) k) w = k tt w1)
            ∧ files w1 = delete final_path (files w) ∧ net_log w1 = net_log w
            ∧ ∃ evs, fs_log w1 = fs_log w ++ evs
                     ∧ Forall (fun ev => ∀ q, q ∈ event_paths ev → q = final_path) evs).
  { destruct (files w !! final_path) as [[d|sz]|] eqn:Hc.
    - eexists (mkWorld _ _ _). split; [|split; [reflexivity|split; [reflexivity|]]].
      + intros k. rewrite run_path_exists.
        rewrite bool_decide_eq_true_2 by (rewrite Hc; eauto).
        rewrite (run_unlink_file _ _ _ _ Hc). reflexivity.
      + eexists [_]. split; [reflexivity|]. repeat constructor.
        intros q Hq. simpl in Hq. apply list_elem_of_singleton in Hq. exact Hq.
    - exfalso. apply (Hfinal sz). reflexivity.
    - exists w. split; [|split; [symmetry; apply delete_id, Hc|split; [reflexivity|]]].
      + intros k. rewrite run_path_exists.
        rewrite bool_decide_eq_false_2 by (rewrite Hc; intros [x Hx]; discriminate).
        reflexivity.
      + exists []. rewrite app_nil_r. auto. }
  destruct Hclear as (w1 & Hrun1 & Hf1 & Hn1 & (evs1 & Hlog1 & Hevs1)).
  set (w2 := mkWorld (<[final_path := File []]> (files w1))
                     (fs_log w1 ++ [EvOpenW final_path]) (net_log w1)).
  destruct (merge_write_loop_run parts final_path Hnotin w2 [])
    as (w3 & Hrun3 & Hf3 & Hn3 & (evs3 & Hlog3 & Hevs3)).
  { apply lookup_insert_eq. }
  { intros p Hp sz. unfold w2. cbn [files].
    rewrite lookup_insert_ne by (intros ->; auto).
    rewrite Hf1, lookup_delete_ne by (intros ->; auto). apply Hnodir, Hp. }
  assert (Hmerged : concat (map (file_bytes (files w2)) parts) = merged).
  { unfold merged. f_equal. apply map_ext_in. intros q Hq. unfold w2. cbn [files].
    assert (final_path ≠ q) by (intros ->; apply Hnotin, list_elem_of_In, Hq).
    rewrite file_bytes_insert_ne, Hf1, file_bytes_delete_ne by assumption. reflexivity. }
  unfold w2 in Hn3. cbn [net_log] in Hn3. rewrite Hn1 in Hn3.
  rewrite Hmerged in Hf3. simpl app in Hf3. unfold w2 in Hf3. cbn [files] in Hf3.
  rewrite insert_insert_eq, Hf1, insert_delete_eq in Hf3.
  assert (Hc3 : files w3 !! final_path = Some (File merged))
    by (rewrite Hf3; apply lookup_insert_eq).
  assert (Hlog : ∃ evs, fs_log w3 = fs_log w ++ evs
                   ∧ Forall (fun ev => ∀ q, q ∈ event_paths ev → q = final_path) evs
                   ∧ EvOpenW final_path ∈ evs).
  { exists (evs1 ++ [EvOpenW final_path] ++ evs3).
    rewrite Hlog3. unfold w2. cbn [fs_log]. rewrite Hlog1, <- !app_assoc.
    split; [reflexivity|]. split.
    - apply Forall_app. split; [exact Hevs1|]. apply Forall_app. split; [|exact Hevs3].
      repeat constructor. intros q Hq. simpl in Hq.
      apply list_elem_of_singleton in Hq. exact Hq.
    - apply elem_of_app. right. apply elem_of_app. left. left. }
  assert (Hhead : ∀ k : M (bool * string),
            (ex <- path_exists final_path ;;
             (if ex then unlink final_path else ret tt) ;;;
             open_w final_path ;;;
             merge_write_loop parts final_path ;;; k) w = k w3).
  { intros k. rewrite (Hrun1 (fun _ => _)).
    rewrite run_open_w by (intros sz; rewrite Hf1, lookup_delete_eq; discriminate).
    fold w2. rewrite (bind_val _ _ _ _ _ Hrun3). reflexivity. }
  unfold merge_parts, try_except. rewrite Hhead.
  rewrite run_path_exists. rewrite bool_decide_eq_true_2 by (rewrite Hc3; eauto).
  rewrite (run_stat_size_file _ _ _ _ Hc3). cbn [negb orb].
  destruct (Z.eqb_spec (Z.of_nat (length merged)) 0) as [H0|Hn0].
  - (* nothing was merged *)
    assert (merged = []) as Hm by (destruct merged; [reflexivity|simpl in H0; lia]).
    exists w3, false, "merged_empty"%string.
    split; [reflexivity|]. split; [congruence|]. split; [exact Hlog|].
    left. rewrite Hf3, Hm. auto.
  - assert (merged ≠ []) as Hm by (intros Hm; rewrite Hm in Hn0; simpl in Hn0; lia).
    rewrite (bind_val _ _ _ _ _ (count_lines_quick_file _ _ _ Hc3)).
    rewrite count_loop_two.
    set (w4 := mkWorld (delete final_path (files w3)) (fs_log w3 ++ [EvUnlink final_path])
                       (net_log w3)).
    assert (Hf4 : files w4 = delete final_path (files w))
      by (unfold w4; cbn [files]; rewrite Hf3, delete_insert_eq; reflexivity).
    assert (Hlog4 : ∃ evs, fs_log w4 = fs_log w ++ evs
                      ∧ Forall (fun ev => ∀ q, q ∈ event_paths ev → q = final_path) evs
                      ∧ EvOpenW final_path ∈ evs).
    { destruct Hlog as (evs & He & Hall & Hin). exists (evs ++ [EvUnlink final_path]).
      unfold w4. cbn [fs_log]. rewrite He, app_assoc. split; [reflexivity|]. split.
      - apply Forall_app. split; [exact Hall|]. repeat constructor. intros q Hq.
        simpl in Hq. apply list_elem_of_singleton in Hq. exact Hq.
      - apply elem_of_app. left. exact Hin. }
    destruct (Nat.ltb_spec (length (bytes_lines_from [] merged)) 2) as [Hlt|Hge].
    + (* fewer than two lines *)
      rewrite (run_try_unlink_file _ _ _ _ Hc3). fold w4.
      exists w4, false, "no_results_header_only_after_merge"%string.
      split; [reflexivity|]. split; [unfold w4; cbn [net_log]; congruence|].
      split; [exact Hlog4|]. right. left. auto.
    + destruct (validate_header_min_cols_returns E final_path EXPECTED_MIN_COLS w3)
        as (ok & reason & Hval).
      rewrite (bind_val _ _ _ _ _ Hval). destruct ok.
      * destruct (validate_ok_reason _ _ _ _ _ _ Hval) as [-> _].
        exists w3, true, "merged_ok"%string.
        split; [reflexivity|]. split; [congruence|]. split; [exact Hlog|].
        right. right. unfold line_count. auto 10.
      * cbn [negb]. rewrite (run_try_unlink_file _ _ _ _ Hc3). fold w4.
        exists w4, false, ("validation_failed:" +:+ reason).
        split; [reflexivity|]. split; [unfold w4; cbn [net_log]; congruence|].
        split; [exact Hlog4|]. right. left. auto.
Qed.

(** ** What a successful page leaves behind *)

Lemma stream_lines_rows (write_first : bool) (lines : list (list Z)) :
  0 <= data_lines (stream_lines write_first lines)
  ∧ (data_lines (stream_lines write_first lines) ≠ 0 →
     out (stream_lines write_first lines) ≠ []).
Proof.
  rewrite stream_lines_spec. destruct (nonempty_lines lines) as [|h t]; cbn [data_lines out].
  - split; [lia|]. intros Hn. exfalso. apply Hn. reflexivity.
  - split; [lia|]. intros Hn. destruct t as [|l t]; [exfalso; apply Hn; reflexivity|].
    intros Happ. apply app_eq_nil in Happ as [_ Ht].
    exact (terminated_nonempty _ _ Ht).
Qed.

Lemma written_nonempty (sig : bool) (bs : list Z) : bs ≠ [] → written sig bs ≠ [].
Proof.
  intros Hne. destruct bs as [|b bs]; [congruence|]. unfold written.
  destruct sig; simpl; discriminate.
Qed.

(** A page reported as successful leaves either no part file (no data row)
    or a part file that is a non-empty regular file (some data row); a part
    path is never left as something that cannot be read. *)
Lemma fetch_ok_cell (E : environment) (cid : string) (offset : Z)
    (part_path : string) (is_first : bool) (w w' : world)
    (msg : string) (hl dl : Z) :
  fetch_page_to_partfile E cid offset part_path is_first w = (Val (true, msg, hl, dl), w') →
  (dl = 0 ∧ files w' !! part_path = None)
  ∨ (dl ≠ 0 ∧ ∃ c, c ≠ [] ∧ files w' !! part_path = Some (File c)).
Proof.
  intros Hrun.
  destruct (request_uniform E cid offset) as (r & used & Hnd & _ & Hreq).
  specialize (Hreq w).
  destruct r as [resp|e|]; [| |congruence].
  - destruct (Z.eq_dec (status_code resp) 200) as [Hst|Hst].
    + pose proof (fetch_200 E cid offset part_path is_first w _ resp Hreq eq_refl Hst) as H.
      cbv zeta in H.
      destruct (files w !! part_path) as [[d|sz]|] eqn:Hcell.
      * destruct H as (w3 & _ & H). destruct (stream_err resp).
        -- destruct H as [H _]. rewrite H in Hrun. discriminate.
        -- destruct H as [H Hf]. rewrite H in Hrun. injection Hrun as _ _ <- <-.
           destruct (Z.eqb_spec (data_lines (stream_lines is_first (body resp))) 0) as [H0|H0].
           ++ left. split; [exact H0|]. rewrite Hf. apply lookup_delete_eq.
           ++ right. split; [exact H0|]. eexists. split; [|rewrite Hf; apply lookup_insert_eq].
              apply written_nonempty, stream_lines_rows, H0.
      * destruct H as (m & H). rewrite H in Hrun. discriminate.
      * destruct H as (w3 & _ & H). destruct (stream_err resp).
        -- destruct H as [H _]. rewrite H in Hrun. discriminate.
        -- destruct H as [H Hf]. rewrite H in Hrun. injection Hrun as _ _ <- <-.
           destruct (Z.eqb_spec (data_lines (stream_lines is_first (body resp))) 0) as [H0|H0].
           ++ left. split; [exact H0|]. rewrite Hf. apply lookup_delete_eq.
           ++ right. split; [exact H0|]. eexists. split; [|rewrite Hf; apply lookup_insert_eq].
              apply written_nonempty, stream_lines_rows, H0.
    + rewrite (fetch_http_error _ _ _ _ _ _ _ _ Hreq Hst) in Hrun. discriminate.
  - rewrite (fetch_request_error _ _ _ _ _ _ _ _ Hreq) in Hrun. discriminate.
Qed.

(** A failed page reports no rows. *)
Lemma fetch_failed_rows (E : environment) (cid : string) (offset : Z)
    (part_path : string) (is_first : bool) (w w' : world)
    (msg : string) (hl dl : Z) :
  fetch_page_to_partfile E cid offset part_path is_first w = (Val (false, msg, hl, dl), w') →
  dl = 0.
Proof.
  intros Hrun.
  destruct (request_uniform E cid offset) as (r & used & Hnd & _ & Hreq).
  specialize (Hreq w).
  destruct r as [resp|e|]; [| |congruence].
  - destruct (Z.eq_dec (status_code resp) 200) as [Hst|Hst].
    + pose proof (fetch_200 E cid offset part_path is_first w _ resp Hreq eq_refl Hst) as H.
      cbv zeta in H.
      destruct (files w !! part_path) as [[d|sz]|] eqn:Hcell.
      * destruct H as (w3 & _ & H). destruct (stream_err resp);
          destruct H as [H _]; rewrite H in Hrun; congruence.
      * destruct H as (m & H). rewrite H in Hrun. congruence.
      * destruct H as (w3 & _ & H). destruct (stream_err resp);
          destruct H as [H _]; rewrite H in Hrun; congruence.
    + rewrite (fetch_http_error _ _ _ _ _ _ _ _ Hreq Hst) in Hrun. congruence.
  - rewrite (fetch_request_error _ _ _ _ _ _ _ _ Hreq) in Hrun. congruence.
Qed.

(** The best-effort removal of the parts touches the parts only. *)
Lemma cleanup_loop_frame (parts : list string) :
  ∀ w,
    fst (cleanup_loop parts w) ≠ Diverge
    ∧ (∀ q, q ∉ parts → files (snd (cleanup_loop parts w)) !! q = files w !! q)
    ∧ net_log (snd (cleanup_loop parts w)) = net_log w
    ∧ ∃ evs, fs_log (snd (cleanup_loop parts w)) = fs_log w ++ evs
             ∧ Forall (fun ev => ∀ q, q ∈ event_paths ev → q ∈ parts) evs.
Proof.
  induction parts as [|p rest IH]; intros w.
  - simpl. split; [discriminate|]. split; [auto|]. split; [reflexivity|].
    exists []. rewrite app_nil_r. auto.
  - cbn [cleanup_loop]. rewrite run_path_exists.
    destruct (files w !! p) as [[d|sz]|] eqn:Hp.
    + rewrite bool_decide_eq_true_2 by eauto.
      rewrite (run_unlink_file _ _ _ _ Hp).
      set (w1 := mkWorld _ _ _).
      destruct (IH w1) as (Hd & Hf & Hn & (evs & Hlog & Hevs)).
      split; [exact Hd|]. split; [|split; [exact Hn|]].
      * intros q Hq. apply not_elem_of_cons in Hq as [Hne Hq].
        rewrite Hf by assumption. unfold w1. cbn [files].
        apply lookup_delete_ne. congruence.
      * exists (EvUnlink p :: evs). rewrite Hlog. unfold w1. cbn [fs_log].
        rewrite <- app_assoc. split; [reflexivity|]. constructor.
        -- intros q Hq. simpl in Hq. apply list_elem_of_singleton in Hq. subst q. left.
        -- eapply Forall_impl; [exact Hevs|]. intros ev Hev q Hq. right. auto.
    + rewrite bool_decide_eq_true_2 by eauto.
      unfold bind, unlink. rewrite Hp. simpl.
      split; [discriminate|]. split; [auto|]. split; [reflexivity|].
      exists []. rewrite app_nil_r. auto.
    + rewrite bool_decide_eq_false_2 by (intros [x Hx]; discriminate).
      rewrite run_ret.
      destruct (IH w) as (Hd & Hf & Hn & (evs & Hlog & Hevs)).
      split; [exact Hd|]. split; [|split; [exact Hn|]].
      * intros q Hq. apply not_elem_of_cons in Hq as [Hne Hq]. auto.
      * exists evs. split; [exact Hlog|].
        eapply Forall_impl; [exact Hevs|]. intros ev Hev q Hq. right. auto.
Qed.

(** ** The parallel downloader *)

Lemma ceil_div_bounds (a b : Z) :
  0 < b → (ceil_div a b - 1) * b < a ∧ a <= ceil_div a b * b.
Proof.
  intros Hb. unfold ceil_div.
  pose proof (Z.div_mod (- a) b ltac:(lia)) as Hdm.
  pose proof (Z.mod_pos_bound (- a) b Hb) as Hm.
  nia.
Qed.

Lemma page_count_big (expected_total : Z) :
  PAGE_LIMIT < expected_total → 2 <= ceil_div expected_total PAGE_LIMIT.
Proof.
  intros H. pose proof (ceil_div_bounds expected_total PAGE_LIMIT ltac:(reflexivity)) as [_ Hb].
  unfold PAGE_LIMIT in *. lia.
Qed.

Lemma hard_fails_of_nil (results : list (nat * page_result)) :
  hard_fails_of results = [] ↔ Forall (fun ir => page_ok ir.2 = true) results.
Proof.
  induction results as [|[i [[[ok msg] hl] dl]] rest IH].
  - split; [constructor|reflexivity].
  - unfold hard_fails_of in *. cbn [omap list_omap]. destruct ok; cbn [page_ok fst snd].
    + rewrite IH. split; [intros H; constructor; [reflexivity|exact H]|].
      intros H. inversion H. assumption.
    + split; [discriminate|]. intros H. inversion H. discriminate.
Qed.

Lemma rows_sum_nonzero (f : nat → Z) (l : list nat) :
  foldr Z.add 0 (map f l) ≠ 0 → ∃ i, i ∈ l ∧ f i ≠ 0.
Proof.
  induction l as [|i l IH]; cbn [map foldr]; intros H; [congruence|].
  destruct (Z.eq_dec (f i) 0) as [H0|H0].
  - destruct IH as (j & Hj & Hfj); [lia|]. exists j. split; [right; exact Hj|exact Hfj].
  - exists i. split; [left|exact H0].
Qed.

Lemma sched_complete (sched : list nat) (n : nat) :
  sched ≡ₚ seq 0 n →
  NoDup sched ∧ ∀ i, i ∈ sched ↔ (i < n)%nat.
Proof.
  intros Hp. split.
  - rewrite Hp. apply NoDup_seq.
  - intros i. rewrite Hp, elem_of_seq. lia.
Qed.

(** A page that reported success, run from [w], leaves its part path either
    absent or holding a non-empty regular file. *)
Lemma page_ok_cell (E : environment) (cid year_dir : string) (i : nat) (w : world) :
  page_ok (page_result_at E cid year_dir i w) = true →
  let cell := files (snd (page_fetch E cid year_dir i w)) !! part_path_of year_dir cid i in
  (page_rows (page_result_at E cid year_dir i w) = 0 ∧ cell = None)
  ∨ (page_rows (page_result_at E cid year_dir i w) ≠ 0
     ∧ ∃ c, c ≠ [] ∧ cell = Some (File c)).
Proof.
  intros Hok. cbv zeta.
  pose proof (page_fetch_result E cid year_dir i w) as Hres.
  destruct (page_result_at E cid year_dir i w) as [[[ok msg] hl] dl].
  unfold page_ok, page_rows in *. simpl in Hok. subst ok.
  assert (Hrun : page_fetch E cid year_dir i w
                 = (Val (true, msg, hl, dl), snd (page_fetch E cid year_dir i w))).
  { destruct (page_fetch E cid year_dir i w) as [r w']. simpl in Hres. subst r. reflexivity. }
  exact (fetch_ok_cell _ _ _ _ _ _ _ _ _ _ Hrun).
Qed.

(** The first phase: every page task has run, in the order of the schedule. *)
Lemma big_collected (E : environment) (cid year_dir : string) (expected_total page_workers : Z)
    (sched : list nat) (w : world) :
  0 < ceil_div expected_total PAGE_LIMIT → 0 < page_workers →
  sched ≡ₚ seq 0 (page_count expected_total) →
  ∃ w1,
    download_big_parallel_pages E cid expected_total year_dir page_workers sched w
    = big_after_pages E cid (ceil_div expected_total PAGE_LIMIT)
        (final_path_of year_dir cid)
        (map (part_path_of year_dir cid) (seq 0 (page_count expected_total)))
        (map (fun i => (i, page_result_at E cid year_dir i w)) sched)
        (foldr Z.add 0 (map (fun i => page_rows (page_result_at E cid year_dir i w)) sched))
        w1
    ∧ (∀ q, (∀ i, q ≠ part_path_of year_dir cid i) → files w1 !! q = files w !! q)
    ∧ (∀ i, (i < page_count expected_total)%nat →
            files w1 !! part_path_of year_dir cid i
            = files (snd (page_fetch E cid year_dir i w)) !! part_path_of year_dir cid i)
    ∧ (∃ evs, fs_log w1 = fs_log w ++ evs
              ∧ Forall (fun ev => ∀ q, q ∈ event_paths ev →
                                       ∃ i, q = part_path_of year_dir cid i) evs)
    ∧ (∃ blocks, net_log w1 = net_log w ++ concat blocks
                 ∧ Forall2 page_requests sched blocks).
Proof.
  intros Hpages Hworkers Hperm.
  destruct (sched_complete _ _ Hperm) as [Hnd Hin].
  destruct (collect_pages_run E cid year_dir (page_count expected_total) sched Hnd
              (fun i Hi => proj1 (Hin i) Hi) [] 0 w)
    as (w1 & Hrun & Hframe & Hcells & (evs & Hlog & Hevs) & Hnet).
  exists w1. split; [|split; [|split; [|split]]].
  - unfold download_big_parallel_pages. cbv zeta.
    destruct (Z.leb_spec (ceil_div expected_total PAGE_LIMIT) 0) as [|_]; [lia|].
    destruct (Z.leb_spec page_workers 0) as [|_]; [lia|].
    fold (page_count expected_total). unfold bind at 1. rewrite Hrun.
    cbn [app]. rewrite Z.add_0_l. reflexivity.
  - intros q Hq. apply Hframe. intros i _. apply Hq.
  - intros i Hi. apply Hcells, Hin, Hi.
  - exists evs. split; [exact Hlog|].
    eapply Forall_impl; [exact Hevs|]. intros ev Hev q Hq.
    destruct (Hev q Hq) as (i & _ & ->). eauto.
  - exact Hnet.
Qed.

Lemma untouched_by_parts (year_dir cid : string) (evs : list fs_event) :
  Forall (fun ev => ∀ q, q ∈ event_paths ev → ∃ i, q = part_path_of year_dir cid i) evs →
  untouched (final_path_of year_dir cid) evs.
Proof.
  intros H. eapply Forall_impl; [exact H|]. intros ev Hev Hq.
  destruct (Hev _ Hq) as [i Hi]. exact (final_not_part _ _ _ Hi).
Qed.

Lemma merged_of_cells (year_dir cid : string) (m1 : gmap string node)
    (cell : nat → option node) (l : list nat) :
  (∀ i, i ∈ l → m1 !! part_path_of year_dir cid i = cell i) →
  concat (map (file_bytes m1) (map (part_path_of year_dir cid) l))
  = concat (map (fun i => match cell i with Some (File d) => d | _ => [] end) l).
Proof.
  intros H. rewrite map_map. f_equal. apply map_ext_in. intros i Hi.
  unfold file_bytes. rewrite H; [reflexivity|]. apply list_elem_of_In, Hi.
Qed.

Lemma concat_nonempty {A} (ls : list (list A)) (c : list A) :
  c ∈ ls → c ≠ [] → concat ls ≠ [].
Proof.
  induction ls as [|x ls IH]; intros Hin Hc; [inversion Hin|].
  apply elem_of_cons in Hin as [<-|Hin]; simpl.
  - destruct c; [congruence|discriminate].
  - intros H. apply app_eq_nil in H as [_ H]. exact (IH Hin Hc H).
Qed.

(** The second phase when no page failed. *)
Lemma big_merged (E : environment) (cid year_dir : string) (expected_total page_workers : Z)
    (sched : list nat) (w : world) :
  0 < ceil_div expected_total PAGE_LIMIT → 0 < page_workers →
  sched ≡ₚ seq 0 (page_count expected_total) →
  (∀ sz, files w !! final_path_of year_dir cid ≠ Some (Dir sz)) →
  (∀ i, (i < page_count expected_total)%nat →
        page_ok (page_result_at E cid year_dir i w) = true) →
  let total :=
    foldr Z.add 0 (map (fun i => page_rows (page_result_at E cid year_dir i w)) sched) in
  let merged :=
    concat (map (fun i => file_bytes (files (snd (page_fetch E cid year_dir i w)))
                                     (part_path_of year_dir cid i))
                (seq 0 (page_count expected_total))) in
  ∃ w' ok msg,
    download_big_parallel_pages E cid expected_total year_dir page_workers sched w
    = (Val (cid, YEAR, ok, msg), w')
    ∧ (∃ blocks, net_log w' = net_log w ++ concat blocks
                 ∧ Forall2 page_requests sched blocks)
    ∧ (∃ evs, fs_log w' = fs_log w ++ evs
              ∧ (total = 0 → untouched (final_path_of year_dir cid) evs)
              ∧ (total ≠ 0 → EvOpenW (final_path_of year_dir cid) ∈ evs))
    ∧ ((total = 0 ∧ ok = false ∧ msg = "no_results_all_pages_empty"%string
        ∧ files w' !! final_path_of year_dir cid = files w !! final_path_of year_dir cid)
       ∨ (total ≠ 0 ∧ ok = false ∧ files w' !! final_path_of year_dir cid = None)
       ∨ (total ≠ 0 ∧ ok = true
          ∧ msg = ("downloaded_big_ok_pages=" +:+ str_of_Z (ceil_div expected_total PAGE_LIMIT)
                   +:+ "_rows~" +:+ str_of_Z total)%string
          ∧ files w' !! final_path_of year_dir cid = Some (File merged)
          ∧ (2 <= line_count merged)%nat)).
Proof.
  intros Hpages Hworkers Hperm Hfinal Hok total merged.
  destruct (sched_complete _ _ Hperm) as [Hnd Hin].
  destruct (big_collected E cid year_dir expected_total page_workers sched w
              Hpages Hworkers Hperm)
    as (w1 & Hrun & Hframe & Hcells & (evs & Hlog & Hevs) & Hnet).
  rewrite Hrun. clear Hrun. fold total.
  assert (Hhf : hard_fails_of (map (fun i => (i, page_result_at E cid year_dir i w)) sched) = []).
  { apply hard_fails_of_nil. apply Forall_forall. intros ir Hir.
    apply list_elem_of_In, in_map_iff in Hir as (i & <- & Hi).
    apply Hok, Hin, list_elem_of_In, Hi. }
  unfold big_after_pages. cbv zeta. rewrite Hhf.
  pose proof (untouched_by_parts _ _ _ Hevs) as Hunt.
  destruct (Z.eqb_spec total 0) as [H0|H0].
  { exists w1, false, "no_results_all_pages_empty"%string.
    split; [reflexivity|]. split; [exact Hnet|]. split.
    - exists evs. split; [exact Hlog|]. split; [auto|contradiction].
    - left. split; [exact H0|]. split; [reflexivity|]. split; [reflexivity|].
      apply Hframe. intros i. apply final_not_part. }
  set (parts := map (part_path_of year_dir cid) (seq 0 (page_count expected_total))).
  assert (Hmerged : concat (map (file_bytes (files w1)) parts) = merged).
  { unfold parts, merged.
    rewrite (merged_of_cells year_dir cid (files w1)
               (fun i => files (snd (page_fetch E cid year_dir i w))
                         !! part_path_of year_dir cid i)).
    - reflexivity.
    - intros i Hi. apply Hcells. apply elem_of_seq in Hi. lia. }
  assert (Hne : merged ≠ []).
  { destruct (rows_sum_nonzero _ _ H0) as (i & Hi & Hrows).
    apply Hin in Hi.
    destruct (page_ok_cell E cid year_dir i w (Hok i Hi)) as [[Hz _]|[_ (c & Hc & Hcell)]];
      [contradiction|].
    apply (concat_nonempty _ c); [|exact Hc].
    apply list_elem_of_In, in_map_iff. exists i. split.
    - unfold file_bytes. cbv zeta in Hcell. rewrite Hcell. reflexivity.
    - apply in_seq. lia. }
  destruct (merge_parts_run E parts (final_path_of year_dir cid) w1)
    as (w2 & ok & msg & Hm & Hnet2 & (evs2 & Hlog2 & Hevs2 & Hopen) & Hcases).
  { unfold parts. intros Hin'. apply list_elem_of_In, in_map_iff in Hin' as (i & Hi & _).
    symmetry in Hi. exact (final_not_part _ _ _ Hi). }
  { intros sz. rewrite Hframe; [apply Hfinal|]. intros i. apply final_not_part. }
  { intros p Hp sz. unfold parts in Hp.
    apply list_elem_of_In, in_map_iff in Hp as (i & <- & Hi). apply in_seq in Hi.
    rewrite Hcells by lia.
    destruct (page_ok_cell E cid year_dir i w (Hok i ltac:(lia)))
      as [[_ Hc]|[_ (c & _ & Hc)]]; cbv zeta in Hc; rewrite Hc; discriminate. }
  cbv zeta in Hcases. rewrite Hmerged in Hcases.
  unfold bind at 1. rewrite Hm.
  assert (Hevs12 : fs_log w2 = fs_log w ++ (evs ++ evs2)).
  { rewrite Hlog2, Hlog, app_assoc. reflexivity. }
  destruct Hcases as [(Hnil & _)|[(_ & -> & Hfiles)|(_ & -> & Hfiles & Hcount & _)]];
    [contradiction| |].
  - exists w2, false, msg. cbn [negb]. split; [reflexivity|].
    split; [rewrite Hnet2; exact Hnet|]. split.
    + exists (evs ++ evs2). split; [exact Hevs12|]. split; [contradiction|].
      intros _. apply elem_of_app. right. exact Hopen.
    + right. left. split; [exact H0|]. split; [reflexivity|].
      rewrite Hfiles. apply lookup_delete_eq.
  - cbn [negb].
    destruct (cleanup_loop_frame parts w2) as (Hd & Hf3 & Hn3 & (evs3 & Hlog3 & _)).
    exists (snd (cleanup_loop parts w2)), true,
           ("downloaded_big_ok_pages=" +:+ str_of_Z (ceil_div expected_total PAGE_LIMIT)
            +:+ "_rows~" +:+ str_of_Z total)%string.
    split.
    { unfold bind, try_except, ret.
      destruct (cleanup_loop parts w2) as [[[]|e|] w3]; simpl in *;
        [reflexivity|reflexivity|congruence]. }
    split; [rewrite Hn3, Hnet2; exact Hnet|]. split.
    + exists (evs ++ evs2 ++ evs3). split.
      * rewrite Hlog3, Hevs12, <- !app_assoc. reflexivity.
      * split; [contradiction|]. intros _.
        apply elem_of_app. right. apply elem_of_app. left. exact Hopen.
    + right. right. split; [exact H0|]. split; [reflexivity|]. split; [reflexivity|].
      split; [|exact Hcount].
      rewrite Hf3.
      * rewrite Hfiles. apply lookup_insert_eq.
      * unfold parts. intros Hin'.
        apply list_elem_of_In, in_map_iff in Hin' as (i & Hi & _).
        symmetry in Hi. exact (final_not_part _ _ _ Hi).
Qed.

(** ** When the merge is accepted *)

(** A page reported as successful reports a number of data rows that is not
    negative. *)
Lemma fetch_ok_rows (E : environment) (cid : string) (offset : Z)
    (part_path : string) (is_first : bool) (w w' : world)
    (msg : string) (hl dl : Z) :
  fetch_page_to_partfile E cid offset part_path is_first w = (Val (true, msg, hl, dl), w') →
  0 <= dl.
Proof.
  intros Hrun.
  destruct (request_uniform E cid offset) as (r & used & Hnd & _ & Hreq).
  specialize (Hreq w).
  destruct r as [resp|e|]; [| |congruence].
  - destruct (Z.eq_dec (status_code resp) 200) as [Hst|Hst].
    + pose proof (fetch_200 E cid offset part_path is_first w _ resp Hreq eq_refl Hst) as H.
      cbv zeta in H.
      destruct (files w !! part_path) as [[d|sz]|] eqn:Hcell.
      * destruct H as (w3 & _ & H). destruct (stream_err resp).
        -- destruct H as [H _]. rewrite H in Hrun. discriminate.
        -- destruct H as [H _]. rewrite H in Hrun. injection Hrun as _ _ <- <-.
           apply stream_lines_rows.
      * destruct H as (m & H). rewrite H in Hrun. discriminate.
      * destruct H as (w3 & _ & H). destruct (stream_err resp).
        -- destruct H as [H _]. rewrite H in Hrun. discriminate.
        -- destruct H as [H _]. rewrite H in Hrun. injection Hrun as _ _ <- <-.
           apply stream_lines_rows.
    + rewrite (fetch_http_error _ _ _ _ _ _ _ _ Hreq Hst) in Hrun. discriminate.
  - rewrite (fetch_request_error _ _ _ _ _ _ _ _ Hreq) in Hrun. discriminate.
Qed.

Lemma page_ok_rows (E : environment) (cid year_dir : string) (i : nat) (w : world) :
  page_ok (page_result_at E cid year_dir i w) = true →
  0 <= page_rows (page_result_at E cid year_dir i w).
Proof.
  intros Hok.
  pose proof (page_fetch_result E cid year_dir i w) as Hres.
  destruct (page_result_at E cid year_dir i w) as [[[ok msg] hl] dl].
  unfold page_ok, page_rows in *. simpl in Hok. subst ok.
  assert (Hrun : page_fetch E cid year_dir i w
                 = (Val (true, msg, hl, dl), snd (page_fetch E cid year_dir i w))).
  { destruct (page_fetch E cid year_dir i w) as [r w']. simpl in Hres. subst r. reflexivity. }
  exact (fetch_ok_rows _ _ _ _ _ _ _ _ _ _ Hrun).
Qed.

Lemma rows_all_zero (f : nat → Z) (l : list nat) :
  (∀ i, i ∈ l → 0 <= f i) →
  foldr Z.add 0 (map f l) = 0 → ∀ i, i ∈ l → f i = 0.
Proof.
  induction l as [|j l IH]; cbn [map foldr]; intros Hpos Hsum i Hi; [inversion Hi|].
  assert (Hrest : 0 <= foldr Z.add 0 (map f l)).
  { clear -Hpos. induction l as [|k l IH]; cbn [map foldr]; [lia|].
    assert (0 <= f k) by (apply Hpos; right; left).
    assert (0 <= foldr Z.add 0 (map f l)); [|lia].
    apply IH. intros i Hi. apply elem_of_cons in Hi as [->|Hi].
    - apply Hpos. left.
    - apply Hpos. right. right. exact Hi. }
  pose proof (Hpos j ltac:(left)) as Hj.
  apply elem_of_cons in Hi as [->|Hi]; [lia|].
  apply IH; [|lia|exact Hi]. intros k Hk. apply Hpos. right. exact Hk.
Qed.

Lemma concat_all_nil {A} (ls : list (list A)) :
  (∀ c, c ∈ ls → c = []) → concat ls = [].
Proof.
  induction ls as [|x ls IH]; intros H; [reflexivity|]. cbn [concat].
  rewrite (H x ltac:(left)), IH; [reflexivity|]. intros c Hc. apply H. right. exact Hc.
Qed.

(** What the validator answers for a file depends on the bytes of the file
    only. *)
Lemma validate_of_bytes (E : environment) (p : string) (n : Z) (w : world) (d : list Z) :
  files w !! p = Some (File d) →
  validate_header_min_cols E p n w
  = (fst (validate_header_min_cols E p n (world_of {[p := File d]})), w).
Proof.
  intros H. rewrite (validate_header_file _ _ _ _ _ H).
  rewrite (validate_header_file E p n (world_of {[p := File d]}) d
             ltac:(apply lookup_singleton_eq)).
  reflexivity.
Qed.

(** The merge is accepted as soon as the concatenation of the parts, in list
    order, has two lines and a header that passes validation: the parts
    really are copied into the final path before it is checked. *)
Lemma merge_parts_accepts (E : environment) (parts : list string) (final_path : string)
    (w : world) :
  final_path ∉ parts →
  (∀ sz, files w !! final_path ≠ Some (Dir sz)) →
  (∀ p, p ∈ parts → ∀ sz, files w !! p ≠ Some (Dir sz)) →
  let merged := concat (map (file_bytes (files w)) parts) in
  (2 <= line_count merged)%nat →
  fst (validate_header_min_cols E final_path EXPECTED_MIN_COLS
                                (world_of {[final_path := File merged]}))
  = Val (true, ""%string) →
  fst (merge_parts E parts final_path w) = Val (true, "merged_ok"%string).
Proof.
  intros Hnotin Hfinal Hnodir merged Hcount Hvalid.
  assert (Hclear : ∃ w1,
            (∀ k : unit → M (bool * string),
               (ex <- path_exists final_path ;;
                bind (if ex then unlink final_path else ret tt) k) w = k tt w1)
            ∧ files w1 = delete final_path (files w)).
  { destruct (files w !! final_path) as [[d|sz]|] eqn:Hc.
    - eexists (mkWorld _ _ _). split; [|reflexivity].
      intros k. rewrite run_path_exists.
      rewrite bool_decide_eq_true_2 by (rewrite Hc; eauto).
      rewrite (run_unlink_file _ _ _ _ Hc). reflexivity.
    - exfalso. apply (Hfinal sz). reflexivity.
    - exists w. split; [|symmetry; apply delete_id, Hc].
      intros k. rewrite run_path_exists.
      rewrite bool_decide_eq_false_2 by (rewrite Hc; intros [x Hx]; discriminate).
      reflexivity. }
  destruct Hclear as (w1 & Hrun1 & Hf1).
  set (w2 := mkWorld (<[final_path := File []]> (files w1))
                     (fs_log w1 ++ [EvOpenW final_path]) (net_log w1)).
  destruct (merge_write_loop_run parts final_path Hnotin w2 [])
    as (w3 & Hrun3 & Hf3 & _).
  { apply lookup_insert_eq. }
  { intros p Hp sz. unfold w2. cbn [files].
    rewrite lookup_insert_ne by (intros ->; auto).
    rewrite Hf1, lookup_delete_ne by (intros ->; auto). apply Hnodir, Hp. }
  assert (Hmerged : concat (map (file_bytes (files w2)) parts) = merged).
  { unfold merged. f_equal. apply map_ext_in. intros q Hq. unfold w2. cbn [files].
    assert (final_path ≠ q) by (intros ->; apply Hnotin, list_elem_of_In, Hq).
    rewrite file_bytes_insert_ne, Hf1, file_bytes_delete_ne by assumption. reflexivity. }
  rewrite Hmerged in Hf3. simpl app in Hf3.
  assert (Hc3 : files w3 !! final_path = Some (File merged))
    by (rewrite Hf3; apply lookup_insert_eq).
  assert (Hhead : ∀ k : M (bool * string),
            (ex <- path_exists final_path ;;
             (if ex then unlink final_path else ret tt) ;;;
             open_w final_path ;;;
             merge_write_loop parts final_path ;;; k) w = k w3).
  { intros k. rewrite (Hrun1 (fun _ => _)).
    rewrite run_open_w by (intros sz; rewrite Hf1, lookup_delete_eq; discriminate).
    fold w2. rewrite (bind_val _ _ _ _ _ Hrun3). reflexivity. }
  unfold merge_parts, try_except. rewrite Hhead.
  rewrite run_path_exists. rewrite bool_decide_eq_true_2 by (rewrite Hc3; eauto).
  rewrite (run_stat_size_file _ _ _ _ Hc3). cbn [negb orb].
  destruct (Z.eqb_spec (Z.of_nat (length merged)) 0) as [H0|Hn0].
  { assert (merged = []) as Hm by (destruct merged; [reflexivity|simpl in H0; lia]).
    rewrite Hm in Hcount. vm_compute in Hcount. lia. }
  rewrite (bind_val _ _ _ _ _ (count_lines_quick_file _ _ _ Hc3)).
  rewrite count_loop_two.
  destruct (Nat.ltb_spec (length (bytes_lines_from [] merged)) 2) as [Hlt|_];
    [unfold line_count in Hcount; lia|].
  pose proof (validate_of_bytes E final_path EXPECTED_MIN_COLS w3 merged Hc3) as Hval.
  rewrite Hvalid in Hval. rewrite (bind_val _ _ _ _ _ Hval). reflexivity.
Qed.

(** The verdict of [merge_parts] is decided by the concatenation of the
    parts in list order, and by nothing else. *)
Lemma merge_parts_verdict (E : environment) (parts : list string) (final_path : string)
    (w : world) :
  final_path ∉ parts →
  (∀ sz, files w !! final_path ≠ Some (Dir sz)) →
  (∀ p, p ∈ parts → ∀ sz, files w !! p ≠ Some (Dir sz)) →
  let merged := concat (map (file_bytes (files w)) parts) in
  ∀ (w' : world) (ok : bool) (msg : string),
    merge_parts E parts final_path w = (Val (ok, msg), w') →
    ok = true
    ↔ (2 <= line_count merged)%nat
      ∧ fst (validate_header_min_cols E final_path EXPECTED_MIN_COLS
                                      (world_of {[final_path := File merged]}))
        = Val (true, ""%string).
Proof.
  intros Hnotin Hfinal Hnodir merged w' ok msg Hrun. split.
  - intros ->.
    destruct (merge_parts_run E parts final_path w Hnotin Hfinal Hnodir)
      as (w2 & ok2 & msg2 & Hrun2 & _ & _ & Hcases).
    rewrite Hrun in Hrun2. injection Hrun2 as <- <- <-.
    cbv zeta in Hcases. fold merged in Hcases.
    destruct Hcases as [(_ & Hf & _)|[(_ & Hf & _)|(_ & _ & Hfiles & Hcount & Hval)]];
      [discriminate|discriminate|].
    split; [exact Hcount|].
    assert (Hc : files w' !! final_path = Some (File merged))
      by (rewrite Hfiles; apply lookup_insert_eq).
    rewrite (validate_of_bytes E _ _ _ _ Hc) in Hval.
    injection Hval as Hval. exact Hval.
  - intros [Hcount Hvalid].
    pose proof (merge_parts_accepts E parts final_path w Hnotin Hfinal Hnodir Hcount Hvalid)
      as Hacc.
    rewrite Hrun in Hacc. cbn [fst] in Hacc. injection Hacc as -> _. reflexivity.
Qed.

(** The verdict of the parallel downloader when no page failed: the run
    succeeds exactly when the parts, concatenated in ascending page order,
    have two lines and a header that passes validation. *)
Lemma big_verdict (E : environment) (cid year_dir : string) (expected_total page_workers : Z)
    (sched : list nat) (w : world) :
  0 < ceil_div expected_total PAGE_LIMIT → 0 < page_workers →
  sched ≡ₚ seq 0 (page_count expected_total) →
  (∀ sz, files w !! final_path_of year_dir cid ≠ Some (Dir sz)) →
  (∀ i, (i < page_count expected_total)%nat →
        page_ok (page_result_at E cid year_dir i w) = true) →
  let merged :=
    concat (map (fun i => file_bytes (files (snd (page_fetch E cid year_dir i w)))
                                     (part_path_of year_dir cid i))
                (seq 0 (page_count expected_total))) in
  ∀ (w' : world) (ok : bool) (msg : string),
    download_big_parallel_pages E cid expected_total year_dir page_workers sched w
    = (Val (cid, YEAR, ok, msg), w') →
    ok = true
    ↔ (2 <= line_count merged)%nat
      ∧ fst (validate_header_min_cols E (final_path_of year_dir cid) EXPECTED_MIN_COLS
               (world_of {[final_path_of year_dir cid := File merged]}))
        = Val (true, ""%string).
Proof.
  intros Hpages Hworkers Hperm Hfinal Hok merged w' ok msg.
  destruct (sched_complete _ _ Hperm) as [Hnd Hin].
  destruct (big_collected E cid year_dir expected_total page_workers sched w
              Hpages Hworkers Hperm)
    as (w1 & Hrun & Hframe & Hcells & _).
  rewrite Hrun. clear Hrun.
  assert (Hhf : hard_fails_of (map (fun i => (i, page_result_at E cid year_dir i w)) sched) = []).
  { apply hard_fails_of_nil. apply Forall_forall. intros ir Hir.
    apply list_elem_of_In, in_map_iff in Hir as (i & <- & Hi).
    apply Hok, Hin, list_elem_of_In, Hi. }
  unfold big_after_pages. cbv zeta. rewrite Hhf.
  set (parts := map (part_path_of year_dir cid) (seq 0 (page_count expected_total))).
  assert (Hmerged : concat (map (file_bytes (files w1)) parts) = merged).
  { unfold parts, merged.
    rewrite (merged_of_cells year_dir cid (files w1)
               (fun i => files (snd (page_fetch E cid year_dir i w))
                         !! part_path_of year_dir cid i)).
    - reflexivity.
    - intros i Hi. apply Hcells. apply elem_of_seq in Hi. lia. }
  match goal with |- context [?t =? 0] => destruct (Z.eqb_spec t 0) as [H0|H0] end.
  { (* no data row at all: no part was left, and nothing is merged *)
    intros [= <- _ _].
    assert (Hnil : merged = []).
    { unfold merged. apply concat_all_nil. intros c Hc.
      apply list_elem_of_In, in_map_iff in Hc as (i & <- & Hi). apply in_seq in Hi.
      assert (Hrows : page_rows (page_result_at E cid year_dir i w) = 0).
      { apply (rows_all_zero (fun i => page_rows (page_result_at E cid year_dir i w)) sched).
        - intros j Hj. apply page_ok_rows, Hok, Hin, Hj.
        - exact H0.
        - apply Hin. lia. }
      destruct (page_ok_cell E cid year_dir i w (Hok i ltac:(lia)))
        as [[_ Hc]|[Hnz _]]; [|contradiction].
      cbv zeta in Hc. unfold file_bytes. rewrite Hc. reflexivity. }
    split; [discriminate|]. intros [Hcount _]. rewrite Hnil in Hcount.
    vm_compute in Hcount. lia. }
  assert (Hnotin : final_path_of year_dir cid ∉ parts).
  { unfold parts. intros Hin'. apply list_elem_of_In, in_map_iff in Hin' as (i & Hi & _).
    symmetry in Hi. exact (final_not_part _ _ _ Hi). }
  assert (Hfinal1 : ∀ sz, files w1 !! final_path_of year_dir cid ≠ Some (Dir sz)).
  { intros sz. rewrite Hframe; [apply Hfinal|]. intros i. apply final_not_part. }
  assert (Hparts : ∀ p, p ∈ parts → ∀ sz, files w1 !! p ≠ Some (Dir sz)).
  { intros p Hp sz. unfold parts in Hp.
    apply list_elem_of_In, in_map_iff in Hp as (i & <- & Hi). apply in_seq in Hi.
    rewrite Hcells by lia.
    destruct (page_ok_cell E cid year_dir i w (Hok i ltac:(lia)))
      as [[_ Hc]|[_ (c & _ & Hc)]]; cbv zeta in Hc; rewrite Hc; discriminate. }
  destruct (merge_parts_run E parts (final_path_of year_dir cid) w1 Hnotin Hfinal1 Hparts)
    as (w2 & okm & msgm & Hm & _).
  pose proof (merge_parts_verdict E parts (final_path_of year_dir cid) w1
                Hnotin Hfinal1 Hparts w2 okm msgm Hm) as Hverdict.
  cbv zeta in Hverdict. rewrite Hmerged in Hverdict.
  unfold bind at 1. rewrite Hm. destruct okm; cbn [negb].
  - destruct (cleanup_loop_frame parts w2) as (Hd & _).
    unfold bind, try_except, ret.
    destruct (cleanup_loop parts w2) as [[[]|e|] w3]; simpl in *; [| |congruence].
    + intros [= <- _ _]. exact Hverdict.
    + intros [= <- _ _]. exact Hverdict.
  - intros [= <- _ _]. exact Hverdict.
Qed.

(** ** Hard failures stop the entity run before the merge *)



(** A page that is throttled on every attempt fails the entity run as well. *)
Example throttled_page_fails_run :
  fst (download_big_parallel_pages (env_of (throttled_server 429)) "GIANT" 12000 "2023" 10
                                   [0; 1; 2]%nat empty_world)
  = Val ("GIANT"%string, YEAR, false, "page_download_failed:[3 failed]"%string)
  ∧ files (snd (download_big_parallel_pages (env_of (throttled_server 429)) "GIANT" 12000
                                            "2023" 10 [0; 1; 2]%nat empty_world)) = ∅
  ∧ length (net_log (snd (download_big_parallel_pages (env_of (throttled_server 429)) "GIANT"
                                                      12000 "2023" 10 [0; 1; 2]%nat
                                                      empty_world))) = 15%nat.
Proof. vm_compute. auto. Qed.

(** ** Page planning and the order of the merge *)

(** C1.  The parallel downloader plans [ceil(expected_total / PAGE_LIMIT)]
    pages (at least two when the expected total exceeds the page size) and
    fails with [bad_expected_total], touching nothing, when that number is
    not positive.  Otherwise it submits one task per page index, page [i] at
    offset [i * PAGE_LIMIT] with only page 0 marked as the first page, and
    each page is requested in one series of attempts at its own offset.
    Whatever the order [sched] in which the pages complete, the run succeeds
    exactly when every page succeeded and the parts, concatenated in
    ascending page-index order, have at least two lines and a header that
    passes validation; the final file then holds that concatenation. *)
Theorem parallel_pages_merged_in_order (E : environment) (cid year_dir : string)
    (expected_total page_workers : Z) (sched : list nat) (w : world) :
  0 < page_workers →
  sched ≡ₚ seq 0 (page_count expected_total) →
  (∀ sz, files w !! final_path_of year_dir cid ≠ Some (Dir sz)) →
  let pages := ceil_div expected_total PAGE_LIMIT in
  let run := download_big_parallel_pages E cid expected_total year_dir page_workers sched w in
  let merged :=
    concat (map (fun i => file_bytes (files (snd (page_fetch E cid year_dir i w)))
                                     (part_path_of year_dir cid i))
                (seq 0 (page_count expected_total))) in
  ((pages - 1) * PAGE_LIMIT < expected_total ∧ expected_total <= pages * PAGE_LIMIT)
  ∧ (PAGE_LIMIT < expected_total → 2 <= pages)
  ∧ (pages <= 0 → run = (Val (cid, YEAR, false, "bad_expected_total"%string), w))
  ∧ (0 < pages →
     length (page_jobs year_dir cid (page_count expected_total)) = page_count expected_total
     ∧ (∀ i, (i < page_count expected_total)%nat →
             page_jobs year_dir cid (page_count expected_total) !! i
             = Some (Z.of_nat i * PAGE_LIMIT, part_path_of year_dir cid i,
                     bool_decide (i = 0%nat)))
     ∧ ∃ w' ok msg,
         run = (Val (cid, YEAR, ok, msg), w')
         ∧ (∃ blocks, net_log w' = net_log w ++ concat blocks
                      ∧ Forall2 page_requests sched blocks)
         ∧ (ok = true
            ↔ (∀ i, (i < page_count expected_total)%nat →
                    page_ok (page_result_at E cid year_dir i w) = true)
              ∧ (2 <= line_count merged)%nat
              ∧ fst (validate_header_min_cols E (final_path_of year_dir cid)
                       EXPECTED_MIN_COLS
                       (world_of {[final_path_of year_dir cid := File merged]}))
                = Val (true, ""%string))
         ∧ (ok = true →
            files w' !! final_path_of year_dir cid = Some (File merged))).
Proof.
  intros Hworkers Hperm Hfinal pages run merged.
  split; [apply ceil_div_bounds; reflexivity|].
  split; [apply page_count_big|].
  split.
  { intros Hle. unfold run, download_big_parallel_pages. cbv zeta. fold pages.
    destruct (Z.leb_spec pages 0) as [_|]; [reflexivity|lia]. }
  intros Hpages.
  split; [apply page_jobs_length|]. split; [intros i Hi; apply page_jobs_lookup, Hi|].
  destruct (sched_complete _ _ Hperm) as [_ Hin].
  destruct (hard_fails_of (map (fun j => (j, page_result_at E cid year_dir j w)) sched))
    as [|hf hfs] eqn:Hhf.
  - apply hard_fails_of_nil in Hhf. rewrite Forall_forall in Hhf.
    assert (Hok : ∀ i, (i < page_count expected_total)%nat →
                       page_ok (page_result_at E cid year_dir i w) = true).
    { intros i Hi.
      apply (Hhf (i, page_result_at E cid year_dir i w)).
      apply list_elem_of_In, in_map_iff. exists i. split; [reflexivity|].
      apply list_elem_of_In, Hin, Hi. }
    destruct (big_merged E cid year_dir expected_total page_workers sched w
                Hpages Hworkers Hperm Hfinal Hok)
      as (w' & ok & msg & Hrun & Hnet & _ & Hcases).
    pose proof (big_verdict E cid year_dir expected_total page_workers sched w
                  Hpages Hworkers Hperm Hfinal Hok w' ok msg Hrun) as Hverdict.
    cbv zeta in Hverdict. fold merged in Hverdict.
    exists w', ok, msg. split; [exact Hrun|]. split; [exact Hnet|]. split.
    + split.
      * intros Ht. split; [exact Hok|]. apply Hverdict, Ht.
      * intros (_ & Hcount & Hvalid). apply Hverdict. split; assumption.
    + intros ->.
      destruct Hcases as [(_ & Hf & _)|[(_ & Hf & _)|(_ & _ & _ & Hfile & _)]];
        [discriminate|discriminate|exact Hfile].
  - destruct (big_collected E cid year_dir expected_total page_workers sched w
                Hpages Hworkers Hperm)
      as (w1 & Hrun & _ & _ & _ & Hnet).
    exists w1, false,
      ("page_download_failed:"
       +:+ repr_fails E (take 3 (hard_fails_of
              (map (fun j => (j, page_result_at E cid year_dir j w)) sched))))%string.
    split; [|split; [exact Hnet|split; [|discriminate]]].
    + unfold run. rewrite Hrun. unfold big_after_pages. cbv zeta. rewrite Hhf. reflexivity.
    + split; [discriminate|]. intros (Hok & _). exfalso.
      assert (Hnil : hard_fails_of
                       (map (fun j => (j, page_result_at E cid year_dir j w)) sched) = []).
      { apply hard_fails_of_nil, Forall_forall. intros ir Hir.
        apply list_elem_of_In, in_map_iff in Hir as (i & <- & Hi).
        apply Hok, Hin, list_elem_of_In, Hi. }
      rewrite Hnil in Hhf. discriminate.
Qed.

Lemma parallel_pages_merged_in_order_witness :
  2 <= ceil_div 12000 PAGE_LIMIT
  ∧ ∃ w' msg,
      download_big_parallel_pages (env_of giant_server) "GIANT" 12000 "2023" 10
                                  [2; 0; 1]%nat empty_world
      = (Val ("GIANT"%string, YEAR, true, msg), w')
      ∧ files w' !! final_path_of "2023" "GIANT"
        = Some (File (BOM ++ terminated (header_row 80 :: repeat (data_row 80) 5))).
Proof.
  destruct (parallel_pages_merged_in_order (env_of giant_server) "GIANT" "2023" 12000 10
              [2; 0; 1]%nat empty_world)
    as (_ & Hbig & _ & Hrun).
  - lia.
  - exact (perm_trans (perm_swap 0%nat 2%nat [1%nat])
                      (perm_skip 0%nat (perm_swap 1%nat 2%nat []))).
  - intros sz. discriminate.
  - split; [apply Hbig; reflexivity|].
    destruct Hrun as (_ & _ & w' & ok & msg & Hrun & _ & Hiff & Hfile); [reflexivity|].
    assert (Hok : ok = true).
    { apply Hiff. split; [|split].
      - intros [|[|[|i]]] Hi; [reflexivity|reflexivity|reflexivity|].
        exfalso. vm_compute in Hi. lia.
      - vm_compute. lia.
      - vm_compute. reflexivity. }
    subst ok. exists w', msg. split; [exact Hrun|].
    rewrite (Hfile eq_refl). vm_compute. reflexivity.
Defined.

(** "GIANT", 12000 rows expected: three pages, requested at offsets 0, 5000
    and 10000 (here completing in the order 2, 0, 1), merged in page order. *)
Example giant_three_pages :
  page_count 12000 = 3%nat
  ∧ map fst (page_jobs "2023" "GIANT" (page_count 12000))
    = [(0, part_path_of "2023" "GIANT" 0); (5000, part_path_of "2023" "GIANT" 1);
       (10000, part_path_of "2023" "GIANT" 2)]
  ∧ map snd (page_jobs "2023" "GIANT" (page_count 12000)) = [true; false; false]
  ∧ let r := download_big_parallel_pages (env_of giant_server) "GIANT" 12000 "2023" 10
                                         [2; 0; 1]%nat empty_world in
    fst r = Val ("GIANT"%string, YEAR, true, "downloaded_big_ok_pages=3_rows~5"%string)
    ∧ net_log (snd r) = [(10000, 1%nat); (0, 1%nat); (5000, 1%nat)]
    ∧ files (snd r) !! final_path_of "2023" "GIANT"
      = Some (File (BOM ++ terminated (header_row 80 :: repeat (data_row 80) 5))).
Proof. vm_compute. auto 10. Qed.

(** The same pages completing in another order give the same file. *)
Example giant_order_independent :
  files (snd (download_big_parallel_pages (env_of giant_server) "GIANT" 12000 "2023" 10
                                          [0; 1; 2]%nat empty_world))
  = files (snd (download_big_parallel_pages (env_of giant_server) "GIANT" 12000 "2023" 10
                                            [2; 1; 0]%nat empty_world)).
Proof. vm_compute. reflexivity. Qed.

(** A non-positive expected total is rejected before anything is requested. *)
Example zero_expected_total :
  download_big_parallel_pages (env_of giant_server) "GIANT" 0 "2023" 10 [] empty_world
  = (Val ("GIANT"%string, YEAR, false, "bad_expected_total"%string), empty_world).
Proof. reflexivity. Qed.

(** ** The sequential downloader *)

Lemma request_page_response (E : environment) (cid : string) (offset : Z) :
  ∃ used : list nat,
    attempts_ok used
    ∧ page_response E cid offset ≠ Diverge
    ∧ ∀ w, request_with_manual_backoff E cid offset w
           = (page_response E cid offset, log_gets offset used w).
Proof.
  destruct (request_uniform E cid offset) as (r & used & Hnd & Hok & Hreq).
  exists used. unfold page_response. rewrite Hreq. cbn [fst].
  split; [exact Hok|]. split; [exact Hnd|]. exact Hreq.
Qed.

(** *** Line counts *)

Lemma bytes_lines_from_nonempty (cur data : list Z) :
  cur ≠ [] → bytes_lines_from cur data ≠ [].
Proof.
  revert cur. induction data as [|c rest IH]; intros cur Hcur; cbn [bytes_lines_from].
  - destruct cur; [congruence|discriminate].
  - destruct (c =? NL); [discriminate|]. apply IH. destruct cur; discriminate.
Qed.

Lemma bytes_lines_from_app_le (cur a b : list Z) :
  (length (bytes_lines_from cur a) <= length (bytes_lines_from cur (a ++ b)))%nat.
Proof.
  revert cur. induction a as [|c a IH]; intros cur; cbn [bytes_lines_from app].
  - destruct cur as [|x cur]; [simpl; lia|].
    pose proof (bytes_lines_from_nonempty (x :: cur) b ltac:(discriminate)) as H.
    destruct (bytes_lines_from (x :: cur) b); [congruence|simpl; lia].
  - destruct (c =? NL); [cbn [length]; specialize (IH []); lia|apply IH].
Qed.

Lemma line_count_app_le (a b : list Z) : (line_count a <= line_count (a ++ b))%nat.
Proof. apply bytes_lines_from_app_le. Qed.

Lemma bytes_lines_from_newline (cur a b : list Z) :
  (S (length (bytes_lines_from [] b))
   <= length (bytes_lines_from cur (a ++ NL :: b)))%nat.
Proof.
  revert cur. induction a as [|c a IH]; intros cur; cbn [bytes_lines_from app].
  - change (NL =? NL) with true. cbn [length]. lia.
  - destruct (c =? NL); [cbn [length]; specialize (IH []); lia|apply IH].
Qed.

Lemma line_count_two (a b c : list Z) :
  (2 <= line_count (a ++ NL :: b ++ NL :: c))%nat.
Proof.
  unfold line_count.
  pose proof (bytes_lines_from_newline [] a (b ++ NL :: c)) as H1.
  pose proof (bytes_lines_from_newline [] b c) as H2. lia.
Qed.

Lemma written_nonempty_eq (sig : bool) (bs : list Z) :
  bs ≠ [] → written sig bs = (if sig then BOM else []) ++ bs.
Proof. intros H. destruct bs; [congruence|reflexivity]. Qed.

(** The first page with data leaves a header line and at least one row. *)
Lemma first_page_table (lines : list (list Z)) :
  data_lines (stream_lines true lines) ≠ 0 →
  header_written (stream_lines true lines) = true
  ∧ 0 < data_lines (stream_lines true lines)
  ∧ last (written true (out (stream_lines true lines))) = Some NL
  ∧ (2 <= line_count (written true (out (stream_lines true lines))))%nat.
Proof.
  rewrite stream_lines_spec. destruct (nonempty_lines lines) as [|h t];
    cbn [data_lines header_written out]; [congruence|].
  intros Hn. destruct t as [|l t]; [exfalso; apply Hn; reflexivity|].
  split; [reflexivity|]. split; [cbn [length]; lia|].
  assert (Hout : (h ++ [NL]) ++ terminated (l :: t)
                 = h ++ NL :: l ++ NL :: terminated t).
  { unfold terminated. cbn [map concat]. rewrite <- !app_assoc. reflexivity. }
  rewrite written_nonempty_eq by (destruct h; discriminate).
  split.
  - rewrite !last_app.
    destruct (terminated_last (l :: t)) as [Hnil|Hl].
    + discriminate Hnil.
    + rewrite Hl. reflexivity.
  - rewrite Hout, app_assoc. apply line_count_two.
Qed.

(** *** One pass of the loop *)

Lemma write_lines_run (p : string) (append sig write_first : bool) (resp : response)
    (w : world) :
  (∀ sz, files w !! p ≠ Some (Dir sz)) →
  let st := stream_lines write_first (body resp) in
  let old := if append then file_bytes (files w) p else [] in
  ∃ w',
    write_lines p append sig write_first resp w
    = (match stream_err resp with Some e => Exc e | None => Val st end, w')
    ∧ files w' = <[p := File (old ++ written sig (out st))]> (files w)
    ∧ net_log w' = net_log w.
Proof.
  intros Hnd st old. destruct append.
  2:{ exact (write_lines_fresh p sig write_first resp w Hnd). }
  unfold write_lines, old, file_bytes. fold st.
  destruct (files w !! p) as [[d|sz]|] eqn:Hc; [| exfalso; exact (Hnd sz eq_refl) |].
  - rewrite (run_open_a_file _ _ _ _ Hc).
    destruct (out st) as [|b bs] eqn:Hout.
    + rewrite run_ret. cbn [written]. rewrite app_nil_r.
      destruct (stream_err resp);
        (eexists; split; [reflexivity|]; cbn [files net_log];
         rewrite insert_id by exact Hc; split; reflexivity).
    + erewrite run_write_bytes_file by (cbn [files]; exact Hc).
      destruct (stream_err resp);
        (eexists; split; [reflexivity|]; cbn [files net_log]; split; reflexivity).
  - unfold bind at 1. unfold open_a. rewrite Hc. unfold set_files.
    destruct (out st) as [|b bs] eqn:Hout.
    + rewrite run_ret. cbn [written app].
      destruct (stream_err resp);
        (eexists; split; [reflexivity|]; cbn [files net_log]; split; reflexivity).
    + erewrite run_write_bytes_file by (cbn [files]; apply lookup_insert_eq).
      destruct (stream_err resp);
        (eexists; split; [reflexivity|]; cbn [files net_log];
         rewrite insert_insert_eq; split; reflexivity).
Qed.

Lemma small_loop_unfold (E : environment) (fuel : nat) (cid tmp : string)
    (offset total : Z) (wh : bool) (w : world) :
  ∃ used : list nat,
    attempts_ok used
    ∧ small_loop E (S fuel) cid tmp offset total wh w
      = match page_response E cid offset with
        | Val resp =>
            if negb (status_code resp =? 200) then
              (try_unlink tmp ;;;
               ret (LoopReturn (cid, YEAR, false, http_error_msg (status_code resp) offset)))
                (log_gets offset used w)
            else
              (st <- write_lines tmp (negb (offset =? 0)) (offset =? 0) (offset =? 0) resp ;;
               truncate_trailing_partial_row tmp ;;;
               if data_lines st =? 0
               then ret (LoopBreak total (wh || header_written st))
               else small_loop E fuel cid tmp (offset + PAGE_LIMIT) (total + data_lines st)
                               (wh || header_written st))
                (log_gets offset used w)
        | Exc e =>
            (try_unlink tmp ;;;
             ret (LoopReturn (cid, YEAR, false, "request_error:" +:+ exn_msg e)))
              (log_gets offset used w)
        | Diverge => (Diverge, log_gets offset used w)
        end.
Proof.
  destruct (request_page_response E cid offset) as (used & Hok & Hnd & Hreq).
  exists used. split; [exact Hok|]. specialize (Hreq w).
  cbn [small_loop].
  destruct (page_response E cid offset) as [resp|e|]; [| |congruence].
  - rewrite (bind_val _ _ _ _ _ (catching_any_val _ _ _ _ Hreq)).
    destruct (negb (status_code resp =? 200)); reflexivity.
  - rewrite (bind_val _ _ _ _ _ (catching_any_exc _ _ _ _ Hreq)). reflexivity.
Qed.

Lemma small_loop_page (E : environment) (fuel : nat) (cid tmp : string)
    (offset total : Z) (wh : bool) (w : world) (resp : response) :
  page_response E cid offset = Val resp →
  status_code resp = 200 →
  stream_err resp = None →
  (∀ sz, files w !! tmp ≠ Some (Dir sz)) →
  let first := offset =? 0 in
  let st := stream_lines first (body resp) in
  let old := if first then [] else file_bytes (files w) tmp in
  (old = [] ∨ last old = Some NL) →
  ∃ w1 used,
    attempts_ok used
    ∧ files w1 = <[tmp := File (old ++ written first (out st))]> (files w)
    ∧ net_log w1 = net_log w ++ map (fun a : nat => (offset, a)) used
    ∧ small_loop E (S fuel) cid tmp offset total wh w
      = if data_lines st =? 0
        then (Val (LoopBreak total (wh || header_written st)), w1)
        else small_loop E fuel cid tmp (offset + PAGE_LIMIT) (total + data_lines st)
                        (wh || header_written st) w1.
Proof.
  intros Hresp Hst Herr Hnd first st old Hold.
  destruct (small_loop_unfold E fuel cid tmp offset total wh w) as (used & Hok & Hrun).
  rewrite Hresp, Hst in Hrun. change (negb (200 =? 200)) with false in Hrun.
  cbv iota in Hrun.
  destruct (write_lines_run tmp (negb first) first first resp (log_gets offset used w) Hnd)
    as (w1 & Hw & Hf & Hn).
  rewrite Herr in Hw. fold st in Hw.
  assert (Hold' : (if negb first then file_bytes (files (log_gets offset used w)) tmp else [])
                  = old).
  { unfold old. destruct first; reflexivity. }
  rewrite Hold' in Hf. cbn [files log_gets] in Hf.
  exists w1, used. split; [exact Hok|]. split; [exact Hf|]. split; [exact Hn|].
  rewrite Hrun. fold first. rewrite (bind_val _ _ _ _ _ Hw). fold st.
  rewrite (run_truncate_noop tmp (old ++ written first (out st))).
  - destruct (data_lines st =? 0); reflexivity.
  - rewrite Hf. apply lookup_insert_eq.
  - destruct (written_last first (out st) (stream_lines_out_last first (body resp)))
      as [Hw0|Hw1].
    + rewrite Hw0, app_nil_r. exact Hold.
    + right. rewrite last_app, Hw1. reflexivity.
Qed.

(** *** What the loop may touch *)

Lemma keeps_to_confined {A} (p : string) (m : M A) : confined p m → keeps_to p m.
Proof. intros H w. destruct (H w) as (Hf & Hl & _). split; assumption. Qed.

Lemma keeps_to_ret {A} (p : string) (a : A) : keeps_to p (ret a).
Proof. apply keeps_to_confined, confined_ret. Qed.

Lemma keeps_to_bind {A B} (p : string) (m : M A) (k : A → M B) :
  keeps_to p m → (∀ a, keeps_to p (k a)) → keeps_to p (bind m k).
Proof.
  intros Hm Hk w. unfold bind. destruct (Hm w) as (Hf & evs & Hl & Hevs).
  destruct (m w) as [[a|e|] w1]; cbn [fst snd] in *;
    [|split; [exact Hf|exists evs; split; assumption]..].
  destruct (Hk a w1) as (Hf2 & evs2 & Hl2 & Hevs2). split.
  - intros q Hq. rewrite Hf2, Hf by assumption. reflexivity.
  - exists (evs ++ evs2). rewrite Hl2, Hl, app_assoc. split; [reflexivity|].
    apply Forall_app. split; assumption.
Qed.

Lemma keeps_to_after_request {A} (p : string) (m : M A) (offset : Z) (used : list nat)
    (w : world) :
  keeps_to p m →
  (∀ q, q ≠ p → files (snd (m (log_gets offset used w))) !! q = files w !! q)
  ∧ (∃ evs, fs_log (snd (m (log_gets offset used w))) = fs_log w ++ evs
            ∧ Forall (fun ev => ∀ q, q ∈ event_paths ev → q = p) evs).
Proof. intros H. exact (H (log_gets offset used w)). Qed.

Lemma keeps_to_small_loop (E : environment) (cid tmp : string) (fuel : nat) :
  ∀ offset total wh, keeps_to tmp (small_loop E fuel cid tmp offset total wh).
Proof.
  induction fuel as [|fuel IH]; intros offset total wh w.
  - cbn [small_loop]. unfold diverge. cbn [snd]. split; [reflexivity|].
    exists []. rewrite app_nil_r. split; [reflexivity|constructor].
  - destruct (small_loop_unfold E fuel cid tmp offset total wh w) as (used & _ & ->).
    destruct (page_response E cid offset) as [resp|e|].
    + destruct (negb (status_code resp =? 200)).
      * apply keeps_to_after_request, keeps_to_confined. confined_auto.
      * apply keeps_to_after_request.
        apply keeps_to_bind; [apply keeps_to_confined, confined_write_lines|]. intros st.
        apply keeps_to_bind; [apply keeps_to_confined, confined_truncate_trailing_row|].
        intros _. destruct (data_lines st =? 0); [apply keeps_to_ret|apply IH].
    + apply keeps_to_after_request, keeps_to_confined. confined_auto.
    + cbn [snd log_gets files fs_log]. split; [reflexivity|].
      exists []. rewrite app_nil_r. split; [reflexivity|constructor].
Qed.

(** *** What the loop leaves when it ends at an empty page *)

Lemma write_lines_dir (p : string) (append sig write_first : bool) (resp : response)
    (w : world) (sz : Z) :
  files w !! p = Some (Dir sz) →
  write_lines p append sig write_first resp w = (Exc (os_error "Is a directory" p), w).
Proof.
  intros H. unfold write_lines, bind. destruct append; unfold open_a, open_w; rewrite H;
    reflexivity.
Qed.

Lemma small_loop_break_page (E : environment) (fuel : nat) (cid tmp : string)
    (offset total : Z) (wh : bool) (w w' : world) (total' : Z) (wh' : bool) :
  small_loop E (S fuel) cid tmp offset total wh w = (Val (LoopBreak total' wh'), w') →
  ∃ resp,
    page_response E cid offset = Val resp
    ∧ status_code resp = 200
    ∧ stream_err resp = None
    ∧ ∀ sz, files w !! tmp ≠ Some (Dir sz).
Proof.
  destruct (small_loop_unfold E fuel cid tmp offset total wh w) as (used & _ & ->).
  assert (Hret : ∀ o w0, (try_unlink tmp ;;; ret (LoopReturn o)) w0
                         ≠ (Val (LoopBreak total' wh'), w')).
  { intros o w0. unfold bind, try_unlink, try_except, ret.
    destruct (unlink tmp w0) as [[[]|e|] w1]; discriminate. }
  destruct (page_response E cid offset) as [resp|e|]; [| intros H; destruct (Hret _ _ H) |
                                                        discriminate].
  destruct (Z.eqb_spec (status_code resp) 200) as [Hst|Hst]; cbn [negb];
    [|intros H; destruct (Hret _ _ H)].
  intros Hrun. exists resp. split; [reflexivity|]. split; [exact Hst|].
  destruct (files w !! tmp) as [[d|sz]|] eqn:Hc.
  - destruct (write_lines_run tmp (negb (offset =? 0)) (offset =? 0) (offset =? 0) resp
                (log_gets offset used w)) as (w1 & Hw & _).
    { cbn [files log_gets]. rewrite Hc. discriminate. }
    destruct (stream_err resp) as [e|]; [|split; [reflexivity|discriminate]].
    rewrite (bind_exc _ _ _ _ _ Hw) in Hrun. discriminate.
  - rewrite (bind_exc _ _ _ _ _
               (write_lines_dir tmp _ _ _ resp (log_gets offset used w) sz Hc)) in Hrun.
    discriminate.
  - destruct (write_lines_run tmp (negb (offset =? 0)) (offset =? 0) (offset =? 0) resp
                (log_gets offset used w)) as (w1 & Hw & _).
    { cbn [files log_gets]. rewrite Hc. discriminate. }
    destruct (stream_err resp) as [e|]; [|split; [reflexivity|discriminate]].
    rewrite (bind_exc _ _ _ _ _ Hw) in Hrun. discriminate.
Qed.

Lemma holds_table_append (p : string) (w w1 : world) (x : list Z) :
  holds_table p w →
  x = [] ∨ last x = Some NL →
  files w1 = <[p := File (file_bytes (files w) p ++ x)]> (files w) →
  holds_table p w1.
Proof.
  intros (c & Hc & Hlast & Hcount) Hx Hf. unfold file_bytes in Hf. rewrite Hc in Hf.
  exists (c ++ x). split; [rewrite Hf; apply lookup_insert_eq|]. split.
  - destruct Hx as [->|Hx]; [rewrite app_nil_r; exact Hlast|].
    rewrite last_app, Hx. reflexivity.
  - pose proof (line_count_app_le c x). lia.
Qed.

Lemma small_loop_break (E : environment) (cid tmp : string) (fuel : nat) :
  ∀ offset total wh w total' wh' w',
    (offset = 0 ∧ total = 0 ∧ wh = false)
    ∨ (0 < offset ∧ 0 < total ∧ wh = true ∧ holds_table tmp w) →
    small_loop E fuel cid tmp offset total wh w = (Val (LoopBreak total' wh'), w') →
    total' = 0 ∨ (wh' = true ∧ total' ≠ 0 ∧ holds_table tmp w').
Proof.
  induction fuel as [|fuel IH]; intros offset total wh w total' wh' w' Hpre Hrun;
    [discriminate Hrun|].
  destruct (small_loop_break_page _ _ _ _ _ _ _ _ _ _ _ Hrun)
    as (resp & Hresp & Hst & Herr & Hnd).
  destruct (small_loop_page E fuel cid tmp offset total wh w resp Hresp Hst Herr Hnd)
    as (w1 & used & _ & Hf & _ & Hstep).
  { destruct Hpre as [(-> & _)|(Hoff & _ & _ & (c & Hc & Hlast & _))].
    - left. reflexivity.
    - right. destruct (Z.eqb_spec offset 0) as [|_]; [lia|].
      unfold file_bytes. rewrite Hc. exact Hlast. }
  rewrite Hstep in Hrun. clear Hstep.
  pose proof (stream_lines_rows (offset =? 0) (body resp)) as [Hrows0 _].
  destruct Hpre as [(-> & -> & ->)|(Hoff & Htot & -> & Htab)].
  - change (0 =? 0) with true in *. cbn [orb] in *.
    destruct (Z.eqb_spec (data_lines (stream_lines true (body resp))) 0) as [H0|H0].
    + injection Hrun as <- _ _. left. reflexivity.
    + destruct (first_page_table _ H0) as (Hhw & Hpos & Hlast & Hcount).
      refine (IH _ _ _ _ _ _ _ _ Hrun). right. cbn [app] in Hf.
      split; [unfold PAGE_LIMIT; lia|]. split; [lia|]. split; [exact Hhw|].
      eexists. split; [rewrite Hf; apply lookup_insert_eq|]. split; assumption.
  - destruct (Z.eqb_spec offset 0) as [|_]; [lia|]. cbn [orb] in *.
    assert (Htab1 : holds_table tmp w1).
    { apply (holds_table_append tmp w w1
               (written false (out (stream_lines false (body resp)))) Htab); [|exact Hf].
      apply written_last, stream_lines_out_last. }
    destruct (Z.eqb_spec (data_lines (stream_lines false (body resp))) 0) as [H0|H0].
    + injection Hrun as <- <- <-. right. split; [reflexivity|]. split; [lia|exact Htab1].
    + refine (IH _ _ _ _ _ _ _ _ Hrun). right. split; [unfold PAGE_LIMIT; lia|]. split; [lia|]. split; [reflexivity|].
      exact Htab1.
Qed.

(** ** The sequential loop, page by page *)

Lemma next_offset (j : nat) : Z.of_nat j * PAGE_LIMIT + PAGE_LIMIT = Z.of_nat (S j) * PAGE_LIMIT.
Proof. unfold PAGE_LIMIT. lia. Qed.

Lemma later_offset (j : nat) : (Z.of_nat (S j) * PAGE_LIMIT =? 0) = false.
Proof. apply Z.eqb_neq. unfold PAGE_LIMIT. lia. Qed.

Lemma pages_rows_nonneg (resps : list response) : ∀ j, 0 <= pages_rows j resps.
Proof.
  induction resps as [|r rest IH]; intros j; cbn [pages_rows]; [lia|].
  pose proof (stream_lines_rows (Z.of_nat j * PAGE_LIMIT =? 0) (body r)) as [H _].
  specialize (IH (S j)). unfold page_state. lia.
Qed.

Lemma small_loop_pages (E : environment) (cid tmp : string) (lastr : response)
    (resps : list response) :
  ∀ (j fuel : nat) (total : Z) (wh : bool) (w : world),
    (∀ sz, files w !! tmp ≠ Some (Dir sz)) →
    let old := if Z.of_nat j * PAGE_LIMIT =? 0 then [] else file_bytes (files w) tmp in
    (old = [] ∨ last old = Some NL) →
    pages_served E cid j resps lastr →
    (length resps < fuel)%nat →
    ∃ w' wh',
      small_loop E fuel cid tmp (Z.of_nat j * PAGE_LIMIT) total wh w
      = (Val (LoopBreak (total + pages_rows j resps) wh'), w')
      ∧ files w' = <[tmp := File (old ++ pages_bytes j (resps ++ [lastr]))]> (files w)
      ∧ ∃ blocks, net_log w' = net_log w ++ concat blocks
                  ∧ Forall2 page_requests (seq j (S (length resps))) blocks.
Proof.
  induction resps as [|r rest IH]; intros j fuel total wh w Hnd old Hold Hserved Hfuel.
  - destruct Hserved as (Hresp & Hst & Herr & Hrows).
    destruct fuel as [|fuel]; [simpl in Hfuel; lia|].
    destruct (small_loop_page E fuel cid tmp _ total wh w lastr Hresp Hst Herr Hnd Hold)
      as (w1 & used & Hused & Hf & Hn & Hstep).
    fold (page_state j lastr) in Hstep, Hf. fold (page_bytes j lastr) in Hf. fold old in Hf.
    rewrite Hrows in Hstep. change (0 =? 0) with true in Hstep. cbv iota in Hstep.
    exists w1, (wh || header_written (page_state j lastr))%bool.
    cbn [pages_rows pages_bytes app length seq]. rewrite Z.add_0_r, app_nil_r.
    split; [exact Hstep|]. split; [exact Hf|].
    exists [map (fun a : nat => (Z.of_nat j * PAGE_LIMIT, a)) used].
    cbn [concat]. rewrite app_nil_r. split; [exact Hn|].
    constructor; [|constructor]. exists used. split; [exact Hused|reflexivity].
  - destruct Hserved as (Hresp & Hst & Herr & Hrows & Hrest).
    destruct fuel as [|fuel]; [simpl in Hfuel; lia|].
    destruct (small_loop_page E fuel cid tmp _ total wh w r Hresp Hst Herr Hnd Hold)
      as (w1 & used & Hused & Hf & Hn & Hstep).
    fold (page_state j r) in Hstep, Hf. fold (page_bytes j r) in Hf. fold old in Hf.
    destruct (Z.eqb_spec (data_lines (page_state j r)) 0) as [|_]; [contradiction|].
    rewrite next_offset in Hstep.
    assert (Hcell : files w1 !! tmp = Some (File (old ++ page_bytes j r))).
    { rewrite Hf. apply lookup_insert_eq. }
    destruct (IH (S j) fuel (total + data_lines (page_state j r))
                 (wh || header_written (page_state j r))%bool w1)
      as (w' & wh' & Hrun & Hf' & blocks & Hn' & Hblocks).
    { intros sz. rewrite Hcell. discriminate. }
    { rewrite later_offset. unfold file_bytes. rewrite Hcell.
      unfold page_bytes.
      destruct (written_last (Z.of_nat j * PAGE_LIMIT =? 0) (out (page_state j r))
                  (stream_lines_out_last _ (body r))) as [H0|H1].
      - rewrite H0, app_nil_r. exact Hold.
      - right. rewrite last_app, H1. reflexivity. }
    { exact Hrest. }
    { simpl in Hfuel. lia. }
    rewrite later_offset in Hf'. unfold file_bytes in Hf'. rewrite Hcell in Hf'.
    exists w', wh'. cbn [pages_rows pages_bytes app length].
    split; [rewrite Hstep, Hrun; f_equal; f_equal; f_equal; lia|].
    split.
    + rewrite Hf', Hf, insert_insert_eq, <- app_assoc. reflexivity.
    + exists (map (fun a : nat => (Z.of_nat j * PAGE_LIMIT, a)) used :: blocks).
      cbn [concat]. split; [rewrite Hn', Hn, <- app_assoc; reflexivity|].
      change (seq j (S (S (length rest)))) with (j :: seq (S j) (S (length rest))).
      constructor; [|exact Hblocks]. exists used. split; [exact Hused|reflexivity].
Qed.

(** *** Around the loop *)

Lemma small_start (tmp : string) (w : world) :
  (∀ sz, files w !! tmp ≠ Some (Dir sz)) →
  ∃ w0,
    (∀ B (k : unit → M B),
        bind (path_exists tmp) (fun ex => bind (if ex then try_unlink tmp else ret tt) k) w
        = k tt w0)
    ∧ files w0 = delete tmp (files w)
    ∧ net_log w0 = net_log w.
Proof.
  intros Hnd. destruct (files w !! tmp) as [[d|sz]|] eqn:Hc; [|destruct (Hnd sz eq_refl)|].
  - eexists. split; [|split].
    + intros B k. rewrite run_path_exists, bool_decide_eq_true_2 by (rewrite Hc; eauto).
      apply (run_try_unlink_file _ _ _ _ Hc).
    + reflexivity.
    + reflexivity.
  - exists w. split; [|split].
    + intros B k. rewrite run_path_exists.
      rewrite bool_decide_eq_false_2 by (rewrite Hc; intros [x Hx]; discriminate).
      apply run_ret.
    + symmetry. apply delete_id, Hc.
    + reflexivity.
Qed.

Lemma run_replace_file {B} (src dst : string) (d : list Z) (k : unit → M B) (w : world) :
  files w !! src = Some (File d) →
  (∀ sz, files w !! dst ≠ Some (Dir sz)) →
  bind (replace src dst) k w
  = k tt (mkWorld (<[dst := File d]> (delete src (files w)))
                  (fs_log w ++ [EvReplace src dst]) (net_log w)).
Proof.
  intros Hs Hd. unfold bind, replace. rewrite Hs.
  destruct (files w !! dst) as [[d'|sz]|] eqn:Hc; [reflexivity| |reflexivity].
  destruct (Hd sz eq_refl).
Qed.

Lemma validate_same_file (E : environment) (p : string) (n : Z) (w w2 : world)
    (d : list Z) :
  files w !! p = Some (File d) → files w2 !! p = Some (File d) →
  fst (validate_header_min_cols E p n w2) = fst (validate_header_min_cols E p n w).
Proof.
  intros H1 H2.
  rewrite (validate_header_file _ _ _ _ _ H1), (validate_header_file _ _ _ _ _ H2).
  reflexivity.
Qed.

Lemma pages_rows_served (E : environment) (cid : string) (lastr : response)
    (resps : list response) (j : nat) :
  pages_served E cid j resps lastr → resps ≠ [] → pages_rows j resps ≠ 0.
Proof.
  destruct resps as [|r rest]; [congruence|]. intros (_ & _ & _ & Hrows & _) _.
  cbn [pages_rows].
  pose proof (stream_lines_rows (Z.of_nat j * PAGE_LIMIT =? 0) (body r)) as [H _].
  pose proof (pages_rows_nonneg rest (S j)). unfold page_state in *. lia.
Qed.

(** C2.  When the requests for pages 0, 1, ... are answered by complete 200
    responses, [resps] with data lines and then [lastr] with none, the
    sequential downloader requests exactly the offsets 0, PAGE_LIMIT, ...,
    one series of attempts each, up to and including the offset of [lastr],
    and nothing after it.  The growing file holds what each page contributed
    in turn: the first page from an empty file with the header line, every
    later page appended without its header line.  If the first page already
    has no data line the outcome is [no_results_header_only] and the
    in-progress file is deleted; otherwise the file is validated and either
    renamed to the final path or deleted. *)
Theorem sequential_pages (E : environment) (cid year_dir : string)
    (resps : list response) (lastr : response) (fuel : nat) (w : world) :
  (∀ sz, files w !! tmp_path_of year_dir cid ≠ Some (Dir sz)) →
  (∀ sz, files w !! final_path_of year_dir cid ≠ Some (Dir sz)) →
  pages_served E cid 0 resps lastr →
  (length resps < fuel)%nat →
  let tmp := tmp_path_of year_dir cid in
  let final := final_path_of year_dir cid in
  let content := pages_bytes 0 (resps ++ [lastr]) in
  let total := pages_rows 0 resps in
  ∃ w' ok msg,
    download_small_sequential E fuel cid year_dir w = (Val (cid, YEAR, ok, msg), w')
    ∧ (∃ blocks, net_log w' = net_log w ++ concat blocks
                 ∧ Forall2 page_requests (seq 0 (S (length resps))) blocks)
    ∧ (total = 0 ↔ resps = [])
    ∧ (resps = [] →
       ok = false ∧ msg = "no_results_header_only"%string
       ∧ files w' = delete tmp (files w))
    ∧ (resps ≠ [] →
       ∃ reason,
         fst (validate_header_min_cols E tmp EXPECTED_MIN_COLS
                                       (world_of {[tmp := File content]}))
         = Val (ok, reason)
         ∧ if ok
           then msg = ("downloaded_small_ok_rows~" +:+ str_of_Z total)%string
                ∧ files w' = <[final := File content]> (delete tmp (files w))
           else msg = ("validation_failed:" +:+ reason)%string
                ∧ files w' = delete tmp (files w)).
Proof.
  intros Htmp Hfinal Hserved Hfuel tmp final content total.
  destruct (small_start tmp w Htmp) as (w0 & Hstart & Hf0 & Hn0).
  unfold download_small_sequential. cbv zeta. fold tmp final. rewrite Hstart.
  assert (Hnone : files w0 !! tmp = None) by (rewrite Hf0; apply lookup_delete_eq).
  destruct (small_loop_pages E cid tmp lastr resps 0 fuel 0 false w0)
    as (w1 & wh' & Hloop & Hf1 & blocks & Hn1 & Hblocks).
  { intros sz. rewrite Hnone. discriminate. }
  { left. reflexivity. }
  { exact Hserved. }
  { exact Hfuel. }
  change (Z.of_nat 0 * PAGE_LIMIT) with 0 in Hloop.
  change (Z.of_nat 0 * PAGE_LIMIT =? 0) with true in Hf1. cbv iota in Hf1.
  cbn [app] in Hf1. fold content in Hf1. rewrite Z.add_0_l in Hloop. fold total in Hloop.
  rewrite (bind_val _ _ _ _ _ Hloop). cbv iota.
  assert (Hcell : files w1 !! tmp = Some (File content)).
  { rewrite Hf1. apply lookup_insert_eq. }
  assert (Hnet : ∃ blocks, net_log w1 = net_log w ++ concat blocks
                           ∧ Forall2 page_requests (seq 0 (S (length resps))) blocks).
  { exists blocks. rewrite Hn1, Hn0. split; [reflexivity|exact Hblocks]. }
  assert (Hdel : delete tmp (files w1) = delete tmp (files w)).
  { rewrite Hf1, delete_insert_eq, Hf0. apply delete_delete_eq. }
  assert (Htotal : total = 0 ↔ resps = []).
  { split.
    - intros H0. destruct resps as [|r rest]; [reflexivity|].
      destruct (pages_rows_served E cid lastr (r :: rest) 0 Hserved ltac:(discriminate) H0).
    - intros ->. reflexivity. }
  destruct resps as [|r rest].
  - change total with 0. change (0 =? 0) with true. rewrite orb_true_r.
    rewrite (run_try_unlink_file _ _ _ _ Hcell).
    eexists _, false, _. split; [reflexivity|]. cbn [net_log files].
    split; [exact Hnet|]. split; [exact Htotal|].
    split; [intros _; split; [reflexivity|split; [reflexivity|exact Hdel]]|].
    intros H. congruence.
  - assert (Htot : total ≠ 0).
    { apply (pages_rows_served E cid lastr (r :: rest) 0 Hserved). discriminate. }
    destruct (small_loop_break E cid tmp fuel 0 0 false w0 total wh' w1
                ltac:(left; auto) Hloop) as [H0|(-> & _ & _)]; [contradiction|].
    destruct (Z.eqb_spec total 0) as [|_]; [contradiction|]. cbn [negb orb].
    destruct (validate_header_min_cols_returns E tmp EXPECTED_MIN_COLS w1)
      as (ok & reason & Hval).
    assert (Hsame : fst (validate_header_min_cols E tmp EXPECTED_MIN_COLS
                           (world_of {[tmp := File content]})) = Val (ok, reason)).
    { rewrite (validate_same_file E tmp EXPECTED_MIN_COLS w1 _ content Hcell).
      - rewrite Hval. reflexivity.
      - apply lookup_singleton_eq. }
    rewrite (bind_val _ _ _ _ _ Hval). cbv iota beta.
    destruct ok; cbn [negb].
    + rewrite (run_replace_file tmp final content _ _ Hcell).
      2:{ intros sz. rewrite Hf1, lookup_insert_ne by apply tmp_not_final.
          rewrite Hf0, lookup_delete_ne by apply tmp_not_final. apply Hfinal. }
      eexists _, true, _. split; [reflexivity|]. cbn [net_log files].
      split; [exact Hnet|]. split; [exact Htotal|].
      split; [intros H; discriminate H|]. intros _. exists reason.
      split; [exact Hsame|]. split; [reflexivity|]. rewrite Hdel. reflexivity.
    + rewrite (run_try_unlink_file _ _ _ _ Hcell).
      eexists _, false, _. split; [reflexivity|]. cbn [net_log files].
      split; [exact Hnet|]. split; [exact Htotal|].
      split; [intros H; discriminate H|]. intros _. exists reason.
      split; [exact Hsame|]. split; [reflexivity|exact Hdel].
Qed.

Lemma sequential_pages_witness :
  ∃ w' ok msg,
    download_small_sequential (env_of acme_server) 5 "ACME" "2023" empty_world
    = (Val ("ACME"%string, YEAR, ok, msg), w')
    ∧ ∃ blocks, net_log w' = concat blocks
                ∧ Forall2 page_requests [0; 1]%nat blocks.
Proof.
  destruct (sequential_pages (env_of acme_server) "ACME" "2023"
              [mkResponse 200 (header_row 80 :: repeat (data_row 80) 3) None]
              (mkResponse 200 [header_row 80] None) 5 empty_world)
    as (w' & ok & msg & Hrun & Hnet & _).
  - intros sz. discriminate.
  - intros sz. discriminate.
  - vm_compute. repeat split; discriminate.
  - simpl. lia.
  - exists w', ok, msg. split; [exact Hrun|exact Hnet].
Defined.

(** "ACME", 3000 rows expected: the page at offset 0 has the data, and only
    the empty page at offset 5000 ends the loop; success comes after it. *)
Example acme_needs_second_request :
  let r := download_small_sequential (env_of acme_server) 5 "ACME" "2023" empty_world in
  fst r = Val ("ACME"%string, YEAR, true, "downloaded_small_ok_rows~3"%string)
  ∧ net_log (snd r) = [(0, 1%nat); (5000, 1%nat)]
  ∧ files (snd r) !! final_path_of "2023" "ACME"
    = Some (File (BOM ++ terminated (header_row 80 :: repeat (data_row 80) 3)))
  ∧ files (snd r) !! tmp_path_of "2023" "ACME" = None
  ∧ fst (download_small_sequential (env_of acme_server) 1 "ACME" "2023" empty_world)
    = Diverge.
Proof. vm_compute. auto 10. Qed.

(** A first page with a header and no data row: nothing is kept. *)
Example header_only_entity :
  let r := download_small_sequential (env_of (fun _ _ _ => ok_page 80 0)) 5 "NONE" "2023"
                                     empty_world in
  fst r = Val ("NONE"%string, YEAR, false, "no_results_header_only"%string)
  ∧ files (snd r) = ∅
  ∧ net_log (snd r) = [(0, 1%nat)].
Proof. vm_compute. auto. Qed.

(** ** How the final path gets its file *)

Lemma differs_at_refl (p : string) (w : world) : differs_at p w w.
Proof.
  split; [reflexivity|]. exists []. rewrite app_nil_r. split; [reflexivity|constructor].
Qed.

Lemma differs_at_trans (p : string) (w1 w2 w3 : world) :
  differs_at p w1 w2 → differs_at p w2 w3 → differs_at p w1 w3.
Proof.
  intros (Hf1 & evs1 & Hl1 & He1) (Hf2 & evs2 & Hl2 & He2). split.
  - intros q Hq. rewrite Hf2, Hf1 by assumption. reflexivity.
  - exists (evs1 ++ evs2). rewrite Hl2, Hl1, app_assoc. split; [reflexivity|].
    apply Forall_app. split; assumption.
Qed.

Lemma keeps_to_differs {A} (p : string) (m : M A) (w : world) :
  keeps_to p m → differs_at p w (snd (m w)).
Proof. intros H. exact (H w). Qed.

Lemma differs_at_run {A} (p : string) (m : M A) (w w' : world) (r : res A) :
  keeps_to p m → m w = (r, w') → differs_at p w w'.
Proof. intros H Hrun. pose proof (H w) as Hw. rewrite Hrun in Hw. exact Hw. Qed.

Lemma untouched_only_renamed (p : string) (evs : list fs_event) :
  untouched p evs → only_renamed_into p evs.
Proof.
  intros H. eapply Forall_impl; [exact H|]. intros ev Hev Hin. contradiction.
Qed.

Lemma on_other_untouched (p q : string) (evs : list fs_event) :
  p ≠ q →
  Forall (fun ev => ∀ x, x ∈ event_paths ev → x = p) evs → untouched q evs.
Proof.
  intros Hne H. eapply Forall_impl; [exact H|]. intros ev Hev Hin.
  apply Hne. symmetry. apply Hev, Hin.
Qed.

(** A run that only worked on the temporary path left the final path alone. *)
Lemma differs_at_tmp_final (year_dir cid : string) (w w' : world) :
  differs_at (tmp_path_of year_dir cid) w w' →
  ∃ evs, fs_log w' = fs_log w ++ evs
         ∧ only_renamed_into (final_path_of year_dir cid) evs
         ∧ files w' !! final_path_of year_dir cid = files w !! final_path_of year_dir cid
         ∧ untouched (final_path_of year_dir cid) evs.
Proof.
  intros (Hf & evs & Hl & He). exists evs. split; [exact Hl|].
  pose proof (on_other_untouched _ (final_path_of year_dir cid) evs
                (tmp_not_final year_dir cid) He) as Hu.
  split; [apply untouched_only_renamed, Hu|]. split; [|exact Hu].
  apply Hf. intros H. exact (tmp_not_final _ _ (eq_sym H)).
Qed.

Lemma small_final_left (year_dir cid : string) (w w' : world) (r : res outcome) :
  differs_at (tmp_path_of year_dir cid) w w' →
  ∃ evs, fs_log w' = fs_log w ++ evs
    ∧ only_renamed_into (final_path_of year_dir cid) evs
    ∧ ((files w' !! final_path_of year_dir cid = files w !! final_path_of year_dir cid
        ∧ untouched (final_path_of year_dir cid) evs)
       ∨ (∃ c msg, r = Val (cid, YEAR, true, msg)
                   ∧ files w' !! final_path_of year_dir cid = Some (File c)
                   ∧ (2 <= line_count c)%nat)).
Proof.
  intros D. destruct (differs_at_tmp_final _ _ _ _ D) as (evs & Hl & Hr & Hf & Hu).
  exists evs. split; [exact Hl|]. split; [exact Hr|]. left. split; assumption.
Qed.

(** The sequential downloader, whatever the server does and however much
    fuel it has: the final path is only ever the target of the rename, and
    the rename brings a file of at least two complete lines. *)
Lemma small_final_run (E : environment) (fuel : nat) (cid year_dir : string)
    (w w' : world) (r : res outcome) :
  download_small_sequential E fuel cid year_dir w = (r, w') →
  ∃ evs,
    fs_log w' = fs_log w ++ evs
    ∧ only_renamed_into (final_path_of year_dir cid) evs
    ∧ ((files w' !! final_path_of year_dir cid = files w !! final_path_of year_dir cid
        ∧ untouched (final_path_of year_dir cid) evs)
       ∨ (∃ c msg, r = Val (cid, YEAR, true, msg)
                   ∧ files w' !! final_path_of year_dir cid = Some (File c)
                   ∧ (2 <= line_count c)%nat)).
Proof.
  unfold download_small_sequential. cbv zeta.
  set (tmp := tmp_path_of year_dir cid). set (final := final_path_of year_dir cid).
  rewrite run_path_exists.
  set (b := bool_decide (is_Some (files w !! tmp))).
  assert (Hk0 : keeps_to tmp (if b then try_unlink tmp else ret tt)).
  { destruct b; apply keeps_to_confined; confined_auto. }
  unfold bind at 1.
  destruct ((if b then try_unlink tmp else ret tt) w) as [[[]|e|] w0] eqn:H0;
    pose proof (differs_at_run _ _ _ _ _ Hk0 H0) as D0;
    [|intros [= <- <-]; apply small_final_left, D0..].
  unfold bind at 1.
  destruct (small_loop E fuel cid tmp 0 0 false w0) as [[[o|t' wh']|e|] w1] eqn:Hloop;
    pose proof (differs_at_trans _ _ _ _ D0
                  (differs_at_run _ _ _ _ _ (keeps_to_small_loop E cid tmp fuel 0 0 false)
                                  Hloop)) as D1;
    [intros [= <- <-]; apply small_final_left, D1|
    |intros [= <- <-]; apply small_final_left, D1..].
  assert (Hleft : ∀ o, (try_unlink tmp ;;; ret o : M outcome) w1 = (r, w') →
             ∃ evs,
               fs_log w' = fs_log w ++ evs
               ∧ only_renamed_into final evs
               ∧ ((files w' !! final = files w !! final ∧ untouched final evs)
                  ∨ (∃ c msg, r = Val (cid, YEAR, true, msg)
                              ∧ files w' !! final = Some (File c)
                              ∧ (2 <= line_count c)%nat))).
  { intros o Hrun. apply small_final_left.
    refine (differs_at_trans _ _ _ _ D1 (differs_at_run _ _ _ _ _ _ Hrun)).
    apply keeps_to_confined. confined_auto. }
  destruct (small_loop_break E cid tmp fuel 0 0 false w0 t' wh' w1
              ltac:(left; auto) Hloop) as [->|(-> & Ht & (c & Hc & _ & Hcount))].
  { change (0 =? 0) with true. rewrite orb_true_r. apply Hleft. }
  destruct (Z.eqb_spec t' 0) as [|_]; [contradiction|]. cbn [negb orb].
  destruct (validate_header_min_cols_returns E tmp EXPECTED_MIN_COLS w1)
    as (ok & reason & Hval).
  rewrite (bind_val _ _ _ _ _ Hval). cbv iota beta.
  destruct ok; cbn [negb]; [|apply Hleft].
  destruct (files w1 !! final) as [[d|sz]|] eqn:Hfin.
  2:{ assert (Hexc : replace tmp final w1 = (Exc (os_error "Is a directory" final), w1)).
      { unfold replace. rewrite Hc, Hfin. reflexivity. }
      rewrite (bind_exc _ _ _ _ _ Hexc). intros [= <- <-]. apply small_final_left, D1. }
  all: rewrite (run_replace_file tmp final c _ _ Hc)
    by (intros sz; rewrite Hfin; discriminate).
  all: unfold ret; intros [= <- <-]; cbn [files fs_log].
  all: destruct (differs_at_tmp_final _ _ _ _ D1) as (evs & Hl & Hr & _ & _).
  all: exists (evs ++ [EvReplace tmp final]).
  all: split; [rewrite Hl, app_assoc; reflexivity|].
  all: split;
    [apply Forall_app; split; [exact Hr|];
     constructor; [intros _; exists tmp; reflexivity|constructor]|].
  all: right; exists c; eexists; split; [reflexivity|];
    split; [apply lookup_insert_eq|exact Hcount].
Qed.

(** The parallel downloader leaves the final path as it was, or absent, or
    holding the merged file of at least two lines. *)
Lemma big_final (E : environment) (cid year_dir : string) (expected_total page_workers : Z)
    (sched : list nat) (w : world) :
  0 < page_workers →
  sched ≡ₚ seq 0 (page_count expected_total) →
  (∀ sz, files w !! final_path_of year_dir cid ≠ Some (Dir sz)) →
  ∃ r w',
    download_big_parallel_pages E cid expected_total year_dir page_workers sched w = (r, w')
    ∧ (files w' !! final_path_of year_dir cid = files w !! final_path_of year_dir cid
       ∨ files w' !! final_path_of year_dir cid = None
       ∨ (∃ c msg, r = Val (cid, YEAR, true, msg)
                   ∧ files w' !! final_path_of year_dir cid = Some (File c)
                   ∧ (2 <= line_count c)%nat)).
Proof.
  intros Hworkers Hperm Hfinal.
  destruct (Z.leb_spec (ceil_div expected_total PAGE_LIMIT) 0) as [Hle|Hpages].
  { eexists _, w. split; [|left; reflexivity].
    unfold download_big_parallel_pages. cbv zeta.
    destruct (Z.leb_spec (ceil_div expected_total PAGE_LIMIT) 0) as [_|]; [reflexivity|lia]. }
  destruct (hard_fails_of (map (fun j => (j, page_result_at E cid year_dir j w)) sched))
    as [|hf hfs] eqn:Hhf.
  - apply hard_fails_of_nil in Hhf. rewrite Forall_forall in Hhf.
    destruct (sched_complete _ _ Hperm) as [_ Hin].
    destruct (big_merged E cid year_dir expected_total page_workers sched w
                Hpages Hworkers Hperm Hfinal)
      as (w' & ok & msg & Hrun & _ & _ & Hcases).
    { intros i Hi.
      apply (Hhf (i, page_result_at E cid year_dir i w)).
      apply list_elem_of_In, in_map_iff. exists i. split; [reflexivity|].
      apply list_elem_of_In, Hin, Hi. }
    eexists _, w'. split; [exact Hrun|].
    destruct Hcases as [(_ & _ & _ & Hf)|[(_ & _ & Hf)|(_ & -> & _ & Hf & Hcount)]].
    + left. exact Hf.
    + right. left. exact Hf.
    + right. right. eexists _, msg. split; [reflexivity|]. split; [exact Hf|exact Hcount].
  - destruct (big_collected E cid year_dir expected_total page_workers sched w
                Hpages Hworkers Hperm)
      as (w1 & Hrun & Hframe & _).
    eexists _, w1. split.
    + rewrite Hrun. unfold big_after_pages. cbv zeta. rewrite Hhf. reflexivity.
    + left. apply Hframe. intros i. apply final_not_part.
Qed.

(** C5 as stated fails for the parallel path: the merge opens the final path
    itself and writes the parts into it, and checks the result afterwards.
    Here the merged file has three columns: it is written to the final path,
    fails the check and is deleted again. *)
Lemma parallel_final_written_before_validation :
  ¬ only_renamed_into
      (final_path_of "2023" "GIANT")
      (fs_log (snd (download_big_parallel_pages (env_of giant_narrow_server) "GIANT" 12000
                                                "2023" 10 [0; 1; 2]%nat empty_world))).
Proof.
  intros H. unfold only_renamed_into in H. rewrite Forall_forall in H.
  destruct (H (EvOpenW (final_path_of "2023" "GIANT"))) as [src Hsrc].
  - apply list_elem_of_In. vm_compute.
    repeat (first [left; reflexivity | right]).
  - cbn [event_paths]. apply list_elem_of_singleton. reflexivity.
  - discriminate Hsrc.
Qed.

Example narrow_merge_is_undone :
  let r := download_big_parallel_pages (env_of giant_narrow_server) "GIANT" 12000 "2023" 10
                                       [0; 1; 2]%nat empty_world in
  fst r = Val ("GIANT"%string, YEAR, false,
               "validation_failed:too_few_columns(3<80)"%string)
  ∧ files (snd r) !! final_path_of "2023" "GIANT" = None
  ∧ filter (fun ev => bool_decide (final_path_of "2023" "GIANT" ∈ event_paths ev))
           (fs_log (snd r))
    = [EvOpenW (final_path_of "2023" "GIANT");
       EvWrite (final_path_of "2023" "GIANT") 21;
       EvWrite (final_path_of "2023" "GIANT") 12;
       EvWrite (final_path_of "2023" "GIANT") 12;
       EvUnlink (final_path_of "2023" "GIANT")].
Proof. vm_compute. auto. Qed.

(** C5, amended.  In the sequential path every file operation that names the
    final path is the rename of the temporary file onto it, and after the run
    the final path is as it was before or holds the renamed file, which has
    at least two complete lines.  In the parallel path (where the merge
    writes the final path directly) the final path ends up as it was before,
    or absent, or holding the merged file of at least two lines.  So on
    every outcome of either downloader the run leaves no empty or
    header-only file at the final path. *)
Theorem final_path_never_header_only (E : environment) (cid year_dir : string)
    (fuel : nat) (expected_total page_workers : Z) (sched : list nat) (w : world) :
  0 < page_workers →
  sched ≡ₚ seq 0 (page_count expected_total) →
  (∀ sz, files w !! final_path_of year_dir cid ≠ Some (Dir sz)) →
  let final := final_path_of year_dir cid in
  let small := download_small_sequential E fuel cid year_dir w in
  let big := download_big_parallel_pages E cid expected_total year_dir page_workers sched w in
  (∃ evs, fs_log (snd small) = fs_log w ++ evs
          ∧ only_renamed_into final evs
          ∧ ((files (snd small) !! final = files w !! final ∧ untouched final evs)
             ∨ (∃ c msg, fst small = Val (cid, YEAR, true, msg)
                         ∧ files (snd small) !! final = Some (File c)
                         ∧ (2 <= line_count c)%nat)))
  ∧ (files (snd big) !! final = files w !! final
     ∨ files (snd big) !! final = None
     ∨ (∃ c msg, fst big = Val (cid, YEAR, true, msg)
                 ∧ files (snd big) !! final = Some (File c)
                 ∧ (2 <= line_count c)%nat)).
Proof.
  intros Hworkers Hperm Hfinal final small big. split.
  - unfold small.
    destruct (download_small_sequential E fuel cid year_dir w) as [r w'] eqn:Hrun.
    exact (small_final_run E fuel cid year_dir w w' r Hrun).
  - destruct (big_final E cid year_dir expected_total page_workers sched w
                Hworkers Hperm Hfinal) as (r & w' & Hrun & Hcases).
    unfold big. rewrite Hrun. exact Hcases.
Qed.

Lemma final_path_never_header_only_witness :
  (files (snd (download_big_parallel_pages (env_of giant_server) "GIANT" 12000 "2023" 10
                                           [2; 0; 1]%nat empty_world))
     !! final_path_of "2023" "GIANT" = None
   ∨ files (snd (download_big_parallel_pages (env_of giant_server) "GIANT" 12000 "2023" 10
                                             [2; 0; 1]%nat empty_world))
       !! final_path_of "2023" "GIANT" = None
   ∨ (∃ c msg,
         fst (download_big_parallel_pages (env_of giant_server) "GIANT" 12000 "2023" 10
                                          [2; 0; 1]%nat empty_world)
         = Val ("GIANT"%string, YEAR, true, msg)
         ∧ files (snd (download_big_parallel_pages (env_of giant_server) "GIANT" 12000
                                                   "2023" 10 [2; 0; 1]%nat empty_world))
             !! final_path_of "2023" "GIANT" = Some (File c)
         ∧ (2 <= line_count c)%nat)).
Proof.
  refine (proj2 (final_path_never_header_only (env_of giant_server) "GIANT" "2023" 5 12000
                   10 [2; 0; 1]%nat empty_world _ _ _)).
  - lia.
  - exact (perm_trans (perm_swap 0%nat 2%nat [1%nat])
                      (perm_skip 0%nat (perm_swap 1%nat 2%nat []))).
  - intros sz. discriminate.
Defined.

(** ** Session sizing *)

Lemma make_session_pool (n : Z) :
  pool_connections (make_session n) = n ∧ pool_maxsize (make_session n) = n.
Proof. split; reflexivity. Qed.

(** C9 (as stated, refuted): with the default worker counts, 10 entity-level
    and 10 page-level workers, the pool configured for the session holds 30
    connections, fewer than the product 100. *)
Lemma pool_size_below_product_default :
  ¬ (10 * 10 <= pool_maxsize (main_session 10 10)).
Proof. vm_compute. intros H. apply H. reflexivity. Qed.

(** C9 (amended): the session's pool size is three times the larger of the two
    worker counts; for positive worker counts it reaches their product exactly
    when the smaller count is at most 3. *)
Theorem pool_size_is_triple_max (id_workers page_workers : Z) :
  1 <= id_workers → 1 <= page_workers →
  pool_maxsize (main_session id_workers page_workers) = 3 * Z.max id_workers page_workers
  ∧ pool_connections (main_session id_workers page_workers) = 3 * Z.max id_workers page_workers
  ∧ (id_workers * page_workers <= pool_maxsize (main_session id_workers page_workers)
     ↔ Z.min id_workers page_workers <= 3).
Proof.
  intros Hi Hp. unfold main_session, make_session, main_pool_size. simpl.
  split; [lia|]. split; [lia|].
  destruct (Z.max_spec id_workers page_workers) as [[Hlt ->]|[Hle ->]];
    destruct (Z.min_spec id_workers page_workers) as [[Hlt' ->]|[Hle' ->]];
    try lia; split; intros H; nia.
Qed.

Lemma pool_size_is_triple_max_witness :
  pool_maxsize (main_session 10 2) = 3 * Z.max 10 2
  ∧ pool_connections (main_session 10 2) = 3 * Z.max 10 2
  ∧ (10 * 2 <= pool_maxsize (main_session 10 2) ↔ Z.min 10 2 <= 3).
Proof. apply (pool_size_is_triple_max 10 2); lia. Defined.


(** * Further properties of the downloader *)

(** ** Trailing-record repair, again *)

(** X1.  Trailing-record repair is idempotent: on any path and any state of
    the disk it returns normally, and running it a second time changes
    nothing more. *)
Theorem repair_twice_is_repair_once (path : string) (w : world) :
  ∃ w1,
    truncate_trailing_partial_row path w = (Val tt, w1)
    ∧ truncate_trailing_partial_row path w1 = (Val tt, w1).
Proof.
  destruct (files w !! path) as [[data|sz]|] eqn:Hc.
  - destruct (truncate_with_repairs TRUNCATE_BLOCK path w data ltac:(reflexivity) Hc)
      as [Hnoop Hcut].
    assert (Hcases : (data = [] ∨ last data = Some NL)
                     ∨ (data ≠ [] ∧ last data ≠ Some NL)).
    { destruct data as [|b bs]; [left; left; reflexivity|].
      destruct (decide (last (b :: bs) = Some NL)) as [H|H];
        [left; right; exact H|right; split; [discriminate|exact H]]. }
    destruct Hcases as [Hok|[Hne Hlast]].
    + exists w. split; apply Hnoop, Hok.
    + destruct (Hcut Hne Hlast) as (kept & Hrun & Hkept). eexists. split; [exact Hrun|].
      refine (proj1 (truncate_with_repairs TRUNCATE_BLOCK path _ kept ltac:(reflexivity) _) _).
      * cbn [files]. apply lookup_insert_eq.
      * destruct Hkept as [[_ ->]|(pre & post & _ & _ & ->)]; [left; reflexivity|].
        right. apply last_snoc.
  - exists w.
    assert (H : truncate_trailing_partial_row path w = (Val tt, w)).
    { unfold truncate_trailing_partial_row, truncate_trailing_partial_row_with,
        try_except, truncate_body.
      rewrite run_path_exists, bool_decide_eq_true_2 by (rewrite Hc; eauto).
      cbn [negb]. unfold bind at 1. unfold stat_size. rewrite Hc. cbv beta iota.
      destruct (sz =? 0); [reflexivity|].
      unfold bind, read_bytes. rewrite Hc. reflexivity. }
    split; exact H.
  - exists w.
    assert (H : truncate_trailing_partial_row path w = (Val tt, w)).
    { unfold truncate_trailing_partial_row, truncate_trailing_partial_row_with,
        try_except, truncate_body.
      rewrite run_path_exists.
      rewrite bool_decide_eq_false_2 by (rewrite Hc; intros [x Hx]; discriminate).
      reflexivity. }
    split; exact H.
Qed.

(** ** Counting lines *)

Lemma count_loop_value (m : Z) (ls : list (list Z)) :
  ∀ n, ls ≠ [] →
       count_loop n m ls = Z.min (Z.max (n + 1) m) (n + Z.of_nat (length ls)).
Proof.
  induction ls as [|l rest IH]; intros n Hne; [congruence|].
  cbn [count_loop length]. destruct (Z.geb_spec (n + 1) m) as [Hge|Hlt]; [lia|].
  destruct rest as [|l2 rest].
  - cbn [count_loop length]. lia.
  - rewrite IH by discriminate. cbn [length]. lia.
Qed.

(** X2.  [count_lines_quick] on a regular file returns the number of lines of
    the file capped at [max_lines] (and at 1 when [max_lines] is below 1: the
    first line is counted before the bound is looked at); an empty file has 0
    lines.  On a missing path or a directory it returns 0.  It never raises
    and leaves the disk as it is. *)
Theorem count_lines_quick_counts (path : string) (max_lines : Z) (w : world) :
  count_lines_quick path max_lines w
  = (Val (match files w !! path with
          | Some (File d) => Z.min (Z.max 1 max_lines) (Z.of_nat (line_count d))
          | _ => 0
          end), w).
Proof.
  unfold count_lines_quick, try_except.
  destruct (files w !! path) as [[d|sz]|] eqn:Hc.
  - rewrite (run_read_bytes_file _ _ _ _ Hc). unfold ret, line_count.
    destruct (bytes_lines_from [] d) as [|l ls] eqn:Hl.
    + cbn [count_loop length]. f_equal. f_equal. lia.
    + rewrite count_loop_value by discriminate. reflexivity.
  - unfold bind, read_bytes. rewrite Hc. reflexivity.
  - unfold bind, read_bytes. rewrite Hc. reflexivity.
Qed.

Lemma bytes_lines_from_concat (data : list Z) :
  ∀ cur, concat (bytes_lines_from cur data) = cur ++ data.
Proof.
  induction data as [|c rest IH]; intros cur; cbn [bytes_lines_from].
  - destruct cur; [reflexivity|]. cbn [concat]. rewrite !app_nil_r. reflexivity.
  - destruct (c =? NL).
    + cbn [concat]. rewrite IH, <- app_assoc. reflexivity.
    + rewrite IH, <- app_assoc. reflexivity.
Qed.

Lemma bytes_lines_from_shape (data : list Z) :
  ∀ cur, NL ∉ cur →
    Forall (fun l => ∃ body, (NL ∉ body) ∧ (l = body ++ [NL] ∨ (l = body ∧ body ≠ [])))
           (bytes_lines_from cur data).
Proof.
  induction data as [|c rest IH]; intros cur Hcur; cbn [bytes_lines_from].
  - destruct cur as [|x cur]; [constructor|].
    constructor; [|constructor]. exists (x :: cur). split; [exact Hcur|].
    right. split; [reflexivity|discriminate].
  - destruct (Z.eqb_spec c NL) as [->|Hne].
    + constructor; [exists cur; split; [exact Hcur|left; reflexivity]|].
      apply IH. apply not_elem_of_nil.
    + apply IH. intros Hin. apply elem_of_app in Hin as [Hin|Hin]; [exact (Hcur Hin)|].
      apply list_elem_of_singleton in Hin. congruence.
Qed.

(** X3.  The lines a binary file is read in partition its bytes: put back
    together they give the file, every line holds at most one newline byte,
    its last byte, and the number of lines is the number of newline bytes,
    plus one when the file does not end with one. *)
Theorem file_lines_partition (data : list Z) :
  concat (bytes_lines_from [] data) = data
  ∧ Forall (fun l => ∃ body, (NL ∉ body) ∧ (l = body ++ [NL] ∨ (l = body ∧ body ≠ [])))
           (bytes_lines_from [] data)
  ∧ line_count data
    = (length (filter (fun c => c = NL) data)
       + (if decide (data = [] ∨ last data = Some NL) then 0 else 1))%nat.
Proof.
  split; [apply bytes_lines_from_concat|].
  split; [apply bytes_lines_from_shape, not_elem_of_nil|].
  unfold line_count.
  assert (Hgen : ∀ d cur, NL ∉ cur →
            length (bytes_lines_from cur d)
            = (length (filter (fun c => c = NL) d)
               + (if decide (cur ++ d = [] ∨ last (cur ++ d) = Some NL) then 0 else 1))%nat).
  { induction d as [|c rest IH]; intros cur Hcur; cbn [bytes_lines_from].
    - rewrite app_nil_r. destruct cur as [|x cur]; cbn [filter list_filter length].
      + rewrite decide_True by (left; reflexivity). reflexivity.
      + rewrite decide_False; [reflexivity|].
        intros [H|H]; [discriminate|]. apply Hcur.
        apply last_Some in H as [l' ->]. apply elem_of_app. right. left.
    - destruct (Z.eqb_spec c NL) as [->|Hne].
      + rewrite filter_cons_True by reflexivity. cbn [length].
        rewrite (IH [] ltac:(apply not_elem_of_nil)). cbn [app].
        f_equal.
        destruct rest as [|r rest'].
        * rewrite decide_True by (left; reflexivity).
          rewrite decide_True; [reflexivity|]. right. apply last_snoc.
        * assert (Hl : last (cur ++ NL :: r :: rest') = last (r :: rest')).
          { rewrite (last_app_cons cur), last_cons_cons. reflexivity. }
          rewrite Hl.
          destruct (decide (r :: rest' = [] ∨ last (r :: rest') = Some NL)) as [[H|H]|H].
          -- discriminate.
          -- rewrite decide_True; [reflexivity|right; exact H].
          -- rewrite decide_False; [reflexivity|].
             intros [H'|H']; [destruct cur; discriminate|]. apply H. right. exact H'.
      + rewrite filter_cons_False by exact Hne.
        rewrite IH.
        * rewrite <- app_assoc. reflexivity.
        * intros Hin. apply elem_of_app in Hin as [Hin|Hin]; [exact (Hcur Hin)|].
          apply list_elem_of_singleton in Hin. congruence. }
  exact (Hgen data [] ltac:(apply not_elem_of_nil)).
Qed.

(** ** Requests *)

Lemma backoff_loop_first_accepted (E : environment) (cid : string) (offset : Z)
    (r : response) (k : nat) (rest : list nat) (pre : list nat) :
  Forall (fun a => retried (server E cid offset a) = true) pre →
  server E cid offset k = GetResp r →
  retried (GetResp r) = false →
  ∀ (last_exc : option exn) (w : world),
    backoff_loop E cid offset (pre ++ k :: rest) last_exc w
    = (Val r, log_gets offset (pre ++ [k]) w).
Proof.
  intros Hpre Hk Hacc. induction Hpre as [|a pre Ha _ IH]; intros last_exc w.
  - exact (backoff_loop_response E cid offset k rest last_exc w r Hk Hacc).
  - cbn [app]. rewrite (backoff_loop_retry _ _ _ _ _ _ _ Ha), IH, log_gets_cons.
    reflexivity.
Qed.

(** X4.  The manual retry loop returns the first response that is not a
    403/429 throttle: when attempts 1 to k-1 are retried (a transport
    exception or a throttle response) and attempt k, within the limit, is
    answered with any other status, that response is returned after exactly
    k requests, earlier exceptions are forgotten, and no file is touched. *)
Theorem request_returns_first_accepted (E : environment) (cid : string) (offset : Z)
    (k : nat) (r : response) (w : world) :
  (1 <= k <= MANUAL_ATTEMPTS)%nat →
  (∀ a : nat, (1 <= a < k)%nat → retried (server E cid offset a) = true) →
  server E cid offset k = GetResp r →
  retried (GetResp r) = false →
  request_with_manual_backoff E cid offset w = (Val r, log_gets offset (seq 1 k) w).
Proof.
  intros Hk Hpre Hresp Hacc. unfold request_with_manual_backoff.
  assert (Hsplit : seq 1 MANUAL_ATTEMPTS
                   = seq 1 (k - 1) ++ k :: seq (S k) (MANUAL_ATTEMPTS - k)).
  { replace MANUAL_ATTEMPTS with ((k - 1) + S (MANUAL_ATTEMPTS - k))%nat at 1 by lia.
    rewrite seq_app. cbn [seq]. replace (1 + (k - 1))%nat with k by lia. reflexivity. }
  rewrite Hsplit.
  rewrite (backoff_loop_first_accepted E cid offset r k _ (seq 1 (k - 1))); [|
    apply Forall_forall; intros a Ha; apply Hpre;
    apply list_elem_of_In, in_seq in Ha; lia | exact Hresp | exact Hacc].
  f_equal. f_equal.
  replace k with ((k - 1) + 1)%nat at 3 by lia. rewrite seq_app. cbn [seq].
  replace (1 + (k - 1))%nat with k by lia. reflexivity.
Qed.

Lemma request_returns_first_accepted_witness :
  request_with_manual_backoff (env_of flaky_server) "ACME" 0 empty_world
  = (Val (mkResponse 200 [header_row 80; data_row 80] None),
     log_gets 0 (seq 1 3) empty_world).
Proof.
  apply (request_returns_first_accepted (env_of flaky_server) "ACME" 0 3).
  - unfold MANUAL_ATTEMPTS. lia.
  - intros a Ha. destruct a as [|[|[|a]]]; [lia|reflexivity|reflexivity|lia].
  - reflexivity.
  - reflexivity.
Defined.

(** X5.  Whatever the server does, one call of the manual retry loop issues
    between one and [MANUAL_ATTEMPTS] requests, numbered 1, 2, ... in order
    and all at the given offset; it ends (with a response or an error), and
    it neither changes a file nor logs a file operation. *)
Theorem request_attempts_bounded (E : environment) (cid : string) (offset : Z) (w : world) :
  ∃ (used : list nat) (k : nat),
    used = seq 1 k
    ∧ (1 <= k <= MANUAL_ATTEMPTS)%nat
    ∧ fst (request_with_manual_backoff E cid offset w) ≠ Diverge
    ∧ files (snd (request_with_manual_backoff E cid offset w)) = files w
    ∧ fs_log (snd (request_with_manual_backoff E cid offset w)) = fs_log w
    ∧ net_log (snd (request_with_manual_backoff E cid offset w))
      = net_log w ++ map (fun a : nat => (offset, a)) used.
Proof.
  destruct (request_uniform E cid offset) as (r & used & Hnd & [Hne Hpre] & Hreq).
  rewrite Hreq. cbn [fst snd log_gets files fs_log net_log].
  destruct Hpre as [rest Hrest].
  exists used, (length used).
  assert (Hlen : (length used <= MANUAL_ATTEMPTS)%nat).
  { apply (f_equal (@length nat)) in Hrest. rewrite length_seq, length_app in Hrest. lia. }
  assert (Hused : used = seq 1 (length used)).
  { replace MANUAL_ATTEMPTS with (length used + (MANUAL_ATTEMPTS - length used))%nat
      in Hrest by lia.
    rewrite seq_app in Hrest. apply app_inj_1 in Hrest as [Hrest _];
      [symmetry; exact Hrest|]. rewrite length_seq. reflexivity. }
  split; [exact Hused|]. split; [|auto].
  split; [|exact Hlen]. destruct used; [congruence|simpl; lia].
Qed.

(** ** The page fetcher *)

(** X6.  The page fetcher never raises: every failure (request error, HTTP
    status, write error) comes back as a result tuple with [ok = False] and
    zero header and data counts; a successful page reports 0 or 1 header line
    and a non-negative number of data lines.  No path other than the part
    path is changed. *)
Theorem fetch_page_reports_every_failure (E : environment) (cid : string) (offset : Z)
    (part_path : string) (is_first : bool) (w : world) :
  ∃ ok msg hl dl w',
    fetch_page_to_partfile E cid offset part_path is_first w = (Val (ok, msg, hl, dl), w')
    ∧ 0 <= dl
    ∧ (hl = 0 ∨ hl = 1)
    ∧ (ok = false → hl = 0 ∧ dl = 0)
    ∧ (∀ q, q ≠ part_path → files w' !! q = files w !! q).
Proof.
  destruct (fetch_footprint E cid offset part_path is_first) as (used0 & _ & Hfoot).
  destruct (Hfoot w) as (_ & Hframe & _). cbv zeta in Hframe.
  destruct (request_uniform E cid offset) as (r & used & Hnd & _ & Hreq).
  specialize (Hreq w).
  assert (Hgoal : ∀ ok msg hl dl w',
             fetch_page_to_partfile E cid offset part_path is_first w
             = (Val (ok, msg, hl, dl), w') →
             0 <= dl → (hl = 0 ∨ hl = 1) → (ok = false → hl = 0 ∧ dl = 0) →
             ∃ ok msg hl dl w',
               fetch_page_to_partfile E cid offset part_path is_first w
               = (Val (ok, msg, hl, dl), w')
               ∧ 0 <= dl ∧ (hl = 0 ∨ hl = 1) ∧ (ok = false → hl = 0 ∧ dl = 0)
               ∧ (∀ q, q ≠ part_path → files w' !! q = files w !! q)).
  { intros ok msg hl dl w' Hrun H1 H2 H3. exists ok, msg, hl, dl, w'.
    rewrite Hrun in Hframe. cbn [snd] in Hframe. auto. }
  destruct r as [resp|e|]; [| |congruence].
  - destruct (Z.eq_dec (status_code resp) 200) as [Hst|Hst].
    + pose proof (fetch_200 E cid offset part_path is_first w _ resp Hreq eq_refl Hst) as H.
      cbv zeta in H.
      pose proof (stream_lines_rows is_first (body resp)) as [Hrows _].
      destruct (files w !! part_path) as [[d|sz]|] eqn:Hcell.
      * destruct H as (w3 & _ & H). destruct (stream_err resp); destruct H as [H _].
        -- apply (Hgoal _ _ _ _ _ H); auto; lia.
        -- apply (Hgoal _ _ _ _ _ H); [exact Hrows| |discriminate].
           destruct (header_written _); auto.
      * destruct H as (m & H). apply (Hgoal _ _ _ _ _ H); auto; lia.
      * destruct H as (w3 & _ & H). destruct (stream_err resp); destruct H as [H _].
        -- apply (Hgoal _ _ _ _ _ H); auto; lia.
        -- apply (Hgoal _ _ _ _ _ H); [exact Hrows| |discriminate].
           destruct (header_written _); auto.
    + apply (Hgoal _ _ _ _ _ (fetch_http_error _ _ _ _ _ _ _ _ Hreq Hst)); auto; lia.
  - apply (Hgoal _ _ _ _ _ (fetch_request_error _ _ _ _ _ _ _ _ Hreq)); auto; lia.
Qed.

(** X7.  When the stream of a 200 response breaks, the page fetcher reports
    [write_error] with zero counts, and the part file stays on disk holding
    the lines written before the break: the fetcher does not delete or
    repair it. *)
Theorem fetch_stream_error_leaves_partial_part (E : environment) (cid : string)
    (offset : Z) (part_path : string) (is_first : bool) (w w1 : world)
    (resp : response) (e : exn) :
  request_with_manual_backoff E cid offset w = (Val resp, w1) →
  status_code resp = 200 →
  stream_err resp = Some e →
  (∀ sz, files w !! part_path ≠ Some (Dir sz)) →
  ∃ w',
    fetch_page_to_partfile E cid offset part_path is_first w
    = (Val (false, "write_error:" +:+ exn_msg e, 0, 0), w')
    ∧ files w'
      = <[part_path := File (written is_first (out (stream_lines is_first (body resp))))]>
          (files w).
Proof.
  intros Hreq Hst Herr Hnd.
  pose proof (fetch_200 E cid offset part_path is_first w w1 resp Hreq
                (proj1 (request_keeps_files _ _ _ _ _ _ Hreq)) Hst) as H.
  cbv zeta in H. rewrite Herr in H.
  destruct (files w !! part_path) as [[d|sz]|] eqn:Hcell;
    [|destruct (Hnd sz eq_refl)|];
    destruct H as (w' & _ & Hrun & Hf); exists w'; split; assumption.
Qed.

Lemma fetch_stream_error_leaves_partial_part_witness :
  ∃ w',
    fetch_page_to_partfile (env_of cut_server) "GIANT" 5000 "part_000001.csv" false
                           empty_world
    = (Val (false, "write_error:Connection broken"%string, 0, 0), w')
    ∧ files w' = <["part_000001.csv" := File (data_row 80 ++ [NL])]> ∅.
Proof.
  destruct (fetch_stream_error_leaves_partial_part (env_of cut_server) "GIANT" 5000
              "part_000001.csv" false empty_world (log_gets 5000 [1%nat] empty_world)
              (mkResponse 200 [header_row 80; data_row 80] (Some broken_stream))
              broken_stream eq_refl eq_refl eq_refl)
    as (w' & Hrun & Hf).
  - intros sz. discriminate.
  - exists w'. split; [exact Hrun|exact Hf].
Defined.

(** ** Validation reads a bounded prefix *)

(** X8.  The validator looks at the first [MAX_VALIDATION_BYTES] bytes of the
    file only: two files that agree on that prefix get the same verdict; and
    validating changes nothing on disk. *)
Theorem validate_reads_prefix_only (E : environment) (path : string) (n : Z)
    (w w2 : world) (d d2 : list Z) :
  files w !! path = Some (File d) →
  files w2 !! path = Some (File d2) →
  take (Z.to_nat MAX_VALIDATION_BYTES) d = take (Z.to_nat MAX_VALIDATION_BYTES) d2 →
  fst (validate_header_min_cols E path n w) = fst (validate_header_min_cols E path n w2)
  ∧ snd (validate_header_min_cols E path n w) = w
  ∧ snd (validate_header_min_cols E path n w2) = w2.
Proof.
  intros H1 H2 Hpre.
  rewrite (validate_header_file _ _ _ _ _ H1), (validate_header_file _ _ _ _ _ H2), Hpre.
  auto.
Qed.

Lemma validate_reads_prefix_only_witness :
  fst (validate_header_min_cols (env_of acme_server) "a.csv" 80
                                (world_of {["a.csv" := File (table_file 80)]}))
  = fst (validate_header_min_cols (env_of acme_server) "a.csv" 80
                                  (world_of (<["b.csv" := File []]>
                                               {["a.csv" := File (table_file 80)]}))).
Proof.
  refine (proj1 (validate_reads_prefix_only (env_of acme_server) "a.csv" 80 _ _
                   (table_file 80) (table_file 80) _ _ _)).
  - reflexivity.
  - reflexivity.
  - reflexivity.
Defined.

(** ** Page planning *)

(** X9.  For a positive expected total the planned pages cover the expected
    rows and no page is planned beyond them: every row index below the total
    falls in the window of exactly one planned page, the offset of the last
    planned page is below the total, and the offsets submitted are 0,
    PAGE_LIMIT, 2 * PAGE_LIMIT, ... in page order. *)
Theorem pages_cover_expected_rows (year_dir cid : string) (expected_total : Z) :
  0 < expected_total →
  (0 < page_count expected_total)%nat
  ∧ (∀ r, 0 <= r < expected_total →
          ∃ i, (i < page_count expected_total)%nat
               ∧ Z.of_nat i * PAGE_LIMIT <= r < Z.of_nat i * PAGE_LIMIT + PAGE_LIMIT
               ∧ ∀ j, Z.of_nat j * PAGE_LIMIT <= r < Z.of_nat j * PAGE_LIMIT + PAGE_LIMIT →
                      j = i)
  ∧ Z.of_nat (page_count expected_total - 1) * PAGE_LIMIT < expected_total
  ∧ map (fun job : page_job => fst (fst job))
        (page_jobs year_dir cid (page_count expected_total))
    = map (fun i : nat => Z.of_nat i * PAGE_LIMIT) (seq 0 (page_count expected_total)).
Proof.
  intros Hpos.
  pose proof (ceil_div_bounds expected_total PAGE_LIMIT ltac:(reflexivity)) as [Hlo Hhi].
  assert (Hpages : 0 < ceil_div expected_total PAGE_LIMIT).
  { unfold PAGE_LIMIT in *. lia. }
  unfold page_count. split; [lia|]. split; [|split].
  - intros r Hr. exists (Z.to_nat (r / PAGE_LIMIT)).
    pose proof (Z.div_mod r PAGE_LIMIT ltac:(discriminate)) as Hdm.
    pose proof (Z.mod_pos_bound r PAGE_LIMIT ltac:(reflexivity)) as Hm.
    assert (Hq : 0 <= r / PAGE_LIMIT) by (apply Z.div_pos; [lia|reflexivity]).
    assert (Hlt : r / PAGE_LIMIT < ceil_div expected_total PAGE_LIMIT).
    { apply Z.div_lt_upper_bound; [reflexivity|]. lia. }
    split; [lia|]. rewrite Z2Nat.id by exact Hq. split; [lia|].
    intros j Hj. unfold PAGE_LIMIT in *. nia.
  - rewrite Nat2Z.inj_sub by lia. rewrite Z2Nat.id by lia. exact Hlo.
  - unfold page_jobs. rewrite map_map. reflexivity.
Qed.

Lemma pages_cover_expected_rows_witness :
  (0 < page_count 12000)%nat
  ∧ Z.of_nat (page_count 12000 - 1) * PAGE_LIMIT < 12000.
Proof.
  destruct (pages_cover_expected_rows "2023" "GIANT" 12000 ltac:(lia)) as (H1 & _ & H2 & _).
  split; [exact H1|exact H2].
Defined.

(** ** What the parallel downloader leaves among the part files *)

(** X10.  After a hard failure the parallel downloader cleans nothing up:
    every part path is left exactly as its page task left it, so a page that
    succeeded with data rows still has its part file on disk. *)
Theorem hard_failure_keeps_part_files (E : environment) (cid year_dir : string)
    (expected_total page_workers : Z) (sched : list nat) (w : world) (i j : nat) :
  0 < page_workers →
  sched ≡ₚ seq 0 (page_count expected_total) →
  (i < page_count expected_total)%nat →
  page_ok (page_result_at E cid year_dir i w) = false →
  (j < page_count expected_total)%nat →
  files (snd (download_big_parallel_pages E cid expected_total year_dir page_workers sched w))
    !! part_path_of year_dir cid j
  = files (snd (page_fetch E cid year_dir j w)) !! part_path_of year_dir cid j
  ∧ (page_ok (page_result_at E cid year_dir j w) = true →
     page_rows (page_result_at E cid year_dir j w) ≠ 0 →
     ∃ c, c ≠ []
          ∧ files (snd (download_big_parallel_pages E cid expected_total year_dir
                                                    page_workers sched w))
              !! part_path_of year_dir cid j = Some (File c)).
Proof.
  intros Hworkers Hperm Hi Hfail Hj.
  assert (Hpages : 0 < ceil_div expected_total PAGE_LIMIT).
  { unfold page_count in Hi. lia. }
  destruct (sched_complete _ _ Hperm) as [_ Hin].
  destruct (big_collected E cid year_dir expected_total page_workers sched w
              Hpages Hworkers Hperm)
    as (w1 & Hrun & _ & Hcells & _).
  rewrite Hrun. unfold big_after_pages. cbv zeta.
  destruct (hard_fails_of (map (fun j => (j, page_result_at E cid year_dir j w)) sched))
    as [|hf hfs] eqn:Hhf.
  { exfalso. apply hard_fails_of_nil in Hhf. rewrite Forall_forall in Hhf.
    specialize (Hhf (i, page_result_at E cid year_dir i w)). simpl in Hhf.
    rewrite Hfail in Hhf. enough (false = true) by discriminate. apply Hhf.
    apply list_elem_of_In, in_map_iff. exists i. split; [reflexivity|].
    apply list_elem_of_In, Hin, Hi. }
  cbn [snd ret]. unfold ret. cbn [snd]. split; [apply Hcells, Hj|].
  intros Hok Hrows. rewrite (Hcells j Hj).
  destruct (page_ok_cell E cid year_dir j w Hok) as [[H0 _]|[_ Hc]]; [contradiction|].
  exact Hc.
Qed.

Lemma hard_failure_keeps_part_files_witness :
  ∃ c, c ≠ []
       ∧ files (snd (download_big_parallel_pages (env_of giant_failing_server) "GIANT" 12000
                                                 "2023" 10 [2; 0; 1]%nat empty_world))
           !! part_path_of "2023" "GIANT" 0 = Some (File c).
Proof.
  refine (proj2 (hard_failure_keeps_part_files (env_of giant_failing_server) "GIANT" "2023"
                   12000 10 [2; 0; 1]%nat empty_world 1%nat 0%nat _ _ _ _ _) _ _).
  - lia.
  - exact (perm_trans (perm_swap 0%nat 2%nat [1%nat])
                      (perm_skip 0%nat (perm_swap 1%nat 2%nat []))).
  - vm_compute. lia.
  - vm_compute. reflexivity.
  - vm_compute. lia.
  - vm_compute. reflexivity.
  - vm_compute. discriminate.
Defined.

Lemma cleanup_loop_removes (parts : list string) :
  ∀ w,
    (∀ p, p ∈ parts → ∀ sz, files w !! p ≠ Some (Dir sz)) →
    ∀ p, p ∈ parts → files (snd (cleanup_loop parts w)) !! p = None.
Proof.
  induction parts as [|q rest IH]; intros w Hnd p Hp; [inversion Hp|].
  cbn [cleanup_loop]. rewrite run_path_exists.
  destruct (files w !! q) as [[d|sz]|] eqn:Hq.
  - rewrite bool_decide_eq_true_2 by eauto.
    rewrite (run_unlink_file _ _ _ _ Hq).
    set (w1 := mkWorld _ _ _).
    assert (Hnd1 : ∀ p, p ∈ rest → ∀ sz, files w1 !! p ≠ Some (Dir sz)).
    { intros p' Hp' sz. unfold w1. cbn [files].
      destruct (decide (p' = q)) as [->|Hne].
      - rewrite lookup_delete_eq. discriminate.
      - rewrite lookup_delete_ne by congruence. apply Hnd. right. exact Hp'. }
    destruct (decide (p ∈ rest)) as [Hin|Hnin]; [exact (IH w1 Hnd1 p Hin)|].
    apply elem_of_cons in Hp as [->|Hp]; [|contradiction].
    destruct (cleanup_loop_frame rest w1) as (_ & Hf & _).
    rewrite (Hf q Hnin). unfold w1. cbn [files]. apply lookup_delete_eq.
  - exfalso. apply (Hnd q ltac:(left) sz). exact Hq.
  - rewrite bool_decide_eq_false_2 by (intros [x Hx]; discriminate).
    rewrite run_ret.
    assert (Hnd1 : ∀ p, p ∈ rest → ∀ sz, files w !! p ≠ Some (Dir sz)).
    { intros p' Hp'. apply Hnd. right. exact Hp'. }
    destruct (decide (p ∈ rest)) as [Hin|Hnin]; [exact (IH w Hnd1 p Hin)|].
    apply elem_of_cons in Hp as [->|Hp]; [|contradiction].
    destruct (cleanup_loop_frame rest w) as (_ & Hf & _).
    rewrite (Hf q Hnin). exact Hq.
Qed.

Lemma all_pages_ok_of_no_hard_fails (E : environment) (cid year_dir : string)
    (sched : list nat) (n : nat) (w : world) :
  sched ≡ₚ seq 0 n →
  hard_fails_of (map (fun j => (j, page_result_at E cid year_dir j w)) sched) = [] →
  ∀ i, (i < n)%nat → page_ok (page_result_at E cid year_dir i w) = true.
Proof.
  intros Hperm Hhf i Hi. destruct (sched_complete _ _ Hperm) as [_ Hin].
  apply hard_fails_of_nil in Hhf. rewrite Forall_forall in Hhf.
  apply (Hhf (i, page_result_at E cid year_dir i w)).
  apply list_elem_of_In, in_map_iff. exists i. split; [reflexivity|].
  apply list_elem_of_In, Hin, Hi.
Qed.

(** X11.  A successful parallel run removes every part file of the entity:
    afterwards no part path of a planned page holds anything, and only the
    final file is left. *)
Theorem success_removes_part_files (E : environment) (cid year_dir : string)
    (expected_total page_workers : Z) (sched : list nat) (w : world) (msg : string) :
  0 < page_workers →
  sched ≡ₚ seq 0 (page_count expected_total) →
  (∀ sz, files w !! final_path_of year_dir cid ≠ Some (Dir sz)) →
  fst (download_big_parallel_pages E cid expected_total year_dir page_workers sched w)
  = Val (cid, YEAR, true, msg) →
  ∀ j, (j < page_count expected_total)%nat →
       files (snd (download_big_parallel_pages E cid expected_total year_dir page_workers
                                               sched w))
         !! part_path_of year_dir cid j = None.
Proof.
  intros Hworkers Hperm Hfinal Hres j Hj.
  assert (Hpages : 0 < ceil_div expected_total PAGE_LIMIT).
  { unfold page_count in Hj. lia. }
  destruct (big_collected E cid year_dir expected_total page_workers sched w
              Hpages Hworkers Hperm)
    as (w1 & Hrun & Hframe & Hcells & _).
  rewrite Hrun in Hres |- *. clear Hrun. revert Hres.
  unfold big_after_pages. cbv zeta.
  destruct (hard_fails_of (map (fun j => (j, page_result_at E cid year_dir j w)) sched))
    as [|hf hfs] eqn:Hhf; [|intros [=]].
  pose proof (all_pages_ok_of_no_hard_fails E cid year_dir sched _ w Hperm Hhf) as Hok.
  match goal with
  | |- context [?t =? 0] => destruct (Z.eqb_spec t 0) as [|_]; [intros [=]|]
  end.
  set (parts := map (part_path_of year_dir cid) (seq 0 (page_count expected_total))).
  assert (Hparts1 : ∀ p, p ∈ parts → ∀ sz, files w1 !! p ≠ Some (Dir sz)).
  { intros p Hp sz. unfold parts in Hp.
    apply list_elem_of_In, in_map_iff in Hp as (i & <- & Hi). apply in_seq in Hi.
    rewrite Hcells by lia.
    destruct (page_ok_cell E cid year_dir i w (Hok i ltac:(lia)))
      as [[_ Hc]|[_ (c & _ & Hc)]]; cbv zeta in Hc; rewrite Hc; discriminate. }
  assert (Hnotin : final_path_of year_dir cid ∉ parts).
  { unfold parts. intros Hin'. apply list_elem_of_In, in_map_iff in Hin' as (i & Hi & _).
    symmetry in Hi. exact (final_not_part _ _ _ Hi). }
  destruct (merge_parts_run E parts (final_path_of year_dir cid) w1 Hnotin)
    as (w2 & ok & m & Hm & _ & _ & Hcases).
  { intros sz. rewrite Hframe; [apply Hfinal|]. intros i. apply final_not_part. }
  { exact Hparts1. }
  unfold bind. rewrite !Hm.
  destruct ok; cbn [negb]; [|intros [=]]. intros _.
  assert (Hnd2 : ∀ p, p ∈ parts → ∀ sz, files w2 !! p ≠ Some (Dir sz)).
  { intros p Hp sz.
    assert (Hne : p ≠ final_path_of year_dir cid) by (intros ->; contradiction).
    destruct Hcases as [(_ & _ & Hf)|[(_ & _ & Hf)|(_ & _ & Hf & _)]]; rewrite Hf.
    + rewrite lookup_insert_ne by congruence. apply Hparts1, Hp.
    + rewrite lookup_delete_ne by congruence. apply Hparts1, Hp.
    + rewrite lookup_insert_ne by congruence. apply Hparts1, Hp. }
  assert (Hinj : part_path_of year_dir cid j ∈ parts).
  { unfold parts. apply list_elem_of_In, in_map_iff. exists j. split; [reflexivity|].
    apply in_seq. lia. }
  pose proof (cleanup_loop_removes parts w2 Hnd2 _ Hinj) as Hrem.
  destruct (cleanup_loop_frame parts w2) as (Hd & _).
  unfold try_except, ret.
  destruct (cleanup_loop parts w2) as [[[]|e|] w3]; simpl in *;
    [exact Hrem|exact Hrem|congruence].
Qed.

Lemma success_removes_part_files_witness :
  files (snd (download_big_parallel_pages (env_of giant_server) "GIANT" 12000 "2023" 10
                                          [2; 0; 1]%nat empty_world))
    !! part_path_of "2023" "GIANT" 1 = None.
Proof.
  refine (success_removes_part_files (env_of giant_server) "GIANT" "2023" 12000 10
            [2; 0; 1]%nat empty_world "downloaded_big_ok_pages=3_rows~5" _ _ _ _ 1%nat _).
  - lia.
  - exact (perm_trans (perm_swap 0%nat 2%nat [1%nat])
                      (perm_skip 0%nat (perm_swap 1%nat 2%nat []))).
  - intros sz. discriminate.
  - vm_compute. reflexivity.
  - vm_compute. lia.
Defined.

Lemma rows_sum_zero (f : nat → Z) (l : list nat) :
  (∀ i, i ∈ l → f i = 0) → foldr Z.add 0 (map f l) = 0.
Proof.
  induction l as [|i l IH]; intros H; cbn [map foldr]; [reflexivity|].
  rewrite (H i ltac:(left)), IH; [reflexivity|]. intros j Hj. apply H. right. exact Hj.
Qed.

(** X12.  When every page of an entity comes back successful with no data
    row, the parallel downloader reports [no_results_all_pages_empty], no
    merge takes place (the final path is left as it was), and no part file
    remains. *)
Theorem all_pages_empty_leaves_nothing (E : environment) (cid year_dir : string)
    (expected_total page_workers : Z) (sched : list nat) (w : world) :
  0 < page_workers →
  0 < ceil_div expected_total PAGE_LIMIT →
  sched ≡ₚ seq 0 (page_count expected_total) →
  (∀ i, (i < page_count expected_total)%nat →
        page_ok (page_result_at E cid year_dir i w) = true
        ∧ page_rows (page_result_at E cid year_dir i w) = 0) →
  ∃ w',
    download_big_parallel_pages E cid expected_total year_dir page_workers sched w
    = (Val (cid, YEAR, false, "no_results_all_pages_empty"%string), w')
    ∧ files w' !! final_path_of year_dir cid = files w !! final_path_of year_dir cid
    ∧ ∀ j, (j < page_count expected_total)%nat →
           files w' !! part_path_of year_dir cid j = None.
Proof.
  intros Hworkers Hpages Hperm Hall.
  destruct (sched_complete _ _ Hperm) as [_ Hin].
  destruct (big_collected E cid year_dir expected_total page_workers sched w
              Hpages Hworkers Hperm)
    as (w1 & Hrun & Hframe & Hcells & _).
  exists w1. rewrite Hrun. unfold big_after_pages. cbv zeta.
  assert (Hhf : hard_fails_of (map (fun i => (i, page_result_at E cid year_dir i w)) sched) = []).
  { apply hard_fails_of_nil. apply Forall_forall. intros ir Hir.
    apply list_elem_of_In, in_map_iff in Hir as (i & <- & Hi).
    apply Hall, Hin, list_elem_of_In, Hi. }
  rewrite Hhf, rows_sum_zero by (intros i Hi; apply Hall, Hin, Hi).
  change (0 =? 0) with true. cbv iota. split; [reflexivity|]. split.
  - apply Hframe. intros i. apply final_not_part.
  - intros j Hj. rewrite (Hcells j Hj).
    destruct (Hall j Hj) as [Hok Hrows].
    destruct (page_ok_cell E cid year_dir j w Hok) as [[_ Hc]|[Hne _]];
      [exact Hc|contradiction].
Qed.

Lemma all_pages_empty_leaves_nothing_witness :
  ∃ w',
    download_big_parallel_pages (env_of empty_server) "GIANT" 12000 "2023" 10
                                [2; 0; 1]%nat empty_world
    = (Val ("GIANT"%string, YEAR, false, "no_results_all_pages_empty"%string), w')
    ∧ files w' !! part_path_of "2023" "GIANT" 0 = None.
Proof.
  destruct (all_pages_empty_leaves_nothing (env_of empty_server) "GIANT" "2023" 12000 10
              [2; 0; 1]%nat empty_world) as (w' & Hrun & _ & Hparts).
  - lia.
  - vm_compute. reflexivity.
  - exact (perm_trans (perm_swap 0%nat 2%nat [1%nat])
                      (perm_skip 0%nat (perm_swap 1%nat 2%nat []))).
  - intros i Hi.
    assert (Hc : (i = 0 ∨ i = 1 ∨ i = 2)%nat) by (vm_compute in Hi; lia).
    destruct Hc as [->|[->| ->]]; vm_compute; split; reflexivity.
  - exists w'. split; [exact Hrun|]. apply Hparts. vm_compute. lia.
Defined.

(** ** The merge *)

Lemma total_merge_write_loop (parts : list string) (final_path : string) :
  total (merge_write_loop parts final_path).
Proof.
  induction parts as [|p rest IH]; cbn [merge_write_loop]; [apply total_ret|].
  apply total_bind; [apply total_path_exists|]. intros ex.
  apply total_bind; [|intros _; exact IH].
  destruct ex; [|apply total_ret].
  apply total_bind; [apply total_stat_size|]. intros sz.
  destruct (sz >? 0); [|apply total_ret].
  apply total_bind; [apply total_read_bytes|]. intros data. apply total_write_bytes.
Qed.

Lemma keeps_to_readonly {A} (p : string) (m : M A) :
  (∀ w, snd (m w) = w) → keeps_to p m.
Proof.
  intros H w. rewrite H. split; [reflexivity|].
  exists []. rewrite app_nil_r. split; [reflexivity|constructor].
Qed.

Lemma keeps_to_try_except {A} (p : string) (m : M A) (h : exn → M A) :
  keeps_to p m → (∀ e, keeps_to p (h e)) → keeps_to p (try_except m h).
Proof.
  intros Hm Hh w. unfold try_except. destruct (Hm w) as (Hf & evs & Hl & Hevs).
  destruct (m w) as [[a|e|] w1]; cbn [fst snd] in *;
    [split; [exact Hf|exists evs; split; assumption]| |
     split; [exact Hf|exists evs; split; assumption]].
  destruct (Hh e w1) as (Hf2 & evs2 & Hl2 & Hevs2). split.
  - intros q Hq. rewrite Hf2, Hf by assumption. reflexivity.
  - exists (evs ++ evs2). rewrite Hl2, Hl, app_assoc. split; [reflexivity|].
    apply Forall_app. split; assumption.
Qed.

Lemma keeps_to_merge_write_loop (parts : list string) (final_path : string) :
  keeps_to final_path (merge_write_loop parts final_path).
Proof.
  induction parts as [|p rest IH]; cbn [merge_write_loop]; [apply keeps_to_ret|].
  apply keeps_to_bind; [apply keeps_to_readonly; reflexivity|]. intros ex.
  apply keeps_to_bind; [|intros _; exact IH].
  destruct ex; [|apply keeps_to_ret].
  apply keeps_to_bind.
  { apply keeps_to_readonly. intros w. unfold stat_size.
    destruct (files w !! p) as [[d|sz]|]; reflexivity. }
  intros sz. destruct (sz >? 0); [|apply keeps_to_ret].
  apply keeps_to_bind.
  { apply keeps_to_readonly. intros w. unfold read_bytes.
    destruct (files w !! p) as [[d|sz']|]; reflexivity. }
  intros data. apply keeps_to_confined, confined_write_bytes.
Qed.

Lemma keeps_to_count_lines_quick (p q : string) (n : Z) :
  keeps_to p (count_lines_quick q n).
Proof.
  apply keeps_to_readonly. intros w. unfold count_lines_quick, try_except, bind, read_bytes.
  destruct (files w !! q) as [[d|sz]|]; reflexivity.
Qed.

Lemma keeps_to_validate (E : environment) (p q : string) (n : Z) :
  keeps_to p (validate_header_min_cols E q n).
Proof.
  apply keeps_to_readonly. intros w.
  destruct (validate_header_min_cols_returns E q n w) as (ok & reason & ->). reflexivity.
Qed.

(** X13.  The merge never raises and never fails to end: whatever the parts
    and the state of the disk (missing parts, directories in the way), it
    returns a pair (ok, message); and every file operation it performs is on
    the final path, all other paths being left as they were. *)
Theorem merge_parts_never_raises (E : environment) (parts : list string)
    (final_path : string) (w : world) :
  ∃ ok msg w',
    merge_parts E parts final_path w = (Val (ok, msg), w')
    ∧ (∀ q, q ≠ final_path → files w' !! q = files w !! q)
    ∧ ∃ evs, fs_log w' = fs_log w ++ evs
             ∧ Forall (fun ev => ∀ q, q ∈ event_paths ev → q = final_path) evs.
Proof.
  assert (Hkeeps : keeps_to final_path (merge_parts E parts final_path)).
  { unfold merge_parts. apply keeps_to_try_except; [|intros e; apply keeps_to_ret].
    apply keeps_to_bind; [apply keeps_to_readonly; reflexivity|]. intros ex.
    apply keeps_to_bind.
    { destruct ex; [apply keeps_to_confined, confined_unlink|apply keeps_to_ret]. }
    intros _. apply keeps_to_bind; [apply keeps_to_confined, confined_open_w|]. intros _.
    apply keeps_to_bind; [apply keeps_to_merge_write_loop|]. intros _.
    apply keeps_to_bind; [apply keeps_to_readonly; reflexivity|]. intros ex2.
    apply keeps_to_bind.
    { destruct ex2; [apply keeps_to_confined, confined_stat_size|apply keeps_to_ret]. }
    intros sz. destruct (negb ex2 || (sz =? 0)); [apply keeps_to_ret|].
    apply keeps_to_bind; [apply keeps_to_count_lines_quick|]. intros n.
    destruct (n <? 2).
    { apply keeps_to_confined. confined_auto. }
    apply keeps_to_bind; [apply keeps_to_validate|]. intros [ok reason].
    destruct (negb ok); [apply keeps_to_confined; confined_auto|apply keeps_to_ret]. }
  assert (Hval : ∃ a, fst (merge_parts E parts final_path w) = Val a).
  { unfold merge_parts.
    apply (try_except_ret_returns _ (fun e => (false, "merge_error:" +:+ exn_msg e))).
    apply total_bind; [apply total_path_exists|]. intros ex.
    apply total_bind; [destruct ex; [apply total_unlink|apply total_ret]|]. intros _.
    apply total_bind; [apply total_open_w|]. intros _.
    apply total_bind; [apply total_merge_write_loop|]. intros _.
    apply total_bind; [apply total_path_exists|]. intros ex2.
    apply total_bind; [destruct ex2; [apply total_stat_size|apply total_ret]|].
    intros sz. destruct (negb ex2 || (sz =? 0)); [apply total_ret|].
    apply total_bind.
    { unfold count_lines_quick. apply total_try_except; [|intros e; apply total_ret].
      apply total_bind; [apply total_read_bytes|]. intros d. apply total_ret. }
    intros n. destruct (n <? 2).
    { apply total_bind; [apply total_try_unlink|intros _; apply total_ret]. }
    apply total_bind; [apply total_validate|]. intros [ok reason].
    destruct (negb ok); [|apply total_ret].
    apply total_bind; [apply total_try_unlink|intros _; apply total_ret]. }
  specialize (Hkeeps w). destruct Hval as [[ok msg] Hval].
  destruct (merge_parts E parts final_path w) as [r w'] eqn:Hrun.
  cbn [fst snd] in *. subst r.
  exists ok, msg, w'. split; [reflexivity|exact Hkeeps].
Qed.

(** X14.  With the final path not among the parts and no directory in the
    way, the merge writes the parts' bytes to the final path in list order,
    skipping missing and empty parts.  If that leaves nothing, it reports
    failure and the empty file it created stays at the final path; otherwise
    the final path holds exactly the concatenation, of at least two lines,
    when the merge reports success, and is removed when it reports failure. *)
Theorem merge_parts_concatenates (E : environment) (parts : list string)
    (final_path : string) (w : world) :
  final_path ∉ parts →
  (∀ sz, files w !! final_path ≠ Some (Dir sz)) →
  (∀ p, p ∈ parts → ∀ sz, files w !! p ≠ Some (Dir sz)) →
  ∃ ok msg w',
    merge_parts E parts final_path w = (Val (ok, msg), w')
    ∧ (concat (map (file_bytes (files w)) parts) = [] →
       ok = false ∧ files w' !! final_path = Some (File []))
    ∧ (concat (map (file_bytes (files w)) parts) ≠ [] →
       if ok
       then files w' !! final_path
            = Some (File (concat (map (file_bytes (files w)) parts)))
            ∧ (2 <= line_count (concat (map (file_bytes (files w)) parts)))%nat
       else files w' !! final_path = None).
Proof.
  intros Hnotin Hfinal Hparts.
  destruct (merge_parts_run E parts final_path w Hnotin Hfinal Hparts)
    as (w' & ok & msg & Hrun & _ & _ & Hcases).
  cbv zeta in Hcases. exists ok, msg, w'. split; [exact Hrun|].
  destruct Hcases as [(Hnil & -> & Hf)|[(Hne & -> & Hf)|(Hne & -> & Hf & Hcount & _)]].
  - split; [|intros H; contradiction].
    intros _. split; [reflexivity|]. rewrite Hf. apply lookup_insert_eq.
  - split; [intros H; contradiction|]. intros _. rewrite Hf. apply lookup_delete_eq.
  - split; [intros H; contradiction|]. intros _.
    split; [rewrite Hf; apply lookup_insert_eq|exact Hcount].
Qed.

Lemma merge_parts_concatenates_witness :
  ∃ ok msg w',
    merge_parts (env_of acme_server) ["p0"; "p1"; "p2"]%string "f.csv"
                (world_of (<["p1"%string := File (table_file 80)]>
                             {["p2"%string := File []]}))
    = (Val (ok, msg), w')
    ∧ (if ok
       then files w' !! "f.csv"%string = Some (File (table_file 80))
            ∧ (2 <= line_count (table_file 80))%nat
       else files w' !! "f.csv"%string = None).
Proof.
  destruct (merge_parts_concatenates (env_of acme_server) ["p0"; "p1"; "p2"]%string "f.csv"
              (world_of (<["p1"%string := File (table_file 80)]> {["p2"%string := File []]})))
    as (ok & msg & w' & Hrun & _ & Hne).
  - intros H. repeat (apply elem_of_cons in H as [H|H]; [discriminate H|]). inversion H.
  - intros sz. discriminate.
  - intros p Hp sz.
    repeat (apply elem_of_cons in Hp as [->|Hp]; [discriminate|]). inversion Hp.
  - exists ok, msg, w'. split; [exact Hrun|].
    apply Hne. vm_compute. discriminate.
Defined.

Example merge_of_nothing_leaves_empty_file :
  let r := merge_parts (env_of acme_server) ["p0"; "p1"]%string "f.csv"
                       (world_of {["p1"%string := File []]}) in
  fst r = Val (false, "merged_empty"%string)
  ∧ files (snd r) !! "f.csv"%string = Some (File []).
Proof. vm_compute. auto. Qed.

(** ** The sequential downloader when a page fails *)

Lemma pages_bytes_app (a b : list response) :
  ∀ j, pages_bytes j (a ++ b) = pages_bytes j a ++ pages_bytes (j + length a) b.
Proof.
  induction a as [|r a IH]; intros j; cbn [pages_bytes app length].
  - rewrite Nat.add_0_r. reflexivity.
  - rewrite IH, <- app_assoc. replace (S j + length a)%nat with (j + S (length a))%nat by lia.
    reflexivity.
Qed.

(** The data pages at the head of a run: the loop works through them and
    carries on at the next offset. *)
Lemma small_loop_data_pages (E : environment) (cid tmp : string) (resps : list response) :
  ∀ (j fuel : nat) (total : Z) (wh : bool) (w : world),
    (∀ sz, files w !! tmp ≠ Some (Dir sz)) →
    let old := if Z.of_nat j * PAGE_LIMIT =? 0 then [] else file_bytes (files w) tmp in
    (old = [] ∨ last old = Some NL) →
    pages_with_data E cid j resps →
    ∃ w' wh',
      small_loop E (length resps + fuel) cid tmp (Z.of_nat j * PAGE_LIMIT) total wh w
      = small_loop E fuel cid tmp (Z.of_nat (j + length resps) * PAGE_LIMIT)
                   (total + pages_rows j resps) wh' w'
      ∧ (∀ q, q ≠ tmp → files w' !! q = files w !! q)
      ∧ (∀ sz, files w' !! tmp ≠ Some (Dir sz))
      ∧ (if Z.of_nat (j + length resps) * PAGE_LIMIT =? 0 then []
         else file_bytes (files w') tmp) = old ++ pages_bytes j resps
      ∧ (old ++ pages_bytes j resps = [] ∨ last (old ++ pages_bytes j resps) = Some NL)
      ∧ ∃ blocks, net_log w' = net_log w ++ concat blocks
                  ∧ Forall2 page_requests (seq j (length resps)) blocks.
Proof.
  induction resps as [|r rest IH]; intros j fuel total wh w Hnd old Hold Hserved.
  - exists w, wh. cbn [length pages_rows pages_bytes Nat.add].
    rewrite Nat.add_0_r, Z.add_0_r, app_nil_r.
    split; [reflexivity|]. split; [reflexivity|]. split; [exact Hnd|].
    split; [reflexivity|]. split; [exact Hold|].
    exists []. cbn [concat seq]. rewrite app_nil_r. split; [reflexivity|constructor].
  - destruct Hserved as (Hresp & Hst & Herr & Hrows & Hrest).
    cbn [length Nat.add].
    destruct (small_loop_page E (length rest + fuel) cid tmp _ total wh w r
                Hresp Hst Herr Hnd Hold)
      as (w1 & used & Hused & Hf & Hn & Hstep).
    fold (page_state j r) in Hstep, Hf. fold (page_bytes j r) in Hf. fold old in Hf.
    destruct (Z.eqb_spec (data_lines (page_state j r)) 0) as [|_]; [contradiction|].
    rewrite next_offset in Hstep.
    assert (Hcell : files w1 !! tmp = Some (File (old ++ page_bytes j r))).
    { rewrite Hf. apply lookup_insert_eq. }
    assert (Hlast1 : old ++ page_bytes j r = [] ∨ last (old ++ page_bytes j r) = Some NL).
    { unfold page_bytes.
      destruct (written_last (Z.of_nat j * PAGE_LIMIT =? 0) (out (page_state j r))
                  (stream_lines_out_last _ (body r))) as [H0|H1].
      - rewrite H0, app_nil_r. exact Hold.
      - right. rewrite last_app, H1. reflexivity. }
    destruct (IH (S j) fuel (total + data_lines (page_state j r))
                 (wh || header_written (page_state j r))%bool w1)
      as (w' & wh' & Hrun & Hframe & Hnd' & Hold' & Hlast' & blocks & Hn' & Hblocks).
    { intros sz. rewrite Hcell. discriminate. }
    { rewrite later_offset. unfold file_bytes. rewrite Hcell. exact Hlast1. }
    { exact Hrest. }
    rewrite later_offset in Hold', Hlast'. unfold file_bytes in Hold', Hlast'.
    rewrite Hcell in Hold', Hlast'. rewrite <- app_assoc in Hold', Hlast'.
    exists w', wh'. cbn [pages_rows pages_bytes].
    replace (j + S (length rest))%nat with (S j + length rest)%nat by lia.
    split.
    { rewrite Hstep, Hrun. f_equal. lia. }
    split.
    { intros q Hq. rewrite Hframe by exact Hq. rewrite Hf. apply lookup_insert_ne. congruence. }
    split; [exact Hnd'|]. split; [exact Hold'|]. split; [exact Hlast'|].
    exists (map (fun a : nat => (Z.of_nat j * PAGE_LIMIT, a)) used :: blocks).
    cbn [concat seq]. split; [rewrite Hn', Hn, <- app_assoc; reflexivity|].
    constructor; [|exact Hblocks]. exists used. split; [exact Hused|reflexivity].
Qed.

Lemma delete_agree (m m1 : gmap string node) (p : string) :
  (∀ q, q ≠ p → m1 !! q = m !! q) → delete p m1 = delete p m.
Proof.
  intros H. apply map_eq. intros q. destruct (decide (q = p)) as [->|Hne].
  - rewrite !lookup_delete_eq. reflexivity.
  - rewrite !lookup_delete_ne by congruence. apply H, Hne.
Qed.

Lemma insert_agree (m m1 : gmap string node) (p : string) (n : node) :
  (∀ q, q ≠ p → m1 !! q = m !! q) → <[p := n]> m1 = <[p := n]> m.
Proof.
  intros H. apply map_eq. intros q. destruct (decide (q = p)) as [->|Hne].
  - rewrite !lookup_insert_eq. reflexivity.
  - rewrite !lookup_insert_ne by congruence. apply H, Hne.
Qed.

Lemma run_try_unlink_any {B} (p : string) (k : unit → M B) (w : world) :
  (∀ sz, files w !! p ≠ Some (Dir sz)) →
  ∃ w1, bind (try_unlink p) k w = k tt w1
        ∧ files w1 = delete p (files w) ∧ net_log w1 = net_log w.
Proof.
  intros Hnd. destruct (files w !! p) as [[d|sz]|] eqn:Hc; [|destruct (Hnd sz eq_refl)|].
  - eexists. split; [apply (run_try_unlink_file _ _ _ _ Hc)|]. split; reflexivity.
  - exists w. split; [apply (run_try_unlink_missing _ _ _ Hc)|].
    split; [symmetry; apply delete_id, Hc|reflexivity].
Qed.

(** X15.  In the sequential path a stream that breaks in the middle of a
    page is not caught: after any number of complete data pages, a 200
    response whose stream raises makes the downloader raise that same
    exception; the final path is untouched and the temporary file is left on
    disk, holding everything written up to the break. *)
Theorem sequential_stream_error_propagates (E : environment) (cid year_dir : string)
    (resps : list response) (resp : response) (e : exn) (fuel : nat) (w : world) :
  (∀ sz, files w !! tmp_path_of year_dir cid ≠ Some (Dir sz)) →
  pages_with_data E cid 0 resps →
  page_response E cid (Z.of_nat (length resps) * PAGE_LIMIT) = Val resp →
  status_code resp = 200 →
  stream_err resp = Some e →
  (length resps < fuel)%nat →
  ∃ w',
    download_small_sequential E fuel cid year_dir w = (Exc e, w')
    ∧ files w' = <[tmp_path_of year_dir cid := File (pages_bytes 0 (resps ++ [resp]))]>
                   (delete (tmp_path_of year_dir cid) (files w)).
Proof.
  intros Htmp Hdata Hresp Hst Herr Hfuel.
  set (tmp := tmp_path_of year_dir cid) in *.
  destruct (small_start tmp w Htmp) as (w0 & Hstart & Hf0 & Hn0).
  unfold download_small_sequential. cbv zeta. fold tmp. rewrite Hstart.
  assert (Hnone : files w0 !! tmp = None) by (rewrite Hf0; apply lookup_delete_eq).
  replace fuel with (length resps + S (fuel - length resps - 1))%nat by lia.
  destruct (small_loop_data_pages E cid tmp resps 0 (S (fuel - length resps - 1)) 0 false w0)
    as (w1 & wh' & Hloop & Hframe & Hnd1 & Hold & _ & _).
  { intros sz. rewrite Hnone. discriminate. }
  { left. reflexivity. }
  { exact Hdata. }
  change (Z.of_nat 0 * PAGE_LIMIT) with 0 in Hloop.
  change (Z.of_nat 0 * PAGE_LIMIT =? 0) with true in Hold. cbn [app Nat.add] in Hold, Hloop.
  unfold bind at 1. rewrite Hloop.
  destruct (small_loop_unfold E (fuel - length resps - 1) cid tmp
              (Z.of_nat (length resps) * PAGE_LIMIT) (0 + pages_rows 0 resps) wh' w1)
    as (used & _ & ->).
  rewrite Hresp, Hst. change (negb (200 =? 200)) with false. cbv iota.
  destruct (write_lines_run tmp (negb (Z.of_nat (length resps) * PAGE_LIMIT =? 0))
              (Z.of_nat (length resps) * PAGE_LIMIT =? 0)
              (Z.of_nat (length resps) * PAGE_LIMIT =? 0) resp
              (log_gets (Z.of_nat (length resps) * PAGE_LIMIT) used w1) Hnd1)
    as (w2 & Hw & Hf2 & _).
  rewrite Herr in Hw. rewrite (bind_exc _ _ _ _ _ Hw).
  exists w2. split; [reflexivity|].
  rewrite Hf2. cbn [files log_gets].
  assert (Hold2 : (if negb (Z.of_nat (length resps) * PAGE_LIMIT =? 0)
                   then file_bytes (files w1) tmp else [])
                  = pages_bytes 0 resps).
  { rewrite <- Hold. destruct (Z.of_nat (length resps) * PAGE_LIMIT =? 0); reflexivity. }
  rewrite Hold2, pages_bytes_app. cbn [pages_bytes Nat.add]. rewrite app_nil_r.
  fold (page_state (length resps) resp). fold (page_bytes (length resps) resp).
  apply insert_agree. intros q Hq. rewrite Hframe by exact Hq. rewrite Hf0. reflexivity.
Qed.

Lemma sequential_stream_error_propagates_witness :
  ∃ w',
    download_small_sequential (env_of cut_server) 5 "ACME" "2023" empty_world
    = (Exc broken_stream, w')
    ∧ files w'
      = <[tmp_path_of "2023" "ACME" := File (BOM ++ terminated [header_row 80; data_row 80])]> ∅.
Proof.
  destruct (sequential_stream_error_propagates (env_of cut_server) "ACME" "2023" []
              (mkResponse 200 [header_row 80; data_row 80] (Some broken_stream))
              broken_stream 5 empty_world) as (w' & Hrun & Hf).
  - intros sz. discriminate.
  - exact I.
  - reflexivity.
  - reflexivity.
  - reflexivity.
  - simpl. lia.
  - exists w'. split; [exact Hrun|]. rewrite Hf. reflexivity.
Defined.

(** X16.  In the sequential path, when after any number of complete data
    pages the request for the next page fails (the retry loop raises, or the
    response has a status other than 200), the downloader returns a failed
    outcome naming the error (the HTTP status with the offset, or the
    request error), deletes the temporary file with everything downloaded so
    far, and changes no other path: the final path gets nothing. *)
Theorem sequential_failure_discards_progress (E : environment) (cid year_dir : string)
    (resps : list response) (fuel : nat) (w : world) :
  (∀ sz, files w !! tmp_path_of year_dir cid ≠ Some (Dir sz)) →
  pages_with_data E cid 0 resps →
  match page_response E cid (Z.of_nat (length resps) * PAGE_LIMIT) with
  | Val resp => status_code resp ≠ 200
  | Exc _ => True
  | Diverge => False
  end →
  (length resps < fuel)%nat →
  ∃ w',
    download_small_sequential E fuel cid year_dir w
    = (Val (cid, YEAR, false,
            match page_response E cid (Z.of_nat (length resps) * PAGE_LIMIT) with
            | Val resp =>
                http_error_msg (status_code resp) (Z.of_nat (length resps) * PAGE_LIMIT)
            | Exc e => ("request_error:" +:+ exn_msg e)%string
            | Diverge => ""%string
            end), w')
    ∧ files w' = delete (tmp_path_of year_dir cid) (files w).
Proof.
  intros Htmp Hdata Hfail Hfuel.
  set (tmp := tmp_path_of year_dir cid) in *.
  destruct (small_start tmp w Htmp) as (w0 & Hstart & Hf0 & Hn0).
  unfold download_small_sequential. cbv zeta. fold tmp. rewrite Hstart.
  assert (Hnone : files w0 !! tmp = None) by (rewrite Hf0; apply lookup_delete_eq).
  replace fuel with (length resps + S (fuel - length resps - 1))%nat by lia.
  destruct (small_loop_data_pages E cid tmp resps 0 (S (fuel - length resps - 1)) 0 false w0)
    as (w1 & wh' & Hloop & Hframe & Hnd1 & _ & _ & _).
  { intros sz. rewrite Hnone. discriminate. }
  { left. reflexivity. }
  { exact Hdata. }
  change (Z.of_nat 0 * PAGE_LIMIT) with 0 in Hloop. cbn [Nat.add] in Hloop.
  unfold bind at 1. rewrite Hloop.
  destruct (small_loop_unfold E (fuel - length resps - 1) cid tmp
              (Z.of_nat (length resps) * PAGE_LIMIT) (0 + pages_rows 0 resps) wh' w1)
    as (used & _ & ->).
  assert (Hdel : ∀ w2, files w2 = delete tmp (files w1) → files w2 = delete tmp (files w)).
  { intros w2 ->. rewrite <- (delete_delete_eq (files w)), <- Hf0.
    apply delete_agree. intros q Hq. apply Hframe, Hq. }
  destruct (page_response E cid (Z.of_nat (length resps) * PAGE_LIMIT)) as [resp|e|];
    [|clear Hfail|destruct Hfail].
  - destruct (Z.eqb_spec (status_code resp) 200) as [|_]; [contradiction|]. cbn [negb].
    destruct (run_try_unlink_any tmp
                (fun _ => ret (LoopReturn (cid, YEAR, false,
                                 http_error_msg (status_code resp)
                                                (Z.of_nat (length resps) * PAGE_LIMIT))))
                (log_gets (Z.of_nat (length resps) * PAGE_LIMIT) used w1) Hnd1)
      as (w2 & -> & Hf2 & _).
    exists w2. split; [reflexivity|]. apply Hdel. exact Hf2.
  - destruct (run_try_unlink_any tmp
                (fun _ => ret (LoopReturn (cid, YEAR, false,
                                 ("request_error:" +:+ exn_msg e)%string)))
                (log_gets (Z.of_nat (length resps) * PAGE_LIMIT) used w1) Hnd1)
      as (w2 & -> & Hf2 & _).
    exists w2. split; [reflexivity|]. apply Hdel. exact Hf2.
Qed.

Lemma sequential_failure_discards_progress_witness :
  ∃ w',
    download_small_sequential (env_of acme_failing_server) 5 "ACME" "2023" empty_world
    = (Val ("ACME"%string, YEAR, false, "HTTP 500 at offset 5000"%string), w')
    ∧ files w' = ∅.
Proof.
  destruct (sequential_failure_discards_progress (env_of acme_failing_server) "ACME" "2023"
              [mkResponse 200 (header_row 80 :: repeat (data_row 80) 3) None]
              5 empty_world) as (w' & Hrun & Hf).
  - intros sz. discriminate.
  - vm_compute. repeat split; discriminate.
  - vm_compute. discriminate.
  - simpl. lia.
  - exists w'. split; [exact Hrun|]. rewrite Hf. reflexivity.
Defined.

(** ** The paths of different entities *)

Lemma csv_part_suffix (a b : string) : a +:+ ".csv.part" ≠ b +:+ ".csv".
Proof.
  revert b. induction a as [|x a IH]; intros b H.
  - rewrite string_app_nil in H.
    pose proof (f_equal String.length H) as Hlen. rewrite string_app_length in Hlen.
    simpl in Hlen.
    destruct b as [|b1 [|b2 [|b3 [|b4 [|b5 [|b6 b]]]]]]; simpl in Hlen; try lia.
    rewrite !string_app_cons, string_app_nil in H. discriminate H.
  - destruct b as [|y b].
    + pose proof (f_equal String.length H) as Hlen.
      rewrite string_app_cons in Hlen. simpl in Hlen. rewrite string_app_length in Hlen.
      simpl in Hlen. lia.
    + rewrite !string_app_cons in H. injection H as _ H. exact (IH b H).
Qed.

(** X17.  The files of the run never collide.  Within one entity, different
    pages have different part paths, and the final path, the temporary path
    and the part paths are pairwise different.  Across entities of the same
    year directory, equal final (or temporary) paths mean equal entity ids,
    the temporary path of one entity is never the final path of another, and
    a part path is never a final or temporary path. *)
Theorem run_paths_never_collide (year_dir cid cid' : string) (i j : nat) :
  (part_path_of year_dir cid i = part_path_of year_dir cid j → i = j)
  ∧ (final_path_of year_dir cid = final_path_of year_dir cid' → cid = cid')
  ∧ (tmp_path_of year_dir cid = tmp_path_of year_dir cid' → cid = cid')
  ∧ tmp_path_of year_dir cid ≠ final_path_of year_dir cid'
  ∧ final_path_of year_dir cid ≠ part_path_of year_dir cid' i
  ∧ tmp_path_of year_dir cid ≠ part_path_of year_dir cid' i.
Proof.
  split; [apply part_path_inj|]. split; [|split; [|split; [|split]]].
  - unfold final_path_of. intros H.
    apply string_app_inj_l, (string_app_inj_l "/"), (string_app_inj_l "csv_") in H.
    exact (string_app_inj_r _ _ _ H).
  - unfold tmp_path_of. intros H.
    apply string_app_inj_l, (string_app_inj_l "/"), (string_app_inj_l "csv_") in H.
    exact (string_app_inj_r _ _ _ H).
  - unfold tmp_path_of, final_path_of. intros H.
    apply string_app_inj_l, (string_app_inj_l "/"), (string_app_inj_l "csv_") in H.
    exact (csv_part_suffix _ _ H).
  - unfold final_path_of, part_path_of, parts_root_of. rewrite !string_app_assoc.
    intros H. apply string_app_inj_l, (string_app_inj_l "/") in H.
    rewrite !string_app_cons in H. discriminate H.
  - unfold tmp_path_of, part_path_of, parts_root_of. rewrite !string_app_assoc.
    intros H. apply string_app_inj_l, (string_app_inj_l "/") in H.
    rewrite !string_app_cons in H. discriminate H.
Qed.

(** ** Slicing the task list *)

Lemma split_first_app (sep : Z) (l r : list Z) :
  sep ∉ l → split_first sep (l ++ sep :: r) = (l, r).
Proof.
  induction l as [|c l IH]; intros Hnot; cbn [split_first app].
  - rewrite Z.eqb_refl. reflexivity.
  - apply not_elem_of_cons in Hnot as [Hne Hnot].
    destruct (Z.eqb_spec c sep) as [->|_]; [congruence|]. rewrite (IH Hnot). reflexivity.
Qed.

Lemma slice_bound_range (n : Z) (i : option Z) (d : Z) :
  0 <= n → 0 <= d <= n → 0 <= slice_bound n i d <= n.
Proof. intros Hn Hd. unfold slice_bound. destruct i as [i|]; [|exact Hd].
  destruct (Z.ltb_spec i 0); lia.
Qed.

(** X18.  Whatever the slice argument, slicing gives a contiguous run of the
    task list in its original order: the tasks are some tasks left out, then
    the selected ones, then some more left out; nothing is added, repeated
    or reordered. *)
Theorem slice_tasks_selects_run {A} (int : list Z → option Z) (slice_str : option (list Z))
    (tasks selected : list A) :
  slice_tasks int slice_str tasks = inr selected →
  ∃ before after, tasks = before ++ selected ++ after.
Proof.
  unfold slice_tasks. destruct (parse_slice int slice_str) as [e|[sl|]]; [discriminate| |].
  - intros [= <-]. unfold apply_slice.
    exists (take (Z.to_nat (slice_bound (Z.of_nat (length tasks)) (sl_start sl) 0)) tasks).
    eexists. rewrite take_drop. rewrite take_drop. reflexivity.
  - intros [= <-]. exists [], []. rewrite app_nil_r. reflexivity.
Qed.

Lemma slice_tasks_selects_run_witness :
  ∃ before after : list nat,
    [10; 11; 12; 13; 14]%nat = before ++ [12; 13; 14]%nat ++ after.
Proof.
  apply (slice_tasks_selects_run ascii_int (Some [50; 58; 45; 49])
                                 [10; 11; 12; 13; 14]%nat [12; 13; 14]%nat).
  vm_compute. reflexivity.
Defined.

(** X19.  A slice argument of the form [a:b], with [a] not negative, selects
    the tasks with indices a, a+1, ..., b-1; but an end of -1 means up to
    the end of the list, the last task included (unlike an ordinary slice
    bound of -1).  Blanks around the argument and around the two numbers are
    ignored. *)
Theorem slice_range_selects {A} (int : list Z → option Z) (slice_str l r : list Z)
    (a b : Z) (tasks : list A) :
  slice_str ≠ [] →
  strip slice_str = l ++ COLON :: r →
  COLON ∉ l →
  strip l ≠ [] → int (strip l) = Some a →
  strip r ≠ [] → int (strip r) = Some b →
  0 <= a → -1 <= b →
  slice_tasks int (Some slice_str) tasks
  = inr (if b =? -1 then drop (Z.to_nat a) tasks
         else take (Z.to_nat (b - a)) (drop (Z.to_nat a) tasks)).
Proof.
  intros Hne Hs Hnot Hl Ha Hr Hb Ha0 Hb0.
  unfold slice_tasks, parse_slice.
  destruct slice_str as [|c0 rest0]; [congruence|].
  cbv zeta. rewrite Hs.
  rewrite bool_decide_eq_true_2 by (apply elem_of_app; right; left).
  cbn [negb]. rewrite (split_first_app COLON l r Hnot). cbn [fst snd].
  destruct (strip l) as [|lc lrest] eqn:Hsl; [congruence|]. rewrite Ha. cbn [option_map].
  destruct (strip r) as [|rc rrest] eqn:Hsr; [congruence|]. rewrite Hb.
  f_equal. unfold apply_slice. cbn [sl_start sl_stop].
  set (n := Z.of_nat (length tasks)).
  assert (Hn : 0 <= n) by (unfold n; lia).
  destruct (Z.eqb_spec b (-1)) as [->|Hb1]; cbn [slice_bound].
  - destruct (Z.ltb_spec a 0); [lia|].
    destruct (Z.le_gt_cases a n) as [Hle|Hgt].
    + rewrite Z.min_l by lia. apply take_ge. rewrite length_drop. unfold n. lia.
    + rewrite Z.min_r by lia. rewrite !drop_ge by (unfold n in *; lia). apply take_nil.
  - destruct (Z.ltb_spec a 0); [lia|]. destruct (Z.ltb_spec b 0); [lia|].
    destruct (Z.le_gt_cases a n) as [Hle|Hgt].
    + rewrite (Z.min_l a n) by lia.
      destruct (Z.le_gt_cases b n) as [Hble|Hbgt].
      * rewrite Z.min_l by lia. reflexivity.
      * rewrite Z.min_r by lia.
        rewrite !take_ge; [reflexivity|rewrite length_drop; unfold n in *; lia
                          |rewrite length_drop; unfold n in *; lia].
    + rewrite (Z.min_r a n) by lia. rewrite !drop_ge by (unfold n in *; lia).
      rewrite !take_nil. reflexivity.
Qed.

Lemma slice_range_selects_witness :
  slice_tasks ascii_int (Some [32; 50; 58; 45; 49]) [10; 11; 12; 13; 14]%nat
  = inr [12; 13; 14]%nat.
Proof.
  refine (slice_range_selects ascii_int [32; 50; 58; 45; 49] [50] [45; 49] 2 (-1)
            [10; 11; 12; 13; 14]%nat _ _ _ _ _ _ _ _ _).
  - discriminate.
  - reflexivity.
  - intros H. apply list_elem_of_singleton in H. discriminate H.
  - discriminate.
  - reflexivity.
  - discriminate.
  - reflexivity.
  - lia.
  - lia.
Defined.

(** X20.  A slice argument without a colon that [int] reads as n selects the
    first n tasks (all of them when there are fewer), and for a negative n
    all but the last |n| tasks. *)
Theorem slice_count_selects {A} (int : list Z → option Z) (slice_str : list Z)
    (n : Z) (tasks : list A) :
  slice_str ≠ [] →
  COLON ∉ strip slice_str →
  int (strip slice_str) = Some n →
  slice_tasks int (Some slice_str) tasks
  = inr (take (Z.to_nat (if n <? 0 then Z.of_nat (length tasks) + n else n)) tasks).
Proof.
  intros Hne Hnot Hint. unfold slice_tasks, parse_slice.
  destruct slice_str as [|c0 rest0]; [congruence|].
  cbv zeta. rewrite bool_decide_eq_false_2 by exact Hnot. cbn [negb]. rewrite Hint.
  f_equal. unfold apply_slice. cbn [sl_start sl_stop].
  set (len := Z.of_nat (length tasks)).
  assert (Hlen : 0 <= len) by (unfold len; lia).
  assert (Ha : slice_bound len (Some 0) 0 = 0).
  { unfold slice_bound. change (0 <? 0) with false. lia. }
  rewrite Ha, Z.sub_0_r. change (Z.to_nat 0) with 0%nat. rewrite drop_0.
  unfold slice_bound. destruct (Z.ltb_spec n 0) as [Hneg|Hpos].
  - f_equal. lia.
  - destruct (Z.le_gt_cases n len) as [H|H].
    + f_equal. lia.
    + replace (Z.to_nat (Z.min n len)) with (length tasks) by (unfold len in *; lia).
      rewrite !take_ge by (unfold len in *; lia). reflexivity.
Qed.

Lemma slice_count_selects_witness :
  slice_tasks ascii_int (Some [45; 50]) [10; 11; 12; 13; 14]%nat = inr [10; 11; 12]%nat.
Proof.
  refine (slice_count_selects ascii_int [45; 50] (-2) [10; 11; 12; 13; 14]%nat _ _ _).
  - discriminate.
  - vm_compute. intros H. repeat (apply elem_of_cons in H as [H|H]; [discriminate H|]).
    inversion H.
  - reflexivity.
Defined.

(** X21.  No slice argument, or an empty one, keeps every task.  An argument
    of blanks only is not empty: it is handed to [int] and, when that
    raises, rejected with the error that quotes the argument as given; the
    same happens for any argument without a colon that [int] cannot read. *)
Theorem slice_absent_or_unreadable {A} (int : list Z → option Z) (slice_str : list Z)
    (tasks : list A) :
  slice_tasks int None tasks = inr tasks
  ∧ slice_tasks int (Some []) tasks = inr tasks
  ∧ (slice_str ≠ [] → (COLON ∉ strip slice_str) → int (strip slice_str) = None →
     slice_tasks int (Some slice_str) tasks = inl (InvalidSlice slice_str)).
Proof.
  split; [reflexivity|]. split; [reflexivity|].
  intros Hne Hnot Hint. unfold slice_tasks, parse_slice.
  destruct slice_str as [|c0 rest0]; [congruence|].
  cbv zeta. rewrite bool_decide_eq_false_2 by exact Hnot. cbn [negb]. rewrite Hint.
  reflexivity.
Qed.

Example blank_slice_is_rejected :
  slice_tasks ascii_int (Some [32; 32]) [10; 11]%nat = inl (InvalidSlice [32; 32])
  ∧ slice_tasks ascii_int (Some [58]) [10; 11]%nat = inr [10; 11]%nat
  ∧ slice_tasks ascii_int (Some [49; 58; 120]) [10; 11]%nat = inl (InvalidInt [120]).
Proof. vm_compute. auto. Qed.

(** ** Unquoted rows *)

Lemma parse_plain_body (s : list Z) :
  plain_field s →
  ∀ (fields : list (list Z)) (field : list Z),
    Z.of_nat (length field + length s) <= FIELD_LIMIT →
    parse_chars (mkReader IN_FIELD fields field) s
    = inr (mkReader IN_FIELD fields (field ++ s)).
Proof.
  intros (Hc & Hq & Hcr & Hnl & _). induction s as [|c s IH]; intros fields field Hlen.
  - simpl. rewrite app_nil_r. reflexivity.
  - apply not_elem_of_cons in Hc as [Hc1 Hc], Hq as [Hq1 Hq], Hcr as [Hcr1 Hcr],
        Hnl as [Hnl1 Hnl].
    simpl in Hlen. cbn [parse_chars]. unfold parse_process_char. cbn [rd_state].
    unfold is_crnl.
    destruct (Z.eqb_spec c NL) as [|_]; [congruence|].
    destruct (Z.eqb_spec c CR) as [|_]; [congruence|]. cbn [orb].
    destruct (Z.eqb_spec c COMMA) as [|_]; [congruence|].
    unfold parse_add_char. cbn [rd_field rd_state rd_fields].
    destruct (Z.geb_spec (Z.of_nat (length field)) FIELD_LIMIT) as [Hge|_]; [lia|].
    rewrite IH; [|assumption..|rewrite length_app; simpl; lia].
    rewrite <- app_assoc. reflexivity.
Qed.

Lemma parse_plain_field (s : list Z) (fields : list (list Z)) (st : csv_state) :
  plain_field s → s ≠ [] →
  st = START_RECORD ∨ st = START_FIELD →
  parse_chars (mkReader st fields []) s = inr (mkReader IN_FIELD fields s).
Proof.
  intros Hp Hne Hst. destruct s as [|c s]; [congruence|].
  destruct Hp as (Hc & Hq & Hcr & Hnl & Hlen).
  apply not_elem_of_cons in Hc as [Hc1 Hc], Hq as [Hq1 Hq], Hcr as [Hcr1 Hcr],
      Hnl as [Hnl1 Hnl].
  cbn [parse_chars].
  assert (Hfirst : parse_process_char (mkReader st fields []) (Some c)
                   = inr (mkReader IN_FIELD fields [c])).
  { unfold parse_process_char, is_crnl.
    destruct (Z.eqb_spec c NL) as [|_]; [congruence|].
    destruct (Z.eqb_spec c CR) as [|_]; [congruence|].
    destruct (Z.eqb_spec c DQUOTE) as [|_]; [congruence|].
    destruct (Z.eqb_spec c COMMA) as [|_]; [congruence|].
    destruct Hst as [-> | ->]; reflexivity. }
  rewrite Hfirst.
  rewrite (parse_plain_body s); [reflexivity| |simpl in Hlen |- *; lia].
  split; [exact Hc|]. split; [exact Hq|]. split; [exact Hcr|]. split; [exact Hnl|].
  simpl in Hlen. lia.
Qed.

Lemma parse_plain_row (fields : list (list Z)) :
  fields ≠ [] → Forall plain_field fields →
  ∀ (done : list (list Z)) (st : csv_state),
    st = START_RECORD ∨ st = START_FIELD →
    (st = START_RECORD → plain_row fields ≠ []) →
    ∃ st',
      parse_chars (mkReader st done []) (plain_row fields)
      = inr (mkReader st' (done ++ removelast fields) (List.last fields []))
      ∧ (st' = IN_FIELD ∨ st' = START_FIELD).
Proof.
  induction fields as [|f rest IH]; intros Hne Hok done st Hst Hrow; [congruence|].
  apply Forall_cons in Hok as [Hf Hrest].
  destruct rest as [|g rest].
  - cbn [plain_row removelast List.last] in *. rewrite app_nil_r.
    destruct f as [|c f].
    + destruct Hst as [-> | ->]; [destruct (Hrow eq_refl eq_refl)|].
      exists START_FIELD. split; [reflexivity|right; reflexivity].
    + exists IN_FIELD. split; [|left; reflexivity].
      apply parse_plain_field; [exact Hf|discriminate|exact Hst].
  - change (plain_row (f :: g :: rest)) with (f ++ COMMA :: plain_row (g :: rest)).
    change (removelast (f :: g :: rest)) with (f :: removelast (g :: rest)).
    change (List.last (f :: g :: rest) []) with (List.last (g :: rest) []).
    assert (Hcomma : ∃ r1, parse_chars (mkReader st done []) f = inr r1
                           ∧ parse_process_char r1 (Some COMMA)
                             = inr (mkReader START_FIELD (done ++ [f]) [])).
    { destruct f as [|c f].
      - exists (mkReader st done []). split; [reflexivity|].
        destruct Hst as [-> | ->]; reflexivity.
      - exists (mkReader IN_FIELD done (c :: f)). split; [|reflexivity].
        apply parse_plain_field; [exact Hf|discriminate|exact Hst]. }
    destruct Hcomma as (r1 & Hr1 & Hc).
    rewrite parse_chars_app, Hr1. cbn [parse_chars]. rewrite Hc.
    destruct (IH ltac:(discriminate) Hrest (done ++ [f]) START_FIELD ltac:(auto)
                 ltac:(discriminate)) as (st' & Hparse & Hst').
    exists st'. rewrite Hparse, <- app_assoc. split; [reflexivity|exact Hst'].
Qed.

(** X22.  A non-empty line of unquoted fields separated by commas is read
    back by the csv reader as exactly those fields, empty fields included;
    so for a header without quotes the validator's column count is the
    number of commas plus one. *)
Theorem csv_next_plain_row (fields : list (list Z)) :
  fields ≠ [] → plain_row fields ≠ [] → Forall plain_field fields →
  csv_next [plain_row fields] = inr fields
  ∧ length fields = S (length (filter (fun c => c = COMMA) (plain_row fields))).
Proof.
  intros Hne Hrow Hok. split.
  - unfold csv_next. cbn [reader_next_from].
    destruct (parse_plain_row fields Hne Hok [] START_RECORD ltac:(auto) ltac:(auto))
      as (st' & -> & Hst').
    cbn [app].
    assert (Hend : parse_process_char
                     (mkReader st' (removelast fields) (List.last fields [])) None
                   = inr (mkReader START_RECORD
                            (removelast fields ++ [List.last fields []]) [])).
    { destruct Hst' as [-> | ->]; reflexivity. }
    rewrite Hend. cbn [rd_state rd_fields]. f_equal. symmetry.
    apply app_removelast_last. exact Hne.
  - clear Hrow. induction fields as [|f rest IH]; [congruence|].
    apply Forall_cons in Hok as [(Hc & _) Hrest].
    assert (Hf : filter (fun c => c = COMMA) f = []).
    { clear -Hc. induction f as [|x f IHf]; [reflexivity|].
      apply not_elem_of_cons in Hc as [Hx Hc].
      rewrite filter_cons_False by congruence. apply IHf, Hc. }
    destruct rest as [|g rest].
    + cbn [plain_row length]. rewrite Hf. reflexivity.
    + change (plain_row (f :: g :: rest)) with (f ++ COMMA :: plain_row (g :: rest)).
      rewrite filter_app, Hf, filter_cons_True by reflexivity. cbn [app length].
      rewrite <- (IH ltac:(discriminate) Hrest). reflexivity.
Qed.

Lemma csv_next_plain_row_witness :
  csv_next [plain_row [[97]; []; [98; 99]]] = inr [[97]; []; [98; 99]].
Proof.
  refine (proj1 (csv_next_plain_row [[97]; []; [98; 99]] _ _ _)).
  - discriminate.
  - discriminate.
  - repeat constructor; try (vm_compute; lia);
      intros H; repeat (apply elem_of_cons in H as [H|H]; [discriminate H|]); inversion H.
Defined.

(** ** The order in which pages complete *)

Lemma files_only_ret {A} (a : A) : files_only (ret a).
Proof. intros w w2 H. split; [reflexivity|exact H]. Qed.

Lemma files_only_raise {A} (e : exn) : files_only (raise (A:=A) e).
Proof. intros w w2 H. split; [reflexivity|exact H]. Qed.

Lemma files_only_bind {A B} (m : M A) (k : A → M B) :
  files_only m → (∀ a, files_only (k a)) → files_only (bind m k).
Proof.
  intros Hm Hk w w2 H. unfold bind. destruct (Hm w w2 H) as [Hr Hf].
  destruct (m w) as [r1 w1], (m w2) as [r2 w2']. cbn [fst snd] in *. subst r2.
  destruct r1 as [a|e|]; [apply Hk, Hf|split; [reflexivity|exact Hf]..].
Qed.

Lemma files_only_try_except {A} (m : M A) (h : exn → M A) :
  files_only m → (∀ e, files_only (h e)) → files_only (try_except m h).
Proof.
  intros Hm Hh w w2 H. unfold try_except. destruct (Hm w w2 H) as [Hr Hf].
  destruct (m w) as [r1 w1], (m w2) as [r2 w2']. cbn [fst snd] in *. subst r2.
  destruct r1 as [a|e|]; [split; [reflexivity|exact Hf]|apply Hh, Hf|
                          split; [reflexivity|exact Hf]].
Qed.

Ltac files_only_prim :=
  let w := fresh "w" in let w2 := fresh "w2" in let H := fresh "H" in
  intros w w2 H;
  unfold path_exists, stat_size, read_bytes, unlink, open_w, open_a, write_bytes,
    set_files;
  rewrite H;
  match goal with
  | |- context [files w2 !! ?p] => destruct (files w2 !! p) as [[?|?]|]
  | _ => idtac
  end;
  cbn [fst snd files]; rewrite ?H; split; reflexivity.

Lemma files_only_path_exists (p : string) : files_only (path_exists p).
Proof. files_only_prim. Qed.

Lemma files_only_stat_size (p : string) : files_only (stat_size p).
Proof. files_only_prim. Qed.

Lemma files_only_read_bytes (p : string) : files_only (read_bytes p).
Proof. files_only_prim. Qed.

Lemma files_only_unlink (p : string) : files_only (unlink p).
Proof. files_only_prim. Qed.

Lemma files_only_open_w (p : string) : files_only (open_w p).
Proof. files_only_prim. Qed.

Lemma files_only_write_bytes (p : string) (bs : list Z) : files_only (write_bytes p bs).
Proof. files_only_prim. Qed.

Lemma files_only_try_unlink (p : string) : files_only (try_unlink p).
Proof.
  apply files_only_try_except; [apply files_only_unlink|intros e; apply files_only_ret].
Qed.

Lemma files_only_merge_write_loop (parts : list string) (final_path : string) :
  files_only (merge_write_loop parts final_path).
Proof.
  induction parts as [|p rest IH]; cbn [merge_write_loop]; [apply files_only_ret|].
  apply files_only_bind; [apply files_only_path_exists|]. intros ex.
  apply files_only_bind; [|intros _; exact IH].
  destruct ex; [|apply files_only_ret].
  apply files_only_bind; [apply files_only_stat_size|]. intros sz.
  destruct (sz >? 0); [|apply files_only_ret].
  apply files_only_bind; [apply files_only_read_bytes|]. intros data.
  apply files_only_write_bytes.
Qed.

Lemma files_only_cleanup_loop (parts : list string) : files_only (cleanup_loop parts).
Proof.
  induction parts as [|p rest IH]; cbn [cleanup_loop]; [apply files_only_ret|].
  apply files_only_bind; [apply files_only_path_exists|]. intros ex.
  apply files_only_bind; [|intros _; exact IH].
  destruct ex; [apply files_only_unlink|apply files_only_ret].
Qed.

Lemma files_only_validate (E : environment) (p : string) (n : Z) :
  files_only (validate_header_min_cols E p n).
Proof.
  unfold validate_header_min_cols, validate_body.
  apply files_only_try_except; [|intros e; apply files_only_ret].
  apply files_only_bind; [apply files_only_read_bytes|]. intros data. cbv zeta.
  destruct (find_header _ _ _) as [h|]; [|apply files_only_ret].
  apply files_only_bind.
  { unfold lift_sum. destruct (csv_next [h]); [apply files_only_raise|apply files_only_ret]. }
  intros cols. destruct (_ <? n); apply files_only_ret.
Qed.

Lemma files_only_merge_parts (E : environment) (parts : list string) (final_path : string) :
  files_only (merge_parts E parts final_path).
Proof.
  unfold merge_parts. apply files_only_try_except; [|intros e; apply files_only_ret].
  apply files_only_bind; [apply files_only_path_exists|]. intros ex.
  apply files_only_bind; [destruct ex; [apply files_only_unlink|apply files_only_ret]|].
  intros _. apply files_only_bind; [apply files_only_open_w|]. intros _.
  apply files_only_bind; [apply files_only_merge_write_loop|]. intros _.
  apply files_only_bind; [apply files_only_path_exists|]. intros ex2.
  apply files_only_bind; [destruct ex2; [apply files_only_stat_size|apply files_only_ret]|].
  intros sz. destruct (negb ex2 || (sz =? 0)); [apply files_only_ret|].
  apply files_only_bind.
  { unfold count_lines_quick. apply files_only_try_except; [|intros e; apply files_only_ret].
    apply files_only_bind; [apply files_only_read_bytes|]. intros d. apply files_only_ret. }
  intros n. destruct (n <? 2).
  { apply files_only_bind; [apply files_only_try_unlink|intros _; apply files_only_ret]. }
  apply files_only_bind; [apply files_only_validate|]. intros [ok reason].
  destruct (negb ok); [|apply files_only_ret].
  apply files_only_bind; [apply files_only_try_unlink|intros _; apply files_only_ret].
Qed.

Lemma files_only_big_after_pages (E : environment) (cid : string) (pages : Z)
    (final_path : string) (parts : list string) (results : list (nat * page_result))
    (total : Z) :
  files_only (big_after_pages E cid pages final_path parts results total).
Proof.
  unfold big_after_pages. cbv zeta.
  destruct (hard_fails_of results); [|apply files_only_ret].
  destruct (total =? 0); [apply files_only_ret|].
  apply files_only_bind; [apply files_only_merge_parts|]. intros [ok msg].
  destruct (negb ok); [apply files_only_ret|].
  apply files_only_bind; [|intros _; apply files_only_ret].
  apply files_only_try_except; [apply files_only_cleanup_loop|intros e; apply files_only_ret].
Qed.

Lemma rows_sum_perm (f : nat → Z) (l1 l2 : list nat) :
  l1 ≡ₚ l2 → foldr Z.add 0 (map f l1) = foldr Z.add 0 (map f l2).
Proof.
  induction 1 as [|x l l' _ IH|x y l|l l' l'' _ IH1 _ IH2]; cbn [map foldr];
    [reflexivity|lia|lia|congruence].
Qed.

Lemma big_after_no_fail (E : environment) (cid : string) (pages : Z)
    (final_path : string) (parts : list string) (results : list (nat * page_result))
    (total : Z) :
  hard_fails_of results = [] →
  big_after_pages E cid pages final_path parts results total
  = big_after_pages E cid pages final_path parts [] total.
Proof. intros H. unfold big_after_pages. cbv zeta. rewrite H. reflexivity. Qed.

(** After the page tasks, the files are the same whatever the schedule. *)
Lemma big_collected_files (E : environment) (cid year_dir : string)
    (expected_total page_workers : Z) (sched : list nat) (w : world) :
  0 < ceil_div expected_total PAGE_LIMIT → 0 < page_workers →
  sched ≡ₚ seq 0 (page_count expected_total) →
  ∃ w1,
    download_big_parallel_pages E cid expected_total year_dir page_workers sched w
    = big_after_pages E cid (ceil_div expected_total PAGE_LIMIT)
        (final_path_of year_dir cid)
        (map (part_path_of year_dir cid) (seq 0 (page_count expected_total)))
        (map (fun i => (i, page_result_at E cid year_dir i w)) sched)
        (foldr Z.add 0 (map (fun i => page_rows (page_result_at E cid year_dir i w)) sched))
        w1
    ∧ ∀ q, files w1 !! q
           = match list_find (fun i => part_path_of year_dir cid i = q)
                             (seq 0 (page_count expected_total)) with
             | Some (_, i) => files (snd (page_fetch E cid year_dir i w)) !! q
             | None => files w !! q
             end.
Proof.
  intros Hpages Hworkers Hperm.
  destruct (sched_complete _ _ Hperm) as [Hnd Hin].
  destruct (collect_pages_run E cid year_dir (page_count expected_total) sched Hnd
              (fun i Hi => proj1 (Hin i) Hi) [] 0 w)
    as (w1 & Hrun & Hframe & Hcells & _).
  exists w1. split.
  - unfold download_big_parallel_pages. cbv zeta.
    destruct (Z.leb_spec (ceil_div expected_total PAGE_LIMIT) 0) as [|_]; [lia|].
    destruct (Z.leb_spec page_workers 0) as [|_]; [lia|].
    fold (page_count expected_total). unfold bind at 1. rewrite Hrun.
    cbn [app]. rewrite Z.add_0_l. reflexivity.
  - intros q.
    destruct (list_find _ _) as [[k i]|] eqn:Hfind.
    + apply list_find_Some in Hfind as (Hk & <- & _).
      apply Hcells, Hin. apply lookup_seq in Hk. lia.
    + apply Hframe. intros i Hi Hq.
      apply list_find_None in Hfind. rewrite Forall_forall in Hfind.
      apply (Hfind i); [|symmetry; exact Hq].
      apply elem_of_seq. apply Hin in Hi. lia.
Qed.

(** X23.  The order in which the page tasks complete does not matter for
    what is on disk afterwards: for any two completion orders the parallel
    downloader leaves the same files.  When no page failed it also returns
    the same outcome, message included (after a failure the message lists
    the failed pages in completion order). *)
Theorem completion_order_is_irrelevant (E : environment) (cid year_dir : string)
    (expected_total page_workers : Z) (sched1 sched2 : list nat) (w : world) :
  0 < page_workers →
  sched1 ≡ₚ seq 0 (page_count expected_total) →
  sched2 ≡ₚ seq 0 (page_count expected_total) →
  files (snd (download_big_parallel_pages E cid expected_total year_dir page_workers
                                          sched1 w))
  = files (snd (download_big_parallel_pages E cid expected_total year_dir page_workers
                                            sched2 w))
  ∧ ((∀ i, (i < page_count expected_total)%nat →
           page_ok (page_result_at E cid year_dir i w) = true) →
     fst (download_big_parallel_pages E cid expected_total year_dir page_workers sched1 w)
     = fst (download_big_parallel_pages E cid expected_total year_dir page_workers sched2 w)).
Proof.
  intros Hworkers Hp1 Hp2.
  destruct (Z.leb_spec (ceil_div expected_total PAGE_LIMIT) 0) as [Hle|Hpages].
  { unfold download_big_parallel_pages. cbv zeta.
    destruct (Z.leb_spec (ceil_div expected_total PAGE_LIMIT) 0) as [_|]; [|lia].
    split; reflexivity. }
  destruct (big_collected_files E cid year_dir expected_total page_workers sched1 w
              Hpages Hworkers Hp1) as (w1 & -> & Hf1).
  destruct (big_collected_files E cid year_dir expected_total page_workers sched2 w
              Hpages Hworkers Hp2) as (w2 & -> & Hf2).
  assert (Hfiles : files w1 = files w2).
  { apply map_eq. intros q. rewrite Hf1, Hf2. reflexivity. }
  assert (Hperm : sched1 ≡ₚ sched2) by (rewrite Hp1, Hp2; reflexivity).
  rewrite (rows_sum_perm _ _ _ Hperm).
  set (total := foldr Z.add 0 _).
  set (res1 := map (fun i => (i, page_result_at E cid year_dir i w)) sched1).
  set (res2 := map (fun i => (i, page_result_at E cid year_dir i w)) sched2).
  assert (Hhf : hard_fails_of res1 = [] ↔ hard_fails_of res2 = []).
  { rewrite !hard_fails_of_nil. unfold res1, res2. rewrite !Forall_fmap.
    rewrite Hperm. reflexivity. }
  destruct (hard_fails_of res1) as [|hf1 hfs1] eqn:H1.
  - pose proof (proj1 Hhf eq_refl) as H2.
    rewrite (big_after_no_fail _ _ _ _ _ res1 _ H1), (big_after_no_fail _ _ _ _ _ res2 _ H2).
    destruct (files_only_big_after_pages E cid (ceil_div expected_total PAGE_LIMIT)
                (final_path_of year_dir cid)
                (map (part_path_of year_dir cid) (seq 0 (page_count expected_total)))
                [] total w1 w2 Hfiles) as [Hr Hf].
    split; [exact Hf|intros _; exact Hr].
  - destruct (hard_fails_of res2) as [|hf2 hfs2] eqn:H2.
    { pose proof (proj2 Hhf eq_refl) as Hc. discriminate Hc. }
    split.
    + unfold big_after_pages. cbv zeta. rewrite H1, H2. exact Hfiles.
    + intros Hall. exfalso.
      assert (Hnil : hard_fails_of res1 = []); [|rewrite H1 in Hnil; discriminate Hnil].
      apply hard_fails_of_nil. apply Forall_forall. intros ir Hir.
      unfold res1 in Hir. apply list_elem_of_In, in_map_iff in Hir as (i & <- & Hi).
      apply Hall. destruct (sched_complete _ _ Hp1) as [_ Hin].
      apply Hin, list_elem_of_In, Hi.
Qed.

Lemma completion_order_is_irrelevant_witness :
  fst (download_big_parallel_pages (env_of giant_server) "GIANT" 12000 "2023" 10
                                   [2; 0; 1]%nat empty_world)
  = fst (download_big_parallel_pages (env_of giant_server) "GIANT" 12000 "2023" 10
                                     [1; 0; 2]%nat empty_world).
Proof.
  refine (proj2 (completion_order_is_irrelevant (env_of giant_server) "GIANT" "2023" 12000
                   10 [2; 0; 1]%nat [1; 0; 2]%nat empty_world _ _ _) _).
  - lia.
  - exact (perm_trans (perm_swap 0%nat 2%nat [1%nat])
                      (perm_skip 0%nat (perm_swap 1%nat 2%nat []))).
  - exact (perm_swap 0%nat 1%nat [2%nat]).
  - intros i Hi.
    assert (Hc : (i = 0 ∨ i = 1 ∨ i = 2)%nat) by (vm_compute in Hi; lia).
    destruct Hc as [->|[->| ->]]; vm_compute; reflexivity.
Defined.

(** ** Ending, or not *)

Lemma pages_with_data_map (E : environment) (cid : string) (page : nat → response)
    (n : nat) :
  (∀ j, page_response E cid (Z.of_nat j * PAGE_LIMIT) = Val (page j)
        ∧ status_code (page j) = 200 ∧ stream_err (page j) = None
        ∧ data_lines (page_state j (page j)) ≠ 0) →
  ∀ j, pages_with_data E cid j (map page (seq j n)).
Proof.
  intros H. induction n as [|n IH]; intros j; cbn [seq map pages_with_data]; [exact I|].
  destruct (H j) as (H1 & H2 & H3 & H4). repeat split; try assumption. apply IH.
Qed.

(** X24.  The sequential loop has no bound of its own: as long as every page
    requested comes back complete with at least one data line (for instance
    from a server that ignores the offset), it goes on to the next offset,
    so the downloader does not return however long it is left to run. *)
Theorem sequential_never_gives_up (E : environment) (cid year_dir : string)
    (page : nat → response) (fuel : nat) (w : world) :
  (∀ sz, files w !! tmp_path_of year_dir cid ≠ Some (Dir sz)) →
  (∀ j, page_response E cid (Z.of_nat j * PAGE_LIMIT) = Val (page j)
        ∧ status_code (page j) = 200 ∧ stream_err (page j) = None
        ∧ data_lines (page_state j (page j)) ≠ 0) →
  fst (download_small_sequential E fuel cid year_dir w) = Diverge.
Proof.
  intros Htmp Hpages.
  set (tmp := tmp_path_of year_dir cid) in *.
  destruct (small_start tmp w Htmp) as (w0 & Hstart & Hf0 & _).
  unfold download_small_sequential. cbv zeta. fold tmp. rewrite Hstart.
  assert (Hnone : files w0 !! tmp = None) by (rewrite Hf0; apply lookup_delete_eq).
  destruct (small_loop_data_pages E cid tmp (map page (seq 0 fuel)) 0 0 0 false w0)
    as (w1 & wh' & Hloop & _).
  { intros sz. rewrite Hnone. discriminate. }
  { left. reflexivity. }
  { apply pages_with_data_map, Hpages. }
  rewrite length_map, length_seq, Nat.add_0_r in Hloop.
  change (Z.of_nat 0 * PAGE_LIMIT) with 0 in Hloop.
  unfold bind at 1. rewrite Hloop. reflexivity.
Qed.

Lemma sequential_never_gives_up_witness :
  fst (download_small_sequential (env_of endless_server) 7 "ACME" "2023" empty_world)
  = Diverge.
Proof.
  apply (sequential_never_gives_up (env_of endless_server) "ACME" "2023"
           (fun _ => mkResponse 200 [header_row 80; data_row 80] None)).
  - intros sz. discriminate.
  - intros j. split; [|split; [reflexivity|split; [reflexivity|]]].
    + unfold page_response, request_with_manual_backoff.
      change (seq 1 MANUAL_ATTEMPTS) with (1%nat :: seq 2 4).
      rewrite (backoff_loop_response (env_of endless_server) "ACME" _ 1 (seq 2 4) None _
                 (mkResponse 200 [header_row 80; data_row 80] None)); reflexivity.
    + unfold page_state. destruct (Z.of_nat j * PAGE_LIMIT =? 0); vm_compute; discriminate.
Defined.

Lemma merge_parts_returns (E : environment) (parts : list string) (final_path : string)
    (w : world) :
  ∃ ok msg, fst (merge_parts E parts final_path w) = Val (ok, msg).
Proof.
  assert (Hval : ∃ a, fst (merge_parts E parts final_path w) = Val a).
  { unfold merge_parts.
    apply (try_except_ret_returns _ (fun e => (false, "merge_error:" +:+ exn_msg e))).
    apply total_bind; [apply total_path_exists|]. intros ex.
    apply total_bind; [destruct ex; [apply total_unlink|apply total_ret]|]. intros _.
    apply total_bind; [apply total_open_w|]. intros _.
    apply total_bind; [apply total_merge_write_loop|]. intros _.
    apply total_bind; [apply total_path_exists|]. intros ex2.
    apply total_bind; [destruct ex2; [apply total_stat_size|apply total_ret]|].
    intros sz. destruct (negb ex2 || (sz =? 0)); [apply total_ret|].
    apply total_bind.
    { unfold count_lines_quick. apply total_try_except; [|intros e; apply total_ret].
      apply total_bind; [apply total_read_bytes|]. intros d. apply total_ret. }
    intros n. destruct (n <? 2).
    { apply total_bind; [apply total_try_unlink|intros _; apply total_ret]. }
    apply total_bind; [apply total_validate|]. intros [ok reason].
    destruct (negb ok); [|apply total_ret].
    apply total_bind; [apply total_try_unlink|intros _; apply total_ret]. }
  destruct Hval as [[ok msg] H]. exists ok, msg. exact H.
Qed.

(** Once the parts directory is there, the parallel downloader always comes
    back with an outcome for its entity. *)
Lemma big_returns (E : environment) (cid year_dir : string)
    (expected_total page_workers : Z) (sched : list nat) (w : world) :
  0 < page_workers →
  sched ≡ₚ seq 0 (page_count expected_total) →
  ∃ ok msg,
    fst (download_big_parallel_pages E cid expected_total year_dir page_workers sched w)
    = Val (cid, YEAR, ok, msg).
Proof.
  intros Hworkers Hperm.
  destruct (Z.leb_spec (ceil_div expected_total PAGE_LIMIT) 0) as [Hle|Hpages].
  { exists false, "bad_expected_total"%string.
    unfold download_big_parallel_pages. cbv zeta.
    destruct (Z.leb_spec (ceil_div expected_total PAGE_LIMIT) 0) as [_|]; [reflexivity|lia]. }
  destruct (big_collected E cid year_dir expected_total page_workers sched w
              Hpages Hworkers Hperm) as (w1 & -> & _).
  unfold big_after_pages. cbv zeta.
  destruct (hard_fails_of _) as [|hf hfs]; [|eexists _, _; reflexivity].
  destruct (_ =? 0); [eexists _, _; reflexivity|].
  set (parts := map (part_path_of year_dir cid) (seq 0 (page_count expected_total))).
  destruct (merge_parts_returns E parts (final_path_of year_dir cid) w1) as (ok & msg & Hm).
  unfold bind at 1.
  destruct (merge_parts E parts (final_path_of year_dir cid) w1) as [r w2].
  cbn [fst] in Hm. subst r. destruct ok; cbn [negb]; [|eexists _, _; reflexivity].
  destruct (cleanup_loop_frame parts w2) as (Hd & _).
  unfold bind, try_except, ret.
  destruct (cleanup_loop parts w2) as [[[]|e|] w3]; cbn [fst] in *;
    [eexists _, _; reflexivity|eexists _, _; reflexivity|congruence].
Qed.

(** X25.  The only exception that leaves the parallel downloader is one
    raised by creating the parts directory.  For a positive number of
    workers, whatever the server does and in whatever order the pages
    complete: a non-positive page count is answered with
    [bad_expected_total] before the directory is even created; otherwise,
    when [ensure_dir(parts_root)] returns, the downloader returns a tuple
    carrying the entity id and the year, and when [ensure_dir(parts_root)]
    raises, that exception leaves the downloader as it is, nothing
    else having been done. *)
Theorem parallel_raises_only_from_mkdir (ensure_dir : string → M unit)
    (E : environment) (cid year_dir : string)
    (expected_total page_workers : Z) (sched : list nat) (w : world) :
  0 < page_workers →
  sched ≡ₚ seq 0 (page_count expected_total) →
  let run :=
    download_big_parallel_pages_mkdir ensure_dir E cid expected_total year_dir
                                      page_workers sched w in
  (ceil_div expected_total PAGE_LIMIT <= 0 →
   run = (Val (cid, YEAR, false, "bad_expected_total"%string), w))
  ∧ (0 < ceil_div expected_total PAGE_LIMIT →
     ∀ w0,
       (ensure_dir (parts_root_of year_dir cid) w = (Val tt, w0) →
        ∃ ok msg, fst run = Val (cid, YEAR, ok, msg))
       ∧ (∀ e, ensure_dir (parts_root_of year_dir cid) w = (Exc e, w0) →
               run = (Exc e, w0))).
Proof.
  intros Hworkers Hperm run. unfold run, download_big_parallel_pages_mkdir. cbv zeta.
  split.
  - intros Hle.
    destruct (Z.leb_spec (ceil_div expected_total PAGE_LIMIT) 0) as [_|]; [reflexivity|lia].
  - intros Hpages w0.
    destruct (Z.leb_spec (ceil_div expected_total PAGE_LIMIT) 0) as [|_]; [lia|].
    split.
    + intros Hdir. rewrite (bind_val _ _ _ _ _ Hdir).
      apply big_returns; assumption.
    + intros e Hdir. apply bind_exc, Hdir.
Qed.

Lemma parallel_raises_only_from_mkdir_witness :
  ∃ ok msg,
    fst (download_big_parallel_pages_mkdir mkdir_unless_file (env_of (throttled_server 403))
           "GIANT" 12000 "2023" 10 [2; 0; 1]%nat empty_world)
    = Val ("GIANT"%string, YEAR, ok, msg).
Proof.
  destruct (parallel_raises_only_from_mkdir mkdir_unless_file (env_of (throttled_server 403))
              "GIANT" "2023" 12000 10 [2; 0; 1]%nat empty_world) as [_ H].
  - lia.
  - exact (perm_trans (perm_swap 0%nat 2%nat [1%nat])
                      (perm_skip 0%nat (perm_swap 1%nat 2%nat []))).
  - destruct (H ltac:(reflexivity) empty_world) as [Hret _].
    apply Hret. reflexivity.
Defined.

(** A regular file where the parts directory should be: the error of the
    directory creation leaves the downloader, no request having been sent. *)
Example blocked_parts_root_raises :
  let w := world_of {[parts_root_of "2023" "GIANT" := File [NL]]} in
  download_big_parallel_pages_mkdir mkdir_unless_file (env_of giant_server)
    "GIANT" 12000 "2023" 10 [2; 0; 1]%nat w
  = (Exc (os_error "File exists" (parts_root_of "2023" "GIANT")), w).
Proof. reflexivity. Qed.

(** ** What a run for one entity may change *)

Lemma cw_ret (P : string → Prop) {A} (a : A) : changes_within P (ret a).
Proof. intros w q _. reflexivity. Qed.

Lemma cw_raise (P : string → Prop) {A} (e : exn) : changes_within P (raise (A:=A) e).
Proof. intros w q _. reflexivity. Qed.

Lemma cw_bind (P : string → Prop) {A B} (m : M A) (k : A → M B) :
  changes_within P m → (∀ a, changes_within P (k a)) → changes_within P (bind m k).
Proof.
  intros Hm Hk w q Hq. unfold bind. specialize (Hm w q Hq).
  destruct (m w) as [[a|e|] w1]; cbn [snd] in *; [|exact Hm..].
  rewrite (Hk a w1 q Hq). exact Hm.
Qed.

Lemma cw_try_except (P : string → Prop) {A} (m : M A) (h : exn → M A) :
  changes_within P m → (∀ e, changes_within P (h e)) → changes_within P (try_except m h).
Proof.
  intros Hm Hh w q Hq. unfold try_except. specialize (Hm w q Hq).
  destruct (m w) as [[a|e|] w1]; cbn [snd] in *; [exact Hm| |exact Hm].
  rewrite (Hh e w1 q Hq). exact Hm.
Qed.

Lemma cw_catching (P : string → Prop) {A} (pred : exn → bool) (m : M A) :
  changes_within P m → changes_within P (catching pred m).
Proof.
  intros Hm w q Hq. unfold catching. specialize (Hm w q Hq).
  destruct (m w) as [[a|e|] w1]; cbn [snd] in *; [exact Hm| |exact Hm].
  destruct (pred e); exact Hm.
Qed.

Lemma cw_keeps_to (P : string → Prop) {A} (p : string) (m : M A) :
  keeps_to p m → P p → changes_within P m.
Proof.
  intros Hk Hp w q Hq. destruct (Hk w) as [Hf _]. apply Hf. intros ->. exact (Hq Hp).
Qed.

Lemma cw_unchanged (P : string → Prop) {A} (m : M A) :
  (∀ w, files (snd (m w)) = files w) → changes_within P m.
Proof. intros H w q _. rewrite H. reflexivity. Qed.

Lemma cw_replace (P : string → Prop) (src dst : string) :
  P src → P dst → changes_within P (replace src dst).
Proof.
  intros Hs Hd w q Hq. unfold replace.
  destruct (files w !! src) as [n|]; [|reflexivity].
  destruct (files w !! dst) as [[d|sz]|], n as [d'|sz']; cbn [snd set_files files];
    try reflexivity;
    (rewrite lookup_insert_ne by (intros ->; exact (Hq Hd));
     rewrite lookup_delete_ne by (intros ->; exact (Hq Hs)); reflexivity).
Qed.

Lemma cw_request (P : string → Prop) (E : environment) (cid : string) (offset : Z) :
  changes_within P (request_with_manual_backoff E cid offset).
Proof.
  apply cw_unchanged. intros w.
  destruct (request_with_manual_backoff E cid offset w) as [r w1] eqn:H.
  exact (proj1 (request_keeps_files _ _ _ _ _ _ H)).
Qed.

Lemma cw_small (E : environment) (fuel : nat) (cid year_dir : string) :
  changes_within (fun q => q = final_path_of year_dir cid ∨ q = tmp_path_of year_dir cid)
                 (download_small_sequential E fuel cid year_dir).
Proof.
  unfold download_small_sequential. cbv zeta.
  set (tmp := tmp_path_of year_dir cid). set (final := final_path_of year_dir cid).
  set (P := fun q : string => q = final ∨ q = tmp).
  assert (Htmp : P tmp) by (right; reflexivity).
  assert (Hfinal : P final) by (left; reflexivity).
  assert (Hunlink : changes_within P (try_unlink tmp)).
  { apply (cw_keeps_to P tmp); [apply keeps_to_confined, confined_try_unlink|exact Htmp]. }
  apply cw_bind; [apply cw_unchanged; reflexivity|]. intros ex.
  apply cw_bind; [destruct ex; [exact Hunlink|apply cw_ret]|]. intros _.
  apply cw_bind; [apply (cw_keeps_to P tmp); [apply keeps_to_small_loop|exact Htmp]|].
  intros [o|total wh]; [apply cw_ret|].
  destruct (negb wh || (total =? 0)).
  { apply cw_bind; [exact Hunlink|intros _; apply cw_ret]. }
  apply cw_bind; [apply (cw_keeps_to P tmp); [apply keeps_to_validate|exact Htmp]|].
  intros [ok reason]. destruct (negb ok).
  { apply cw_bind; [exact Hunlink|intros _; apply cw_ret]. }
  apply cw_bind; [apply cw_replace; assumption|intros _; apply cw_ret].
Qed.

Lemma cw_collect_pages (E : environment) (cid year_dir : string) (n : nat)
    (sched : list nat) :
  ∀ results total,
    changes_within (fun q => ∃ i, q = part_path_of year_dir cid i)
                   (collect_pages E cid (page_jobs year_dir cid n) sched results total).
Proof.
  induction sched as [|i rest IH]; intros results total; cbn [collect_pages];
    [apply cw_ret|].
  destruct (page_jobs year_dir cid n !! i) as [[[offset part] is_first]|] eqn:Hjob;
    [|apply IH].
  assert (Hpart : part = part_path_of year_dir cid i).
  { destruct (Nat.lt_ge_cases i n) as [Hlt|Hge].
    - rewrite (page_jobs_lookup year_dir cid n i Hlt) in Hjob. congruence.
    - rewrite lookup_ge_None_2 in Hjob; [discriminate|].
      rewrite page_jobs_length. exact Hge. }
  subst part.
  apply cw_bind.
  { apply cw_catching. intros w q Hq.
    destruct (fetch_footprint E cid offset (part_path_of year_dir cid i) is_first)
      as (used & _ & Hfoot).
    destruct (Hfoot w) as (_ & Hframe & _). apply Hframe. intros ->. apply Hq. eauto. }
  intros [e|[[[ok msg] hl] dl]]; apply IH.
Qed.

Lemma cw_big (E : environment) (cid year_dir : string) (expected_total page_workers : Z)
    (sched : list nat) :
  changes_within (fun q => q = final_path_of year_dir cid
                           ∨ ∃ i, q = part_path_of year_dir cid i)
                 (download_big_parallel_pages E cid expected_total year_dir page_workers
                                              sched).
Proof.
  unfold download_big_parallel_pages. cbv zeta.
  set (final := final_path_of year_dir cid).
  set (P := fun q : string => q = final ∨ ∃ i, q = part_path_of year_dir cid i).
  destruct (_ <=? 0); [apply cw_ret|].
  destruct (page_workers <=? 0); [apply cw_raise|].
  apply cw_bind.
  { intros w q Hq. apply cw_collect_pages. intros [i Hi]. apply Hq. right. eauto. }
  intros [results total]. unfold big_after_pages. cbv zeta.
  destruct (hard_fails_of results); [|apply cw_ret].
  destruct (total =? 0); [apply cw_ret|].
  apply cw_bind.
  { intros w q Hq.
    destruct (merge_parts_returns E
                (map (part_path_of year_dir cid) (seq 0 (Z.to_nat
                   (ceil_div expected_total PAGE_LIMIT)))) final w) as (ok & msg & _).
    assert (Hk : keeps_to final
                   (merge_parts E (map (part_path_of year_dir cid)
                                       (seq 0 (Z.to_nat (ceil_div expected_total PAGE_LIMIT))))
                                final)).
    { unfold merge_parts. apply keeps_to_try_except; [|intros e; apply keeps_to_ret].
      apply keeps_to_bind; [apply keeps_to_readonly; reflexivity|]. intros ex.
      apply keeps_to_bind.
      { destruct ex; [apply keeps_to_confined, confined_unlink|apply keeps_to_ret]. }
      intros _. apply keeps_to_bind; [apply keeps_to_confined, confined_open_w|]. intros _.
      apply keeps_to_bind; [apply keeps_to_merge_write_loop|]. intros _.
      apply keeps_to_bind; [apply keeps_to_readonly; reflexivity|]. intros ex2.
      apply keeps_to_bind.
      { destruct ex2; [apply keeps_to_confined, confined_stat_size|apply keeps_to_ret]. }
      intros sz. destruct (negb ex2 || (sz =? 0)); [apply keeps_to_ret|].
      apply keeps_to_bind; [apply keeps_to_count_lines_quick|]. intros n.
      destruct (n <? 2).
      { apply keeps_to_confined. confined_auto. }
      apply keeps_to_bind; [apply keeps_to_validate|]. intros [ok' reason].
      destruct (negb ok'); [apply keeps_to_confined; confined_auto|apply keeps_to_ret]. }
    apply (cw_keeps_to P final _ Hk); [left; reflexivity|exact Hq]. }
  intros [ok msg]. destruct (negb ok); [apply cw_ret|].
  apply cw_bind; [|intros _; apply cw_ret].
  apply cw_try_except; [|intros e; apply cw_ret].
  intros w q Hq. destruct (cleanup_loop_frame
                             (map (part_path_of year_dir cid)
                                  (seq 0 (Z.to_nat (ceil_div expected_total PAGE_LIMIT)))) w)
    as (_ & Hf & _).
  apply Hf. intros Hin. apply list_elem_of_In, in_map_iff in Hin as (i & <- & _).
  apply Hq. right. eauto.
Qed.

Lemma final_not_part_cross (year_dir cid cid' : string) (i : nat) :
  final_path_of year_dir cid ≠ part_path_of year_dir cid' i.
Proof.
  unfold final_path_of, part_path_of, parts_root_of. rewrite !string_app_assoc.
  intros H. apply string_app_inj_l, (string_app_inj_l "/") in H.
  rewrite !string_app_cons in H. discriminate H.
Qed.

(** X26.  A run for one entity changes nothing but that entity's own paths:
    whatever the server does, however long the run, for any number of
    workers and any order of completion, a path that is not the entity's
    final path, temporary path or one of its part paths holds after the run
    what it held before.  With the paths of different entities distinct,
    the entity-level workers cannot disturb each other's files. *)
Theorem entity_run_changes_own_paths_only (E : environment) (fuel : nat)
    (cid year_dir : string) (expected_total page_workers : Z) (sched : list nat)
    (w : world) (q : string) :
  q ≠ final_path_of year_dir cid →
  q ≠ tmp_path_of year_dir cid →
  (∀ i, q ≠ part_path_of year_dir cid i) →
  files (snd (download_small_sequential E fuel cid year_dir w)) !! q = files w !! q
  ∧ files (snd (download_big_parallel_pages E cid expected_total year_dir page_workers
                                            sched w)) !! q = files w !! q.
Proof.
  intros Hf Ht Hp. split.
  - apply (cw_small E fuel cid year_dir w q). intros [H|H]; contradiction.
  - apply (cw_big E cid year_dir expected_total page_workers sched w q).
    intros [H|[i H]]; [contradiction|exact (Hp i H)].
Qed.

Lemma entity_run_changes_own_paths_only_witness :
  files (snd (download_small_sequential (env_of acme_server) 5 "ACME" "2023"
                (world_of {[final_path_of "2023" "GIANT" := File (table_file 80)]})))
    !! final_path_of "2023" "GIANT"
  = Some (File (table_file 80)).
Proof.
  refine (proj1 (entity_run_changes_own_paths_only (env_of acme_server) 5 "ACME" "2023"
                   3000 10 []
                   (world_of {[final_path_of "2023" "GIANT" := File (table_file 80)]})
                   (final_path_of "2023" "GIANT") _ _ _)).
  - discriminate.
  - discriminate.
  - intros i. apply final_not_part_cross.
Defined.

